(** * memlib: a segregated-fit allocator (mm.c), embedded and verified

    The development follows [src/mm.c].  The heap is a flat byte memory;
    block tags are 4-byte little-endian words, free-list links are 8-byte
    words (LP64: [sizeof(size_t) = sizeof(void* ) = 8]).  Every function of
    the source is a function on an explicit [state] that carries the
    memory, the three globals of the source and the region provider. *)

From Stdlib Require Import ZArith List Bool Lia.
Import ListNotations.
Local Open Scope Z_scope.

(** ** Machine arithmetic *)

(** [unsigned int] and [size_t] arithmetic wraps; conversion to [int]
    reduces modulo [2^32] into the signed range. *)
Definition wrap32 (x : Z) : Z := x mod 2 ^ 32.
Definition wrap64 (x : Z) : Z := x mod 2 ^ 64.
Definition to_int (x : Z) : Z := (x + 2 ^ 31) mod 2 ^ 32 - 2 ^ 31.

(** ** Constants and macros of the source *)

Definition WSIZE : Z := 4.
Definition DSIZE : Z := 8.
Definition ALIGNMENT : Z := 8.
Definition CHUNKSIZE : Z := Z.shiftl 1 12.
Definition MIN_BLOCK_SIZE : Z := 2 * DSIZE.
Definition SEG_LIST_COUNT : Z := 8.
Definition NULL : Z := 0.

(** [(void* )-1], the failure value of the region provider. *)
Definition SBRK_FAIL : Z := 2 ^ 64 - 1.

(** [ALIGN(size) = (size + (ALIGNMENT-1)) & ~0x7], in [size_t] arithmetic. *)
Definition ALIGN (size : Z) : Z :=
  Z.land (wrap64 (size + (ALIGNMENT - 1))) (Z.lnot 7).

Definition PACK (size alloc : Z) : Z := Z.lor size alloc.

(** [SIZE_T_SIZE = ALIGN(sizeof(size_t))]. *)
Definition SIZE_T_SIZE : Z := ALIGN 8.

Definition GET_HEADER (p : Z) : Z := p - WSIZE.

(** ** Byte memory *)

Definition memory := Z -> Z.

Definition byte_at (m : memory) (a : Z) : Z := m a mod 256.

Definition load4 (m : memory) (a : Z) : Z :=
  byte_at m a + 2 ^ 8 * byte_at m (a + 1) + 2 ^ 16 * byte_at m (a + 2)
  + 2 ^ 24 * byte_at m (a + 3).

Definition load8 (m : memory) (a : Z) : Z :=
  load4 m a + 2 ^ 32 * load4 m (a + 4).

(** Little-endian store of the low [n] bytes of [v]. *)
Definition store_le (n : Z) (m : memory) (a v : Z) : memory :=
  fun x => if (a <=? x) && (x <? a + n) then (v / 2 ^ (8 * (x - a))) mod 256
           else m x.

Definition store4 := store_le 4.
Definition store8 := store_le 8.

(** [memcpy(dst, src, n)] for ranges that do not overlap. *)
Definition copy_bytes (m : memory) (dst src n : Z) : memory :=
  fun x => if (dst <=? x) && (x <? dst + n) then m (src + (x - dst)) else m x.

(** ** Allocator state *)

(** The globals [seg_lists], [mem_hp], [mem_bp] of the source, the memory,
    and the two words of the region provider. *)
Record state := mkState {
  heap : memory;
  mem_brk : Z;
  mem_max_addr : Z;
  seg_lists : Z;
  mem_hp : Z;
  mem_bp : Z
}.

Definition set_heap (st : state) (m : memory) : state :=
  mkState m (mem_brk st) (mem_max_addr st) (seg_lists st) (mem_hp st) (mem_bp st).
Definition set_brk (st : state) (b : Z) : state :=
  mkState (heap st) b (mem_max_addr st) (seg_lists st) (mem_hp st) (mem_bp st).
Definition set_seg_lists (st : state) (p : Z) : state :=
  mkState (heap st) (mem_brk st) (mem_max_addr st) p (mem_hp st) (mem_bp st).
Definition set_mem_hp (st : state) (p : Z) : state :=
  mkState (heap st) (mem_brk st) (mem_max_addr st) (seg_lists st) p (mem_bp st).
Definition set_mem_bp (st : state) (p : Z) : state :=
  mkState (heap st) (mem_brk st) (mem_max_addr st) (seg_lists st) (mem_hp st) p.

(** ** Region provider *)

(** Modelled from the spec: the region provider ([mem_sbrk] and
    [mem_heap_hi] of memlib, which is not part of the sources).  [grow]
    extends the region monotonically by [incr] bytes and returns the
    address of the start of the new extent, or fails, leaving the region
    as it is, when the backing store (everything below [mem_max_addr]) is
    exhausted. *)
Definition mem_sbrk (st : state) (incr : Z) : state * Z :=
  if mem_max_addr st <? mem_brk st + incr then (st, SBRK_FAIL)
  else (set_brk st (mem_brk st + incr), mem_brk st).

(** Modelled from the spec: the current high address of the region, the
    address of its last byte. *)
Definition mem_heap_hi (st : state) : Z := mem_brk st - 1.

(** ** Memory access macros *)

Definition GET (st : state) (p : Z) : Z := load4 (heap st) p.
Definition PUT (st : state) (p val : Z) : state :=
  set_heap st (store4 (heap st) p val).
Definition GET_PTR_ADDR (st : state) (p : Z) : Z := load8 (heap st) p.
Definition PUT_PTR_ADDR (st : state) (p val : Z) : state :=
  set_heap st (store8 (heap st) p val).

Definition GET_SIZE (st : state) (p : Z) : Z := Z.land (GET st p) (Z.lnot 7).
Definition GET_ALLOC (st : state) (p : Z) : Z := Z.land (GET st p) 1.

Definition GET_FOOTER (st : state) (p : Z) : Z :=
  p + GET_SIZE st (GET_HEADER p) - DSIZE.
Definition GET_NEXT (st : state) (p : Z) : Z := p + GET_SIZE st (p - WSIZE).
Definition GET_PREV (st : state) (p : Z) : Z := p - GET_SIZE st (p - DSIZE).
Definition GET_NEXT_FREE (st : state) (p : Z) : Z := GET_PTR_ADDR st p.
Definition INSIDE_HEAP (st : state) (p : Z) : bool :=
  (mem_hp st <=? p) && (p <? mem_bp st).

(** ** mm_init *)

(** The loop [for (i = 0; i < SEG_LIST_COUNT; i++) PUT(seg_lists + SIZE_T_SIZE * i, 0)]. *)
Fixpoint clear_slots (n : nat) (st : state) (i : Z) : state :=
  match n with
  | O => st
  | S n' => clear_slots n' (PUT st (seg_lists st + SIZE_T_SIZE * i) 0) (i + 1)
  end.

Definition mm_init (st : state) : state * Z :=
  let seg_lists_size := SIZE_T_SIZE * SEG_LIST_COUNT in
  let '(st1, r) := mem_sbrk st (ALIGN seg_lists_size + MIN_BLOCK_SIZE) in
  let st2 := set_seg_lists st1 r in
  if r =? SBRK_FAIL then (st2, -1)
  else
    let st3 := clear_slots (Z.to_nat SEG_LIST_COUNT) st2 0 in
    let st4 := set_mem_hp st3 (seg_lists st3 + seg_lists_size) in
    let st5 := set_mem_hp st4 (mem_hp st4 + DSIZE) in
    let st6 := PUT st5 (GET_HEADER (mem_hp st5)) (PACK MIN_BLOCK_SIZE 1) in
    let st7 := PUT st6 (GET_FOOTER st6 (mem_hp st6)) (PACK MIN_BLOCK_SIZE 1) in
    (set_mem_bp st7 (mem_heap_hi st7), 0).

(** ** place *)

Definition place (st : state) (p size : Z) : state :=
  if (p =? NULL) || (size =? 0) then st
  else
    let st1 := PUT st (GET_HEADER p) (PACK size 1) in
    PUT st1 (GET_FOOTER st1 p) (PACK size 1).

(** ** get_size_class *)

Definition get_size_class (size : Z) : Z :=
  let class := to_int (size / 64) in
  if class >=? SEG_LIST_COUNT then SEG_LIST_COUNT - 1
  else if class <? 0 then 0
  else class.

(** ** get_fit *)

(** The inner [for] loop over one class list.  [None]: the loop did not
    finish within [fuel] iterations; [Some None]: the list ended;
    [Some (Some j)]: [return j]. *)
Fixpoint fit_in_list (fuel : nat) (st : state) (size j : Z) : option (option Z) :=
  match fuel with
  | O => None
  | S fuel' =>
      if INSIDE_HEAP st j && negb (j =? 0) then
        if (GET_ALLOC st (GET_HEADER j) =? 0) && (size <=? GET_SIZE st (GET_HEADER j))
        then Some (Some j)
        else fit_in_list fuel' st size (GET_NEXT_FREE st j)
      else Some None
  end.

(** The outer [while (i < SEG_LIST_COUNT)] loop, [n] classes left. *)
Fixpoint fit_from (n fuel : nat) (st : state) (size i : Z) : option Z :=
  match n with
  | O => Some NULL
  | S n' =>
      match fit_in_list fuel st size (GET_PTR_ADDR st (seg_lists st + 8 * i)) with
      | None => None
      | Some (Some j) => Some j
      | Some None => fit_from n' fuel st size (i + 1)
      end
  end.

Definition get_fit (fuel : nat) (st : state) (size : Z) : option Z :=
  let i := get_size_class size in
  fit_from (Z.to_nat (SEG_LIST_COUNT - i)) fuel st size i.

(** ** grow_heap *)

Definition grow_heap (st : state) (size : Z) : state * Z :=
  if size =? 0 then (st, NULL)
  else
    let '(st1, ptr) := mem_sbrk st size in
    if ptr =? SBRK_FAIL then (st1, NULL)
    else
      let ptr := ptr + DSIZE in
      let st2 := PUT st1 (GET_HEADER ptr) (PACK size 0) in
      let st3 := PUT st2 (GET_FOOTER st2 ptr) (PACK size 0) in
      (set_mem_bp st3 (mem_heap_hi st3), ptr).

(** ** seg_list_remove and seg_list_add *)

(** The [for] loop of [seg_list_remove]: [k] trails [j]. *)
Fixpoint remove_loop (fuel : nat) (st : state) (p k j : Z) : option state :=
  match fuel with
  | O => None
  | S fuel' =>
      if INSIDE_HEAP st j && negb (j =? 0) then
        if p =? j then
          let nx := GET_NEXT_FREE st j in
          let st1 :=
            if INSIDE_HEAP st nx && negb (nx =? 0) then PUT_PTR_ADDR st k nx
            else PUT_PTR_ADDR st k 0 in
          Some (PUT_PTR_ADDR st1 p 0)
        else remove_loop fuel' st p j (GET_NEXT_FREE st j)
      else Some st
  end.

Definition seg_list_remove (fuel : nat) (st : state) (p : Z) : option state :=
  let class_size := get_size_class (GET_SIZE st (GET_HEADER p)) in
  let k := seg_lists st + 8 * class_size in
  remove_loop fuel st p k (GET_PTR_ADDR st (seg_lists st + 8 * class_size)).

Definition seg_list_add (st : state) (p : Z) : state :=
  if p =? NULL then st
  else
    let class_size := get_size_class (GET_SIZE st (GET_HEADER p)) in
    let slot := seg_lists st + class_size * SIZE_T_SIZE in
    let st1 :=
      if negb (GET_PTR_ADDR st slot =? 0) && negb (GET_PTR_ADDR st slot =? p)
      then PUT_PTR_ADDR st p (GET_PTR_ADDR st slot)
      else PUT_PTR_ADDR st p 0 in
    PUT_PTR_ADDR st1 slot p.

(** ** coalesce *)

(** The first half of [coalesce]: the eligible neighbours are unlinked
    from the index and their sizes added up.  The result is the state in
    which the merged tags are about to be written, [start_p] and
    [free_size]. *)
Definition coalesce_unlink (fuel : nat) (st : state) (p size : Z)
  : option (state * Z * Z) :=
  let prev_elig :=
    INSIDE_HEAP st (GET_PREV st p)
    && (GET_ALLOC st (GET_HEADER (GET_PREV st p)) =? 0) in
  let next_elig :=
    INSIDE_HEAP st (GET_NEXT st p)
    && (GET_ALLOC st (GET_HEADER (GET_NEXT st p)) =? 0) in
  let r1 :=
    if prev_elig then
      match seg_list_remove fuel st (GET_PREV st p) with
      | None => None
      | Some st1 =>
          Some (st1, GET_PREV st1 p,
                wrap64 (size + GET_SIZE st (GET_HEADER (GET_PREV st p))))
      end
    else Some (st, p, size) in
  match r1 with
  | None => None
  | Some (st1, start_p, free_size) =>
      if next_elig then
        match seg_list_remove fuel st1 (GET_NEXT st1 p) with
        | None => None
        | Some st2 =>
            Some (st2, start_p,
                  wrap64 (free_size + GET_SIZE st1 (GET_HEADER (GET_NEXT st1 p))))
        end
      else Some (st1, start_p, free_size)
  end.

(** The second half of [coalesce]: the tags of the merged block are
    written and the block is pushed on its class. *)
Definition coalesce_write (st2 : state) (start_p free_size : Z) : state :=
  let st3 := PUT st2 (GET_HEADER start_p) (PACK free_size 0) in
  let st4 := PUT st3 (GET_FOOTER st3 start_p) (PACK free_size 0) in
  seg_list_add st4 start_p.

Definition coalesce (fuel : nat) (st : state) (p size : Z) : option state :=
  if (p =? NULL) || (size =? 0) then Some st
  else
    match coalesce_unlink fuel st p size with
    | None => None
    | Some (st2, start_p, free_size) =>
        Some (coalesce_write st2 start_p free_size)
    end.

(** ** mm_malloc, mm_free, mm_realloc *)

(** The block size [mm_malloc] computes for a request. *)
Definition block_size_of (size : Z) : Z :=
  let block_size := ALIGN (wrap64 (size + DSIZE)) in
  if block_size <? MIN_BLOCK_SIZE
  then ALIGN (wrap64 (wrap64 (size + MIN_BLOCK_SIZE) - size))
  else block_size.

(** The branch of [mm_malloc] that carves [block_size] out of the fit
    and indexes the remainder.  [split_write] is the part that runs once
    the fit has been unlinked: the tags of both halves are written and the
    remainder is pushed on its class. *)
Definition split_write (st1 : state) (fit_ptr block_size split_remainder : Z)
  : state :=
  let st2 := place st1 fit_ptr block_size in
  let new_ptr := GET_SIZE st2 (GET_HEADER fit_ptr) + fit_ptr in
  let st3 := PUT st2 (GET_HEADER new_ptr) (PACK split_remainder 0) in
  let st4 := PUT st3 (GET_FOOTER st3 new_ptr) (PACK split_remainder 0) in
  seg_list_add st4 new_ptr.

Definition malloc_split (fuel : nat) (st : state) (fit_ptr block_size : Z)
  : option state :=
  let split_remainder := wrap64 (GET_SIZE st (GET_HEADER fit_ptr) - block_size) in
  match seg_list_remove fuel st fit_ptr with
  | None => None
  | Some st1 => Some (split_write st1 fit_ptr block_size split_remainder)
  end.

(** The state between the two statements of the other branch: the whole
    fit has been tagged allocated and is about to be unlinked. *)
Definition malloc_absorb_placed (st : state) (fit_ptr : Z) : state :=
  place st fit_ptr (GET_SIZE st (GET_HEADER fit_ptr)).

Definition malloc_absorb (fuel : nat) (st : state) (fit_ptr : Z) : option state :=
  seg_list_remove fuel (malloc_absorb_placed st fit_ptr) fit_ptr.

Definition mm_malloc (fuel : nat) (st : state) (size : Z) : option (state * Z) :=
  if size =? 0 then Some (st, NULL)
  else
    let block_size := block_size_of size in
    match get_fit fuel st block_size with
    | None => None
    | Some fit_ptr =>
        if negb (fit_ptr =? NULL) then
          let r :=
            if MIN_BLOCK_SIZE <=? wrap64 (GET_SIZE st (GET_HEADER fit_ptr) - block_size)
            then malloc_split fuel st fit_ptr block_size
            else malloc_absorb fuel st fit_ptr in
          match r with
          | None => None
          | Some st' => Some (st', fit_ptr)
          end
        else
          let '(st1, fit_ptr) := grow_heap st block_size in
          if negb (fit_ptr =? NULL) then Some (place st1 fit_ptr block_size, fit_ptr)
          else Some (st1, NULL)
    end.

Definition mm_free (fuel : nat) (st : state) (p : Z) : option state :=
  if p =? NULL then Some st
  else coalesce fuel st p (GET_SIZE st (GET_HEADER p)).

(** In [mm_realloc] the old payload size, [GET_SIZE(..) - DSIZE], is
    computed in [unsigned int] and only then widened to [size_t]. *)
Definition mm_realloc (fuel : nat) (st : state) (ptr size : Z)
  : option (state * Z) :=
  if ptr =? NULL then mm_malloc fuel st size
  else if size =? 0 then
    match mm_free fuel st ptr with
    | None => None
    | Some st' => Some (st', NULL)
    end
  else
    match mm_malloc fuel st size with
    | None => None
    | Some (st1, new_ptr) =>
        if new_ptr =? NULL then Some (st1, NULL)
        else
          let copySize := wrap32 (GET_SIZE st1 (GET_HEADER ptr) - DSIZE) in
          let copySize := if size <? copySize then size else copySize in
          let st2 := set_heap st1 (copy_bytes (heap st1) new_ptr ptr copySize) in
          match mm_free fuel st2 ptr with
          | None => None
          | Some st3 => Some (set_mem_bp st3 (mem_heap_hi st3), new_ptr)
          end
    end.


(** * Specification vocabulary *)

(** ** Class lists as the traversals see them *)

(** [walk st j l]: following the links from [j], a traversal visits the
    blocks [l], in this order, and then stops because the pointer it
    follows is null or outside [[mem_hp, mem_bp)]. *)
Inductive walk (st : state) : Z -> list Z -> Prop :=
| walk_end j :
    INSIDE_HEAP st j && negb (j =? 0) = false -> walk st j []
| walk_step j l :
    INSIDE_HEAP st j && negb (j =? 0) = true ->
    walk st (GET_NEXT_FREE st j) l -> walk st j (j :: l).

(** A block satisfies a request when it is tagged free and is large enough. *)
Definition fits (st : state) (size j : Z) : bool :=
  (GET_ALLOC st (GET_HEADER j) =? 0) && (size <=? GET_SIZE st (GET_HEADER j)).

(** The classes [c, c+1, ..., SEG_LIST_COUNT - 1]. *)
Definition classes_from (c : Z) : list Z :=
  map (fun k => c + Z.of_nat k) (seq 0 (Z.to_nat (SEG_LIST_COUNT - c))).

(** The fit finder in the words of the specification: start at class
    [min(size / 64, N-1)], take the members of that class front to back,
    then those of each higher class, and return the first that fits, or
    no fit.  [lists c] is the content of class [c]. *)
Definition spec_start_class (size : Z) : Z :=
  Z.min (size / 64) (SEG_LIST_COUNT - 1).

Definition spec_fit (st : state) (lists : Z -> list Z) (size : Z) : Z :=
  match find (fits st size)
             (flat_map lists (classes_from (spec_start_class size))) with
  | Some j => j
  | None => NULL
  end.

(** The head of class [c], as [get_fit] reads it. *)
Definition class_head (st : state) (c : Z) : Z :=
  GET_PTR_ADDR st (seg_lists st + 8 * c).

(** ** Heap layout *)

(** A block, named by its payload pointer. *)
Record block := mkBlock { bptr : Z; bsize : Z; balloc : bool }.

Definition tag_of (b : block) : Z := bsize b + (if balloc b then 1 else 0).

(** Header and footer of [b] hold the same tag. *)
Definition tags_ok (m : memory) (b : block) : Prop :=
  load4 m (bptr b - 4) = tag_of b /\ load4 m (bptr b + bsize b - 8) = tag_of b.

(** [tiles p bs e]: the blocks [bs] follow one another without gaps from
    payload pointer [p]; the payload pointer after the last one is [e]. *)
Fixpoint tiles (p : Z) (bs : list block) (e : Z) : Prop :=
  match bs with
  | [] => p = e
  | b :: bs' =>
      bptr b = p /\ MIN_BLOCK_SIZE <= bsize b /\ bsize b mod 8 = 0
      /\ tiles (p + bsize b) bs' e
  end.

(** No two physically adjacent blocks are both free. *)
Fixpoint no_adj_free (bs : list block) : Prop :=
  match bs with
  | [] => True
  | b1 :: bs' =>
      match bs' with
      | [] => True
      | b2 :: _ => balloc b1 = true \/ balloc b2 = true
      end /\ no_adj_free bs'
  end.

(** A null-terminated chain of links through the payloads [l]. *)
Fixpoint chain (m : memory) (j : Z) (l : list Z) : Prop :=
  match l with
  | [] => j = 0
  | p :: l' => j = p /\ chain m (load8 m p) l'
  end.

(** [p] is a block of [bs] whose size falls in class [c]. *)
Definition node_in (bs : list block) (c p : Z) : Prop :=
  exists s a, In (mkBlock p s a) bs /\ get_size_class s = c.

(** [p] is a free block of [bs] whose size falls in class [c]. *)
Definition free_in (bs : list block) (c p : Z) : Prop :=
  exists s, In (mkBlock p s false) bs /\ get_size_class s = c.

(** The structure every step of an operation keeps: the boundary block
    first, blocks tiling the region up to the break with matching tags,
    and class lists that are null-terminated chains, without repetition,
    through blocks of their class. *)
Record heap_wf (st : state) (bs : list block) (idx : Z -> list Z) : Prop := {
  wf_base : 0 < seg_lists st /\ seg_lists st mod 8 = 0;
  wf_hp : mem_hp st = seg_lists st + 72;
  wf_bp : mem_bp st = mem_brk st - 1;
  wf_top : mem_brk st + 8 < 2 ^ 64;
  wf_extent : mem_brk st - seg_lists st < 2 ^ 32;
  wf_first : exists rest, bs = mkBlock (mem_hp st) MIN_BLOCK_SIZE true :: rest;
  wf_tiles : tiles (mem_hp st) bs (mem_brk st + 8);
  wf_tags : Forall (tags_ok (heap st)) bs;
  wf_chain : forall c, 0 <= c < SEG_LIST_COUNT ->
      chain (heap st) (class_head st c) (idx c);
  wf_nodup : forall c, 0 <= c < SEG_LIST_COUNT -> NoDup (idx c);
  wf_nodes : forall c p, 0 <= c < SEG_LIST_COUNT ->
      In p (idx c) -> node_in bs c p
}.

(** The well-formed heap between operations: on top of [heap_wf], free
    space is coalesced and the class lists hold exactly the free blocks
    of their class. *)
Record heap_ok (st : state) (bs : list block) (idx : Z -> list Z) : Prop := {
  ok_wf : heap_wf st bs idx;
  ok_noadj : no_adj_free bs;
  ok_index : forall c p, 0 <= c < SEG_LIST_COUNT ->
      (In p (idx c) <-> free_in bs c p)
}.


(** A live allocation: an allocated block other than the boundary block. *)
Definition live_in (bs : list block) (p : Z) : Prop :=
  exists s, In (mkBlock p s true) (tl bs).

(** ** Clients *)

(** A client program is a sequence of calls; a pointer argument is named
    by the number of the call that returned it.  [Store] is the client
    writing bytes into a payload it holds. *)
Inductive call :=
| Allocate (size : Z)
| Release (i : nat)
| Resize (i : nat) (size : Z)
| Store (i : nat) (off : Z) (bytes : list Z).

(** The allocator state, the results of the calls so far, and the live
    allocations with the sizes they were requested with. *)
Record client := mkClient {
  cstate : state;
  results : list Z;
  live : list (Z * Z)
}.

Fixpoint write_bytes (m : memory) (a : Z) (bytes : list Z) : memory :=
  match bytes with
  | [] => m
  | b :: bytes' => write_bytes (store_le 1 m a b) (a + 1) bytes'
  end.

Definition is_live (c : client) (p : Z) : bool :=
  existsb (fun e => fst e =? p) (live c).

Definition drop_live (p : Z) (l : list (Z * Z)) : list (Z * Z) :=
  filter (fun e => negb (fst e =? p)) l.

(** One call.  [None] when the call breaks a documented precondition (a
    pointer that is neither null nor live, a store outside the requested
    size) or when a loop does not finish within [fuel]. *)
Definition exec (fuel : nat) (c : client) (op : call) : option client :=
  match op with
  | Allocate size =>
      match mm_malloc fuel (cstate c) size with
      | None => None
      | Some (st', r) =>
          Some (mkClient st' (results c ++ [r])
                  (if r =? NULL then live c else (r, size) :: live c))
      end
  | Release i =>
      let p := nth i (results c) NULL in
      if (p =? NULL) || is_live c p then
        match mm_free fuel (cstate c) p with
        | None => None
        | Some st' =>
            Some (mkClient st' (results c ++ [NULL]) (drop_live p (live c)))
        end
      else None
  | Resize i size =>
      let p := nth i (results c) NULL in
      if (p =? NULL) || is_live c p then
        match mm_realloc fuel (cstate c) p size with
        | None => None
        | Some (st', r) =>
            Some (mkClient st' (results c ++ [r])
                    (if r =? NULL
                     then (if size =? 0 then drop_live p (live c) else live c)
                     else (r, size) :: drop_live p (live c)))
        end
      else None
  | Store i off bytes =>
      let p := nth i (results c) NULL in
      if existsb (fun e => (fst e =? p) && (0 <=? off)
                           && (off + Z.of_nat (length bytes) <=? snd e))
                 (live c)
      then Some (mkClient
                   (set_heap (cstate c)
                      (write_bytes (heap (cstate c)) (p + off) bytes))
                   (results c ++ [NULL]) (live c))
      else None
  end.

Fixpoint run (fuel : nat) (c : client) (ops : list call) : option client :=
  match ops with
  | [] => Some c
  | op :: ops' =>
      match exec fuel c op with
      | None => None
      | Some c' => run fuel c' ops'
      end
  end.

(** A region provider that has handed out nothing yet: zero-filled memory,
    break at [base], room up to [limit]. *)
Definition fresh_region (base limit : Z) : state :=
  mkState (fun _ => 0) base limit 0 0 0.

(** [init()] on a fresh region, then the calls [ops]. *)
Definition session (fuel : nat) (base limit : Z) (ops : list call)
  : option client :=
  let '(st, r) := mm_init (fresh_region base limit) in
  if r =? 0 then run fuel (mkClient st [] []) ops else None.

(** The bytes of the block whose payload pointer is [p], as its header
    delimits them: [[p - 4, p - 4 + size)]. *)
Definition block_lo (p : Z) : Z := GET_HEADER p.
Definition block_hi (st : state) (p : Z) : Z :=
  GET_HEADER p + GET_SIZE st (GET_HEADER p).

(** The region lies in the address space: its break is a non-null address
    and pointer arithmetic on the addresses it can reach does not wrap. *)
Definition provider_ok (st : state) : Prop :=
  0 < mem_brk st /\ mem_max_addr st + 8 < 2 ^ 64.

(** The state [grow_heap] leaves when the provider can grow. *)
Definition grown (st : state) (size : Z) : state :=
  let p := mem_brk st + DSIZE in
  let st1 := set_brk st (mem_brk st + size) in
  let st2 := PUT st1 (GET_HEADER p) (PACK size 0) in
  let st3 := PUT st2 (GET_FOOTER st2 p) (PACK size 0) in
  set_mem_bp st3 (mem_heap_hi st3).


(** The memory after header and footer of the block at [p] have been
    written with size [s] and flag [a]. *)
Definition write_tags (m : memory) (p s a : Z) : memory :=
  store4 (store4 m (p - 4) (s + a)) (p + s - 8) (s + a).

(** ** Index updates, as ghost lists *)

(** The class lists once [F] has been unlinked. *)
Definition unlink (F : Z) (idx : Z -> list Z) : Z -> list Z :=
  fun c => filter (fun q => negb (q =? F)) (idx c).

(** The class lists once [F] has been pushed on class [c]. *)
Definition link (c F : Z) (idx : Z -> list Z) : Z -> list Z :=
  fun c' => if c' =? c then F :: idx c' else idx c'.

Definition flag_of (b : block) : Z := if balloc b then 1 else 0.

(** The memory after the tags of the blocks [news] have been written,
    first block first. *)
Definition write_all (m : memory) (news : list block) : memory :=
  fold_left (fun m b => write_tags m (bptr b) (bsize b) (flag_of b)) news m.

(** Two 8-byte cells that do not overlap. *)
Definition apart (a b : Z) : Prop := a + 8 <= b \/ b + 8 <= a.

(** An 8-byte cell that holds a link: a class slot or the first payload
    word of a block. *)
Definition link_cell (st : state) (bs : list block) (a : Z) : Prop :=
  (exists c, 0 <= c < SEG_LIST_COUNT /\ a = seg_lists st + 8 * c)
  \/ (exists b, In b bs /\ a = bptr b).

(** A cell that overlaps neither tag of [b]. *)
Definition off_tags (a : Z) (b : block) : Prop :=
  (a + 8 <= bptr b - 4 \/ bptr b <= a)
  /\ (a + 8 <= bptr b + bsize b - 8 \/ bptr b + bsize b - 4 <= a).

(** The bytes a stretch of blocks spans. *)
Definition span (l : list block) : Z :=
  fold_right (fun b n => bsize b + n) 0 l.

(** The last block of [l], if any, is allocated; the first block of [l],
    if any, is allocated. *)
Definition last_alloc (l : list block) : Prop :=
  forall l' b, l = l' ++ [b] -> balloc b = true.
Definition head_alloc (l : list block) : Prop :=
  forall b l', l = b :: l' -> balloc b = true.

(** A neighbour takes part in a merge when it exists and is free. *)
Definition free_nbr (o : option block) : list block :=
  match o with
  | Some b => if balloc b then [] else [b]
  | None => []
  end.

(** An address that lies in no class slot and in no link of an indexed
    block. *)
Definition away_from_links (st : state) (idx : Z -> list Z) (x : Z) : Prop :=
  (forall c, 0 <= c < SEG_LIST_COUNT ->
     x < seg_lists st + 8 * c \/ seg_lists st + 8 * c + 8 <= x)
  /\ (forall c q, 0 <= c < SEG_LIST_COUNT -> In q (idx c) -> x < q \/ q + 8 <= x).


(** ** Payloads *)

(** The payload bytes of a block: what lies between its header and its
    footer. *)
Definition payload (b : block) (x : Z) : Prop :=
  bptr b <= x < bptr b + bsize b - DSIZE.

(** [m'] holds what [m] holds in the payload of every allocated block of
    [bs]. *)
Definition frame (bs : list block) (m m' : memory) : Prop :=
  forall b x, In b bs -> balloc b = true -> payload b x ->
              byte_at m' x = byte_at m x.

(** [x] lies in the payload of an allocated block of [bs]. *)
Definition in_payload (bs : list block) (x : Z) : Prop :=
  exists b, In b bs /\ balloc b = true /\ payload b x.

(** ** Clients that keep to the contract *)

(** The documented precondition of a call: a pointer argument is null or
    live, a store stays inside the bytes that were requested. *)
Definition call_ok (c : client) (op : call) : bool :=
  match op with
  | Allocate _ => true
  | Release i | Resize i _ =>
      let p := nth i (results c) NULL in (p =? NULL) || is_live c p
  | Store i off bytes =>
      let p := nth i (results c) NULL in
      existsb (fun e => (fst e =? p) && (0 <=? off)
                        && (off + Z.of_nat (length bytes) <=? snd e))
              (live c)
  end.

(** A request size for which [size + DSIZE], rounded up, still fits
    [size_t]. *)
Definition sane_call (op : call) : Prop :=
  match op with
  | Allocate size | Resize _ size => 0 <= size <= 2 ^ 64 - 16
  | Release _ | Store _ _ _ => True
  end.

(** What the client holds, against the blocks of the heap: every live
    pointer names an allocated block, other than the boundary block, whose
    payload has room for the bytes that were requested. *)
Definition live_ok (st : state) (bs : list block) (l : list (Z * Z)) : Prop :=
  NoDup (map fst l)
  /\ forall p sz, In (p, sz) l ->
       p <> mem_hp st
       /\ exists s, In (mkBlock p s true) bs /\ 0 <= sz /\ sz + DSIZE <= s.

(** The state of a client between two calls: a well-formed heap in a
    region of less than 4 GiB, [fuel] enough for the walks through the
    class lists, live pointers as above, and every result so far a
    multiple of 8. *)
Record client_ok (fuel : nat) (c : client) (bs : list block)
                 (idx : Z -> list Z) : Prop := {
  co_heap : heap_ok (cstate c) bs idx;
  co_brk : 0 < mem_brk (cstate c) <= mem_max_addr (cstate c);
  co_max : mem_max_addr (cstate c) + 8 < 2 ^ 64;
  co_cap : mem_max_addr (cstate c) - seg_lists (cstate c) < 2 ^ 32;
  co_fuel : mem_max_addr (cstate c) - seg_lists (cstate c) < 16 * Z.of_nat fuel;
  co_live : live_ok (cstate c) bs (live c);
  co_aligned : Forall (fun r => r mod 8 = 0) (results c)
}.

(** The run stops at a call that breaks its precondition. *)
Definition breaks (fuel : nat) (c : client) (ops : list call) : Prop :=
  exists pre op post c1,
    ops = pre ++ op :: post /\ run fuel c pre = Some c1 /\ call_ok c1 op = false.

(** ** The region as an operation leaves it *)

(** The break, the capacity and the three globals are those of [st]. *)
Definition same_region (st st' : state) : Prop :=
  mem_brk st' = mem_brk st /\ mem_max_addr st' = mem_max_addr st
  /\ seg_lists st' = seg_lists st /\ mem_hp st' = mem_hp st
  /\ mem_bp st' = mem_bp st.

(** An address below the class slots, or past the footer of the last
    block (which occupies the four bytes at the break). *)
Definition outside_heap (st : state) (x : Z) : Prop :=
  x < seg_lists st \/ mem_brk st + 4 <= x.

(** ** Observations on a client's state *)

Definition SIZE_MAX : Z := 2 ^ 64 - 1.

(** The four bytes of a 32-bit word, low byte first. *)
Definition le4 (v : Z) : list Z :=
  [v mod 256; (v / 2 ^ 8) mod 256; (v / 2 ^ 16) mod 256; (v / 2 ^ 24) mod 256].

(** The byte ranges of the blocks the client holds. *)
Definition live_ranges (c : client) : list (Z * Z) :=
  map (fun e => (block_lo (fst e), block_hi (cstate c) (fst e))) (live c).

Fixpoint pairwise_disjoint (l : list (Z * Z)) : bool :=
  match l with
  | [] => true
  | (lo, hi) :: l' =>
      forallb (fun r => (hi <=? fst r) || (snd r <=? lo)) l'
      && pairwise_disjoint l'
  end.

Definition tags_agree (st : state) (p : Z) : bool :=
  GET st (GET_HEADER p) =? GET st (GET_FOOTER st p).

Definition bytes_at (st : state) (p : Z) (n : nat) : list Z :=
  map (fun k => byte_at (heap st) (p + Z.of_nat k)) (seq 0 n).

(** ** Example states and sessions *)

(** A 4 KiB region at address 4096, initialised. *)
Definition init_state : state := fst (mm_init (fresh_region 4096 8192)).

(** The same after [mm_malloc(8)], which grows the heap by one block. *)
Definition one_block_state : state :=
  place (grown init_state 16) (mem_brk init_state + DSIZE) 16.

(** A region of 96 bytes, used up by [mm_init] and one [mm_malloc(8)]. *)
Definition full_state : state :=
  let st := fst (mm_init (fresh_region 4096 4192)) in
  place (grown st 16) (mem_brk st + DSIZE) 16.

(** Two blocks allocated, the first one released: one free block of 16
    bytes in class 0. *)
Definition freed_state : state :=
  match session 4 4096 8192 [Allocate 8; Allocate 8; Release 0] with
  | Some c => cstate c
  | None => init_state
  end.

Definition freed_lists (c : Z) : list Z := if c =? 0 then [4184] else [].

(** The blocks of [freed_state]. *)
Definition freed_blocks : list block :=
  [mkBlock 4168 MIN_BLOCK_SIZE true; mkBlock 4184 16 false;
   mkBlock 4200 16 true].


(** A resize to [SIZE_MAX] followed by a release and an allocation. *)
Definition overlap_calls : list call :=
  [Allocate 16; Allocate 8; Allocate 8; Allocate 8; Release 1;
   Store 0 8 (le4 17 ++ le4 49); Resize 0 SIZE_MAX; Release 2; Allocate 40].

(** A resize to [SIZE_MAX] right after an allocation. *)
Definition tag_calls : list call := [Allocate 16; Resize 0 SIZE_MAX].

(** A resize to [SIZE_MAX] that copies a forged link into a free block. *)
Definition align_calls : list call :=
  [Allocate 40; Allocate 8; Allocate 8; Allocate 8; Release 3; Release 1;
   Store 0 8 (le4 17 ++ le4 17); Store 0 17 (le4 56);
   Store 0 24 (le4 17 ++ le4 16 ++ le4 (4184 + 21) ++ le4 0);
   Resize 0 SIZE_MAX; Allocate 48].

(** A resize to [SIZE_MAX] that copies a link to itself into the free
    block at 4264; [loop_state] is the state the session ends in. *)
Definition loop_calls : list call :=
  [Allocate 40; Allocate 8; Allocate 8; Allocate 8; Release 3; Release 1;
   Store 0 8 (le4 17 ++ le4 17);
   Store 0 24 (le4 17 ++ le4 16 ++ le4 4264 ++ le4 0);
   Resize 0 SIZE_MAX].

Definition loop_state : state :=
  match session 4 4096 8192 loop_calls with
  | Some c => cstate c
  | None => init_state
  end.

(** A resize to [SIZE_MAX] that copies over the footer of the free block
    at 4272 (the bytes the client wrote repeat the other tags on the way),
    followed by the release of the block behind it. *)
Definition adj_calls : list call :=
  [Allocate 48; Allocate 8; Allocate 8; Allocate 8; Allocate 8;
   Release 3; Release 1;
   Store 0 8 (le4 17 ++ le4 17); Store 0 24 (le4 17 ++ le4 16);
   Store 0 44 (le4 17);
   Resize 0 SIZE_MAX; Release 4].

(** A region of 16 GiB at address 4096, initialised. *)
Definition big_state : state := fst (mm_init (fresh_region 4096 (4096 + 2 ^ 34))).

(** A block of 48 bytes that has been released, with an allocated block
    of 16 bytes behind it. *)
Definition hole_state : state :=
  match session 4 4096 8192 [Allocate 40; Allocate 8; Release 0] with
  | Some c => cstate c
  | None => init_state
  end.

Definition hole_lists (c : Z) : list Z := if c =? 0 then [4184] else [].

Definition hole_blocks : list block :=
  [mkBlock 4168 MIN_BLOCK_SIZE true; mkBlock 4184 48 false;
   mkBlock 4232 16 true].

(** An allocation of 104 bytes, filled with a pattern and resized to
    [SIZE_MAX].  The pattern repeats the tags the heap holds where the
    copy will land (17, 89, 89 and 113 at offsets 8, 12, 96 and 100) and is
    zero elsewhere. *)
Definition pattern : list Z :=
  repeat 0 8 ++ le4 17 ++ le4 89 ++ repeat 0 80 ++ le4 89 ++ le4 113.
Definition copy_calls : list call :=
  [Allocate 8; Allocate 80; Allocate 104; Release 0; Store 2 0 pattern;
   Resize 2 SIZE_MAX].

(** A session whose sizes stay clear of the top of [size_t]. *)
Definition sane_calls : list call :=
  [Allocate 16; Allocate 8; Allocate 8; Release 1;
   Store 0 8 (le4 17 ++ le4 49); Resize 0 100; Release 2; Allocate 40;
   Allocate 0; Resize 3 24].

(** [one_block_state] after [mm_free] of its block, and after
    [mm_malloc(100)]. *)
Definition released_state : state :=
  match mm_free 2 one_block_state 4184 with
  | Some st => st
  | None => one_block_state
  end.

Definition grown_state : state :=
  match mm_malloc 1 one_block_state 100 with
  | Some (st, _) => st
  | None => one_block_state
  end.
(** * Properties *)

(** ** Bit-level facts about tags *)

Lemma land_lnot7 (x : Z) : Z.land x (Z.lnot 7) = 8 * (x / 8).
Proof.
  change 7 with (Z.ones 3).
  rewrite <- Z.ldiff_land, Z.ldiff_ones_r by lia.
  rewrite Z.shiftl_mul_pow2, Z.shiftr_div_pow2 by lia.
  change (2 ^ 3) with 8. lia.
Qed.

Lemma land_one (x : Z) : Z.land x 1 = x mod 2.
Proof. change 1 with (Z.ones 1) at 1. rewrite Z.land_ones by lia. reflexivity. Qed.

Lemma PACK_add (s a : Z) : s mod 8 = 0 -> a = 0 \/ a = 1 -> PACK s a = s + a.
Proof.
  intros Hs [-> | ->]; unfold PACK.
  - rewrite Z.lor_0_r. lia.
  - assert (H : Z.land s 1 = 0)
      by (rewrite land_one; Z.div_mod_to_equations; lia).
    rewrite <- (Z.lxor_lor _ _ H). symmetry. apply Z.add_nocarry_lxor. exact H.
Qed.

Lemma size_of_tag (s a : Z) :
  s mod 8 = 0 -> a = 0 \/ a = 1 -> Z.land (s + a) (Z.lnot 7) = s.
Proof. intros Hs Ha. rewrite land_lnot7. Z.div_mod_to_equations. lia. Qed.

Lemma alloc_of_tag (s a : Z) :
  s mod 8 = 0 -> a = 0 \/ a = 1 -> Z.land (s + a) 1 = a.
Proof. intros Hs Ha. rewrite land_one. Z.div_mod_to_equations. lia. Qed.

Lemma ALIGN_spec (x : Z) : ALIGN x = 8 * (wrap64 (x + 7) / 8).
Proof. unfold ALIGN. rewrite land_lnot7. reflexivity. Qed.

(** ** Loads and stores *)

Lemma byte_at_range m a : 0 <= byte_at m a < 256.
Proof. unfold byte_at. apply Z.mod_pos_bound. lia. Qed.

Lemma load4_range m a : 0 <= load4 m a < 2 ^ 32.
Proof.
  unfold load4.
  pose proof (byte_at_range m a). pose proof (byte_at_range m (a + 1)).
  pose proof (byte_at_range m (a + 2)). pose proof (byte_at_range m (a + 3)).
  change (2 ^ 8) with 256. change (2 ^ 16) with 65536.
  change (2 ^ 24) with 16777216. change (2 ^ 32) with 4294967296. lia.
Qed.

Lemma load8_range m a : 0 <= load8 m a < 2 ^ 64.
Proof.
  unfold load8.
  pose proof (load4_range m a). pose proof (load4_range m (a + 4)).
  change (2 ^ 32) with 4294967296 in *.
  change (2 ^ 64) with 18446744073709551616. lia.
Qed.

Lemma byte_at_store_in n m a v x :
  a <= x < a + n ->
  byte_at (store_le n m a v) x = (v / 2 ^ (8 * (x - a))) mod 256.
Proof.
  intros H. unfold byte_at, store_le.
  replace ((a <=? x) && (x <? a + n)) with true
    by (symmetry; apply andb_true_intro; split;
        [apply Z.leb_le | apply Z.ltb_lt]; lia).
  apply Z.mod_mod. lia.
Qed.

Lemma byte_at_store_out n m a v x :
  x < a \/ a + n <= x -> byte_at (store_le n m a v) x = byte_at m x.
Proof.
  intros H. unfold byte_at, store_le.
  destruct (a <=? x) eqn:E1; destruct (x <? a + n) eqn:E2; simpl;
    try reflexivity.
  apply Z.leb_le in E1. apply Z.ltb_lt in E2. lia.
Qed.

Lemma load4_store4_same m a v : load4 (store4 m a v) a = v mod 2 ^ 32.
Proof.
  unfold load4, store4.
  rewrite !byte_at_store_in by lia.
  replace (a - a) with 0 by lia. replace (a + 1 - a) with 1 by lia.
  replace (a + 2 - a) with 2 by lia. replace (a + 3 - a) with 3 by lia.
  change (2 ^ (8 * 0)) with 1. change (2 ^ (8 * 1)) with 256.
  change (2 ^ (8 * 2)) with 65536. change (2 ^ (8 * 3)) with 16777216.
  change (2 ^ 8) with 256. change (2 ^ 16) with 65536.
  change (2 ^ 24) with 16777216. change (2 ^ 32) with 4294967296.
  Z.div_mod_to_equations. lia.
Qed.

Lemma load8_store8_same m a v : load8 (store8 m a v) a = v mod 2 ^ 64.
Proof.
  unfold load8, load4, store8.
  rewrite !byte_at_store_in by lia.
  replace (a - a) with 0 by lia. replace (a + 1 - a) with 1 by lia.
  replace (a + 2 - a) with 2 by lia. replace (a + 3 - a) with 3 by lia.
  replace (a + 4 - a) with 4 by lia. replace (a + 4 + 1 - a) with 5 by lia.
  replace (a + 4 + 2 - a) with 6 by lia. replace (a + 4 + 3 - a) with 7 by lia.
  change (2 ^ (8 * 0)) with 1. change (2 ^ (8 * 1)) with 256.
  change (2 ^ (8 * 2)) with 65536. change (2 ^ (8 * 3)) with 16777216.
  change (2 ^ (8 * 4)) with 4294967296.
  change (2 ^ (8 * 5)) with 1099511627776.
  change (2 ^ (8 * 6)) with 281474976710656.
  change (2 ^ (8 * 7)) with 72057594037927936.
  change (2 ^ 8) with 256. change (2 ^ 16) with 65536.
  change (2 ^ 24) with 16777216. change (2 ^ 32) with 4294967296.
  change (2 ^ 64) with 18446744073709551616.
  Z.div_mod_to_equations. lia.
Qed.

Lemma load4_store_other n m a v b :
  b + 4 <= a \/ a + n <= b -> load4 (store_le n m a v) b = load4 m b.
Proof.
  intros H. unfold load4. rewrite !byte_at_store_out by lia. reflexivity.
Qed.

Lemma load8_store_other n m a v b :
  b + 8 <= a \/ a + n <= b -> load8 (store_le n m a v) b = load8 m b.
Proof.
  intros H. unfold load8. rewrite !load4_store_other by lia. reflexivity.
Qed.

Lemma byte_at_copy_in m dst src n x :
  dst <= x < dst + n ->
  byte_at (copy_bytes m dst src n) x = byte_at m (src + (x - dst)).
Proof.
  intros H. unfold byte_at, copy_bytes.
  replace ((dst <=? x) && (x <? dst + n)) with true
    by (symmetry; apply andb_true_intro; split;
        [apply Z.leb_le | apply Z.ltb_lt]; lia).
  reflexivity.
Qed.

Lemma byte_at_copy_out m dst src n x :
  x < dst \/ dst + n <= x -> byte_at (copy_bytes m dst src n) x = byte_at m x.
Proof.
  intros H. unfold byte_at, copy_bytes.
  destruct (dst <=? x) eqn:E1; destruct (x <? dst + n) eqn:E2; simpl;
    try reflexivity.
  apply Z.leb_le in E1. apply Z.ltb_lt in E2. lia.
Qed.

Lemma load4_copy_other m dst src n b :
  b + 4 <= dst \/ dst + n <= b -> load4 (copy_bytes m dst src n) b = load4 m b.
Proof.
  intros H. unfold load4. rewrite !byte_at_copy_out by lia. reflexivity.
Qed.

Lemma load8_copy_other m dst src n b :
  b + 8 <= dst \/ dst + n <= b -> load8 (copy_bytes m dst src n) b = load8 m b.
Proof.
  intros H. unfold load8. rewrite !load4_copy_other by lia. reflexivity.
Qed.

(** ** The fit finder *)

Lemma find_app {A} (f : A -> bool) (l1 l2 : list A) :
  find f (l1 ++ l2) =
  match find f l1 with Some x => Some x | None => find f l2 end.
Proof.
  induction l1 as [|x l1 IH]; simpl; [reflexivity|].
  destruct (f x); [reflexivity | exact IH].
Qed.

Lemma find_all_false {A} (f : A -> bool) (l : list A) :
  (forall x, In x l -> f x = false) -> find f l = None.
Proof.
  induction l as [|x l IH]; simpl; intros H; [reflexivity|].
  rewrite (H x) by (left; reflexivity). apply IH. intros y Hy. apply H. now right.
Qed.

Lemma GET_SIZE_range st p : 0 <= GET_SIZE st p < 2 ^ 32.
Proof.
  unfold GET_SIZE, GET. rewrite land_lnot7.
  pose proof (load4_range (heap st) p) as H.
  change (2 ^ 32) with 4294967296 in *. Z.div_mod_to_equations. lia.
Qed.

Lemma GET_SIZE_mod8 st p : GET_SIZE st p mod 8 = 0.
Proof.
  unfold GET_SIZE. rewrite land_lnot7. rewrite Z.mul_comm. apply Z.mod_mul. lia.
Qed.

Lemma fits_too_big st size j : 2 ^ 32 <= size -> fits st size j = false.
Proof.
  intros H. unfold fits. pose proof (GET_SIZE_range st (GET_HEADER j)).
  replace (size <=? GET_SIZE st (GET_HEADER j)) with false
    by (symmetry; apply Z.leb_gt; lia).
  apply andb_false_r.
Qed.

(** The inner loop returns the first fitting member of the list it walks. *)
Lemma fit_in_list_walk st size j l :
  walk st j l ->
  forall fuel, (length l < fuel)%nat ->
  fit_in_list fuel st size j = Some (find (fits st size) l).
Proof.
  induction 1 as [j Hend | j l Hin Hw IH]; intros fuel Hf.
  - destruct fuel as [|fuel]; [inversion Hf|]. simpl. rewrite Hend. reflexivity.
  - destruct fuel as [|fuel]; [inversion Hf|]. simpl in Hf |- *. rewrite Hin.
    unfold fits at 1.
    destruct ((GET_ALLOC st (GET_HEADER j) =? 0)
              && (size <=? GET_SIZE st (GET_HEADER j))); [reflexivity|].
    apply IH. lia.
Qed.


(** The outer loop, in terms of the lists of the classes it visits. *)
Lemma fit_from_walks st size lists fuel :
  forall (n : nat) (i : Z),
  (forall k, (k < n)%nat ->
     walk st (class_head st (i + Z.of_nat k)) (lists (i + Z.of_nat k))
     /\ (length (lists (i + Z.of_nat k)%Z) < fuel)%nat) ->
  fit_from n fuel st size i =
  Some (match find (fits st size)
                   (flat_map lists (map (fun k => i + Z.of_nat k) (seq 0 n))) with
        | Some j => j
        | None => NULL
        end).
Proof.
  induction n as [|n IH]; intros i H; [reflexivity|].
  cbn [fit_from seq map flat_map].
  destruct (H 0%nat ltac:(lia)) as [Hw Hlen].
  replace (i + Z.of_nat 0) with i in * by lia.
  unfold class_head in Hw.
  rewrite (fit_in_list_walk st size _ _ Hw fuel Hlen), find_app.
  destruct (find (fits st size) (lists i)) as [j|]; [reflexivity|].
  rewrite <- seq_shift, map_map.
  replace (map (fun x : nat => i + Z.of_nat (S x)) (seq 0 n))
    with (map (fun k : nat => i + 1 + Z.of_nat k) (seq 0 n))
    by (apply map_ext; intros k; lia).
  apply IH.
  intros k Hk. specialize (H (S k) ltac:(lia)).
    replace (i + 1 + Z.of_nat k) with (i + Z.of_nat (S k)) by lia. exact H.
Qed.

Lemma to_int_small x : 0 <= x < 2 ^ 31 -> to_int x = x.
Proof.
  intros H. unfold to_int. rewrite Z.mod_small; lia.
Qed.

Lemma get_size_class_range size : 0 <= get_size_class size < SEG_LIST_COUNT.
Proof.
  unfold get_size_class, SEG_LIST_COUNT.
  destruct (to_int (size / 64) >=? 8) eqn:E1; [lia|].
  destruct (to_int (size / 64) <? 0) eqn:E2; [lia|].
  rewrite Z.geb_leb in E1. apply Z.leb_gt in E1. apply Z.ltb_ge in E2. lia.
Qed.

(** Below [2^37] the class is the one the specification names. *)
Lemma get_size_class_spec size :
  0 <= size < 2 ^ 37 -> get_size_class size = spec_start_class size.
Proof.
  intros H. unfold get_size_class, spec_start_class, SEG_LIST_COUNT.
  assert (0 <= size / 64 < 2 ^ 31).
  { change (2 ^ 37) with (64 * 2 ^ 31) in H. split.
    - apply Z.div_pos; lia.
    - apply Z.div_lt_upper_bound; lia. }
  rewrite to_int_small by assumption.
  destruct (size / 64 >=? 8) eqn:E1.
  - rewrite Z.geb_leb in E1. apply Z.leb_le in E1. lia.
  - rewrite Z.geb_leb in E1. apply Z.leb_gt in E1.
    destruct (size / 64 <? 0) eqn:E2; [apply Z.ltb_lt in E2|]; lia.
Qed.

Lemma classes_from_In c x :
  0 <= c -> In x (classes_from c) -> c <= x < SEG_LIST_COUNT.
Proof.
  unfold classes_from. intros Hc Hin. apply in_map_iff in Hin.
  destruct Hin as (k & <- & Hk). apply in_seq in Hk. lia.
Qed.

Lemma length_flat_map_ge {A B} (f : A -> list B) (l : list A) (x : A) :
  In x l -> (length (f x) <= length (flat_map f l))%nat.
Proof.
  induction l as [|y l IH]; simpl; intros H; [contradiction|].
  rewrite length_app. destruct H as [-> | H]; [lia|]. specialize (IH H). lia.
Qed.

Lemma classes_from_0_In x : 0 <= x < SEG_LIST_COUNT -> In x (classes_from 0).
Proof.
  intros H. unfold classes_from. apply in_map_iff.
  exists (Z.to_nat x). split; [lia|]. apply in_seq.
  unfold SEG_LIST_COUNT in *. lia.
Qed.

(** [get_fit] with enough fuel for every class list. *)
Lemma get_fit_walks st lists size fuel :
  0 <= size < 2 ^ 64 ->
  (forall c, 0 <= c < SEG_LIST_COUNT ->
     walk st (class_head st c) (lists c) /\ (length (lists c) < fuel)%nat) ->
  get_fit fuel st size = Some (spec_fit st lists size).
Proof.
  intros Hsize Hwalk. unfold get_fit, spec_fit.
  pose proof (get_size_class_range size) as Hc.
  rewrite (fit_from_walks st size lists fuel).
  - destruct (Z.lt_ge_cases size (2 ^ 37)) as [Hs | Hs].
    + rewrite get_size_class_spec by lia. reflexivity.
    + rewrite !find_all_false; [reflexivity | |];
        intros x _; apply fits_too_big; lia.
  - intros k Hk. apply Hwalk. lia.
Qed.


(** ** Tags through [GET] and [PUT] *)

Lemma GET_PUT_same st a v : GET (PUT st a v) a = v mod 2 ^ 32.
Proof. unfold GET, PUT. simpl. apply load4_store4_same. Qed.

Lemma GET_PUT_other st a v b :
  b + 4 <= a \/ a + 4 <= b -> GET (PUT st a v) b = GET st b.
Proof. intros H. unfold GET, PUT. simpl. apply load4_store_other. exact H. Qed.

Lemma GET_SIZE_of_tag st p s a :
  GET st p = s + a -> s mod 8 = 0 -> a = 0 \/ a = 1 -> GET_SIZE st p = s.
Proof. intros H Hs Ha. unfold GET_SIZE. rewrite H. now apply size_of_tag. Qed.

Lemma GET_ALLOC_of_tag st p s a :
  GET st p = s + a -> s mod 8 = 0 -> a = 0 \/ a = 1 -> GET_ALLOC st p = a.
Proof. intros H Hs Ha. unfold GET_ALLOC. rewrite H. now apply alloc_of_tag. Qed.

(** Writing a tag: what the header then reads. *)
Lemma GET_PUT_tag st p s a :
  0 <= s < 2 ^ 32 -> s mod 8 = 0 -> a = 0 \/ a = 1 ->
  GET (PUT st p (PACK s a)) p = s + a.
Proof.
  intros Hr Hs Ha. rewrite GET_PUT_same, PACK_add by assumption.
  apply Z.mod_small.
  change (2 ^ 32) with 4294967296 in *. Z.div_mod_to_equations. lia.
Qed.

(** ** The block size of a request *)

Lemma ALIGN_16 : ALIGN 16 = 16.
Proof. reflexivity. Qed.

Lemma block_size_of_range size :
  0 <= size < 2 ^ 64 ->
  MIN_BLOCK_SIZE <= block_size_of size < 2 ^ 64 /\ block_size_of size mod 8 = 0.
Proof.
  intros H. unfold block_size_of, MIN_BLOCK_SIZE, DSIZE.
  assert (E : wrap64 (wrap64 (size + 2 * 8) - size) = 16).
  { unfold wrap64. change (2 ^ 64) with 18446744073709551616 in *.
    Z.div_mod_to_equations. lia. }
  rewrite E, ALIGN_16.
  destruct (ALIGN (wrap64 (size + 8)) <? 2 * 8) eqn:E1.
  - split; [lia | reflexivity].
  - apply Z.ltb_ge in E1. rewrite ALIGN_spec in *. unfold wrap64 in *.
    change (2 ^ 64) with 18446744073709551616 in *.
    split; [|rewrite Z.mul_comm; apply Z.mod_mul; lia].
    Z.div_mod_to_equations. lia.
Qed.

(** Away from the top of [size_t] the block size is the request plus the
    tags, rounded up to a multiple of 8. *)
Lemma block_size_of_sane size :
  0 < size <= 2 ^ 64 - 16 -> block_size_of size = 8 * ((size + 15) / 8).
Proof.
  intros H. unfold block_size_of, MIN_BLOCK_SIZE, DSIZE.
  rewrite !ALIGN_spec. unfold wrap64.
  change (2 ^ 64) with 18446744073709551616 in *.
  rewrite (Z.mod_small (size + 8)) by lia.
  rewrite (Z.mod_small (size + 8 + 7)) by lia.
  replace (size + 8 + 7) with (size + 15) by lia.
  destruct (8 * ((size + 15) / 8) <? 2 * 8) eqn:E; [|reflexivity].
  apply Z.ltb_lt in E. Z.div_mod_to_equations. lia.
Qed.

(** ** What [get_fit] can return *)

Lemma fit_in_list_found fuel st size :
  forall j r, fit_in_list fuel st size j = Some (Some r) ->
  r <> NULL /\ INSIDE_HEAP st r = true /\ fits st size r = true.
Proof.
  induction fuel as [|fuel IH]; intros j r H; cbn [fit_in_list] in H;
    [discriminate|].
  destruct (INSIDE_HEAP st j && negb (j =? 0)) eqn:E; [|discriminate].
  fold (fits st size j) in H.
  destruct (fits st size j) eqn:F.
  - injection H as <-. apply andb_true_iff in E. destruct E as [E1 E2].
    apply negb_true_iff, Z.eqb_neq in E2. unfold NULL. auto.
  - eapply IH. exact H.
Qed.

Lemma fit_from_found n fuel st size :
  forall i r, fit_from n fuel st size i = Some r -> r <> NULL ->
  INSIDE_HEAP st r = true /\ fits st size r = true.
Proof.
  induction n as [|n IH]; intros i r H Hr; cbn [fit_from] in H.
  - injection H as <-. contradiction.
  - destruct (fit_in_list fuel st size (GET_PTR_ADDR st (seg_lists st + 8 * i)))
      as [[j|]|] eqn:E; try discriminate.
    + injection H as <-. apply fit_in_list_found in E. tauto.
    + eapply IH; eassumption.
Qed.

Lemma get_fit_found fuel st size r :
  get_fit fuel st size = Some r -> r <> NULL ->
  INSIDE_HEAP st r = true /\ fits st size r = true.
Proof. unfold get_fit. apply fit_from_found. Qed.

(** ** Growing the heap *)

Lemma mem_sbrk_fail st incr :
  mem_max_addr st < mem_brk st + incr -> mem_sbrk st incr = (st, SBRK_FAIL).
Proof.
  intros H. unfold mem_sbrk.
  replace (mem_max_addr st <? mem_brk st + incr) with true
    by (symmetry; apply Z.ltb_lt; lia).
  reflexivity.
Qed.

Lemma mem_sbrk_grow st incr :
  mem_brk st + incr <= mem_max_addr st ->
  mem_sbrk st incr = (set_brk st (mem_brk st + incr), mem_brk st).
Proof.
  intros H. unfold mem_sbrk.
  replace (mem_max_addr st <? mem_brk st + incr) with false
    by (symmetry; apply Z.ltb_ge; lia).
  reflexivity.
Qed.

Lemma grow_heap_fail st size :
  mem_max_addr st < mem_brk st + size -> grow_heap st size = (st, NULL).
Proof.
  intros H. unfold grow_heap. destruct (size =? 0); [reflexivity|].
  rewrite mem_sbrk_fail by assumption. reflexivity.
Qed.

Lemma grow_heap_grow st size :
  provider_ok st -> 0 < size -> mem_brk st + size <= mem_max_addr st ->
  grow_heap st size = (grown st size, mem_brk st + DSIZE).
Proof.
  intros [Hb Hm] Hs H. unfold grow_heap.
  replace (size =? 0) with false by (symmetry; apply Z.eqb_neq; lia).
  rewrite mem_sbrk_grow by assumption.
  replace (mem_brk st =? SBRK_FAIL) with false; [reflexivity|].
  symmetry. apply Z.eqb_neq. unfold SBRK_FAIL. lia.
Qed.

(** ** A failed allocation changes nothing *)

Lemma mm_malloc_null_unchanged fuel st size st1 :
  provider_ok st -> 0 < size < 2 ^ 64 ->
  mm_malloc fuel st size = Some (st1, NULL) -> st1 = st.
Proof.
  intros Hp Hsize H. unfold mm_malloc in H.
  replace (size =? 0) with false in H by (symmetry; apply Z.eqb_neq; lia).
  destruct (get_fit fuel st (block_size_of size)) as [fit|]; [|discriminate].
  destruct (fit =? NULL) eqn:E; simpl in H.
  - pose proof (block_size_of_range size ltac:(lia)) as [Hb _].
    unfold MIN_BLOCK_SIZE, DSIZE in Hb.
    destruct (Z.lt_ge_cases (mem_max_addr st) (mem_brk st + block_size_of size))
      as [Hf | Hg].
    + rewrite grow_heap_fail in H by assumption. simpl in H. congruence.
    + rewrite grow_heap_grow in H by (try assumption; lia).
      destruct Hp as [Hp _]. unfold DSIZE, NULL in H.
      replace (mem_brk st + 8 =? 0) with false in H
        by (symmetry; apply Z.eqb_neq; lia).
      simpl in H. injection H as _ H. lia.
  - apply Z.eqb_neq in E.
    destruct (if MIN_BLOCK_SIZE <=? _ then _ else _); [|discriminate].
    injection H as _ H. contradiction.
Qed.

Lemma mm_realloc_null st fuel ptr size :
  ptr <> NULL -> size <> 0 ->
  mm_realloc fuel st ptr size =
  match mm_malloc fuel st size with
  | None => None
  | Some (st1, new_ptr) =>
      if new_ptr =? NULL then Some (st1, NULL)
      else
        let copySize := wrap32 (GET_SIZE st1 (GET_HEADER ptr) - DSIZE) in
        let copySize := if size <? copySize then size else copySize in
        let st2 := set_heap st1 (copy_bytes (heap st1) new_ptr ptr copySize) in
        match mm_free fuel st2 ptr with
        | None => None
        | Some st3 => Some (set_mem_bp st3 (mem_heap_hi st3), new_ptr)
        end
  end.
Proof.
  intros Hptr Hsize. unfold mm_realloc.
  replace (ptr =? NULL) with false by (symmetry; apply Z.eqb_neq; exact Hptr).
  replace (size =? 0) with false by (symmetry; apply Z.eqb_neq; exact Hsize).
  reflexivity.
Qed.

(** For a null [ptr], [mm_realloc] is [mm_malloc]; for a zero [size] it is
    [mm_free] and returns [NULL] (also when [ptr] is null, where both do
    nothing). *)
Theorem resize_degenerate_cases fuel st ptr size :
  mm_realloc fuel st NULL size = mm_malloc fuel st size
  /\ mm_realloc fuel st ptr 0
     = option_map (fun st' => (st', NULL)) (mm_free fuel st ptr).
Proof.
  split; [reflexivity|]. unfold mm_realloc, mm_free.
  destruct (ptr =? NULL); [reflexivity|]. change (0 =? 0) with true. cbv iota.
  destruct (coalesce fuel st ptr (GET_SIZE st (GET_HEADER ptr))); reflexivity.
Qed.

(** C10: when the allocation inside [mm_realloc] fails (non-null [ptr],
    non-zero [size]), [mm_realloc] returns [NULL] and the allocator state
    is the state it started from: tags, payloads, index and bounds are
    all untouched and the old block is not released. *)
Theorem resize_failure_atomic fuel st ptr size st1 :
  provider_ok st -> ptr <> NULL -> 0 < size < 2 ^ 64 ->
  mm_malloc fuel st size = Some (st1, NULL) ->
  mm_realloc fuel st ptr size = Some (st, NULL) /\ st1 = st.
Proof.
  intros Hp Hptr Hsize H.
  pose proof (mm_malloc_null_unchanged _ _ _ _ Hp Hsize H) as ->.
  split; [|reflexivity]. rewrite mm_realloc_null by (try assumption; lia).
  rewrite H. reflexivity.
Qed.

(** ** Writing both tags of a block *)

Lemma load4_write_tags_header m p s a :
  0 <= s < 2 ^ 32 -> s mod 8 = 0 -> a = 0 \/ a = 1 -> 8 <= s ->
  load4 (write_tags m p s a) (p - 4) = s + a.
Proof.
  intros Hr Hs Ha Hm. unfold write_tags, store4.
  rewrite load4_store_other by lia. fold store4.
  rewrite load4_store4_same. apply Z.mod_small.
  change (2 ^ 32) with 4294967296 in *. Z.div_mod_to_equations. lia.
Qed.

Lemma load4_write_tags_footer m p s a :
  0 <= s < 2 ^ 32 -> s mod 8 = 0 -> a = 0 \/ a = 1 ->
  load4 (write_tags m p s a) (p + s - 8) = s + a.
Proof.
  intros Hr Hs Ha. unfold write_tags.
  rewrite load4_store4_same. apply Z.mod_small.
  change (2 ^ 32) with 4294967296 in *. Z.div_mod_to_equations. lia.
Qed.

Lemma load4_write_tags_other m p s a b :
  (b + 4 <= p - 4 \/ p <= b) -> (b + 4 <= p + s - 8 \/ p + s - 4 <= b) ->
  load4 (write_tags m p s a) b = load4 m b.
Proof.
  intros H1 H2. unfold write_tags, store4.
  rewrite !load4_store_other by lia. reflexivity.
Qed.

Lemma load8_write_tags_other m p s a b :
  (b + 8 <= p - 4 \/ p <= b) -> (b + 8 <= p + s - 8 \/ p + s - 4 <= b) ->
  load8 (write_tags m p s a) b = load8 m b.
Proof.
  intros H1 H2. unfold write_tags, store4.
  rewrite !load8_store_other by lia. reflexivity.
Qed.

(** The two [PUT]s that every tag-writing path of the source performs:
    the header, then the footer found through the header just written. *)
Lemma PUT_tags st p s a :
  0 <= s < 2 ^ 32 -> s mod 8 = 0 -> a = 0 \/ a = 1 ->
  PUT (PUT st (GET_HEADER p) (PACK s a))
      (GET_FOOTER (PUT st (GET_HEADER p) (PACK s a)) p) (PACK s a)
  = set_heap st (write_tags (heap st) p s a).
Proof.
  intros Hr Hs Ha. unfold GET_FOOTER.
  rewrite (GET_SIZE_of_tag _ _ s a) by (try assumption; now apply GET_PUT_tag).
  rewrite PACK_add by assumption.
  unfold PUT, set_heap, write_tags, GET_HEADER, WSIZE, DSIZE. simpl.
  reflexivity.
Qed.

Lemma place_tags st p s :
  p <> NULL -> 0 < s < 2 ^ 32 -> s mod 8 = 0 ->
  place st p s = set_heap st (write_tags (heap st) p s 1).
Proof.
  intros Hp Hr Hs. unfold place.
  replace (p =? NULL) with false by (symmetry; apply Z.eqb_neq; exact Hp).
  replace (s =? 0) with false by (symmetry; apply Z.eqb_neq; lia).
  simpl. apply PUT_tags; auto; lia.
Qed.

Lemma grown_tags st s :
  0 <= s < 2 ^ 32 -> s mod 8 = 0 ->
  grown st s =
  mkState (write_tags (heap st) (mem_brk st + DSIZE) s 0) (mem_brk st + s)
          (mem_max_addr st) (seg_lists st) (mem_hp st) (mem_brk st + s - 1).
Proof.
  intros Hr Hs. unfold grown. cbv zeta.
  rewrite PUT_tags by auto. reflexivity.
Qed.

(** The same two [PUT]s for an arbitrary tag word [v]: a tag keeps the low
    32 bits of [v], and the footer is found through the size field of the
    header just written. *)
Lemma PUT_pair st p v :
  let s' := Z.land (v mod 2 ^ 32) (Z.lnot 7) in
  let st1 := PUT st (GET_HEADER p) v in
  let st2 := PUT st1 (GET_FOOTER st1 p) v in
  GET_FOOTER st1 p = p + s' - DSIZE
  /\ GET_FOOTER st2 p = p + s' - DSIZE
  /\ GET st2 (GET_HEADER p) = v mod 2 ^ 32
  /\ GET st2 (GET_FOOTER st2 p) = v mod 2 ^ 32
  /\ st2 = set_heap st (store4 (store4 (heap st) (p - 4) v) (p + s' - 8) v).
Proof.
  intros s' st1 st2.
  assert (H1 : GET st1 (GET_HEADER p) = v mod 2 ^ 32) by apply GET_PUT_same.
  assert (Hs1 : GET_SIZE st1 (GET_HEADER p) = s') by (unfold GET_SIZE; rewrite H1; reflexivity).
  assert (Hf1 : GET_FOOTER st1 p = p + s' - DSIZE)
    by (unfold GET_FOOTER; rewrite Hs1; reflexivity).
  assert (Hr : 0 <= s' /\ s' mod 8 = 0).
  { rewrite <- Hs1. split; [apply GET_SIZE_range | apply GET_SIZE_mod8]. }
  assert (Hapart : GET_HEADER p + 4 <= p + s' - DSIZE \/ p + s' - DSIZE + 4 <= GET_HEADER p).
  { unfold GET_HEADER, WSIZE, DSIZE. destruct Hr as [Hr0 Hr8].
    Z.div_mod_to_equations. lia. }
  assert (H2 : GET st2 (GET_HEADER p) = v mod 2 ^ 32).
  { unfold st2. rewrite Hf1, GET_PUT_other by exact Hapart. exact H1. }
  assert (Hf2 : GET_FOOTER st2 p = p + s' - DSIZE).
  { unfold GET_FOOTER, GET_SIZE. rewrite H2. reflexivity. }
  split; [exact Hf1|]. split; [exact Hf2|]. split; [exact H2|]. split.
  - rewrite Hf2. unfold st2. rewrite Hf1. apply GET_PUT_same.
  - unfold st2. rewrite Hf1. unfold st1, PUT, set_heap, GET_HEADER, WSIZE, DSIZE.
    simpl. reflexivity.
Qed.

(** The fields of a tag word that holds a size beyond 32 bits. *)
Lemma tag_fields s a :
  0 <= s -> s mod 8 = 0 -> a = 0 \/ a = 1 ->
  PACK s a mod 2 ^ 32 = s mod 2 ^ 32 + a
  /\ Z.land (PACK s a mod 2 ^ 32) (Z.lnot 7) = s mod 2 ^ 32
  /\ Z.land (PACK s a mod 2 ^ 32) 1 = a.
Proof.
  intros Hs H8 Ha.
  assert (E : PACK s a mod 2 ^ 32 = s mod 2 ^ 32 + a).
  { rewrite PACK_add by assumption.
    change (2 ^ 32) with 4294967296. Z.div_mod_to_equations. lia. }
  assert (Hm8 : (s mod 2 ^ 32) mod 8 = 0).
  { change (2 ^ 32) with 4294967296. Z.div_mod_to_equations. lia. }
  rewrite E. split; [reflexivity|].
  split; [apply size_of_tag | apply alloc_of_tag]; assumption.
Qed.

(** [mm_malloc] when the index offers no candidate and the provider has
    room, for any computed block size. *)
Lemma malloc_grow_eq fuel st size :
  provider_ok st -> size <> 0 ->
  get_fit fuel st (block_size_of size) = Some NULL ->
  0 < block_size_of size ->
  mem_brk st + block_size_of size <= mem_max_addr st ->
  mm_malloc fuel st size
  = Some (place (grown st (block_size_of size)) (mem_brk st + DSIZE)
            (block_size_of size), mem_brk st + DSIZE).
Proof.
  intros Hp Hsize Hfit Hpos Hroom. unfold mm_malloc.
  replace (size =? 0) with false by (symmetry; apply Z.eqb_neq; exact Hsize).
  cbv zeta. rewrite Hfit, grow_heap_grow by assumption.
  replace (mem_brk st + DSIZE =? NULL) with false; [reflexivity|].
  symmetry. apply Z.eqb_neq. destruct Hp. unfold DSIZE, NULL. lia.
Qed.

(** C7, as the code has it: when the index offers no candidate,
    [mm_malloc] asks the region provider for exactly the computed block
    size (the break advances by that much, not by a larger chunk) and
    returns the pointer to the payload of the block at the old break,
    tagged allocated.  A tag is four bytes wide: the size its header and
    footer carry is the computed block size modulo [2^32], hence exactly
    that size when it is below [2^32], and the footer then lies at the new
    break.  When the provider cannot grow by that much, [mm_malloc]
    returns [NULL] and changes nothing. *)
Theorem malloc_grows_exactly fuel st size :
  provider_ok st -> 0 < size < 2 ^ 64 ->
  get_fit fuel st (block_size_of size) = Some NULL ->
  let block_size := block_size_of size in
  let p := mem_brk st + DSIZE in
  (mem_brk st + block_size <= mem_max_addr st ->
   exists st',
     mm_malloc fuel st size = Some (st', p)
     /\ p <> NULL
     /\ mem_brk st' = mem_brk st + block_size
     /\ GET st' (GET_HEADER p) = PACK block_size 1 mod 2 ^ 32
     /\ GET st' (GET_FOOTER st' p) = PACK block_size 1 mod 2 ^ 32
     /\ GET_SIZE st' (GET_HEADER p) = block_size mod 2 ^ 32
     /\ GET_ALLOC st' (GET_HEADER p) = 1
     /\ (block_size < 2 ^ 32 ->
         GET st' (GET_HEADER p) = PACK block_size 1
         /\ GET st' (GET_FOOTER st' p) = PACK block_size 1
         /\ GET_SIZE st' (GET_HEADER p) = block_size
         /\ GET_FOOTER st' p = mem_brk st'))
  /\ (mem_max_addr st < mem_brk st + block_size ->
      mm_malloc fuel st size = Some (st, NULL)).
Proof.
  intros Hp Hsize Hfit block_size p.
  pose proof (block_size_of_range size ltac:(lia)) as [Hb Hm8].
  fold block_size in Hb, Hm8. unfold MIN_BLOCK_SIZE, DSIZE in Hb.
  split; intros Hroom.
  - assert (Hp0 : p <> NULL) by (destruct Hp; unfold p, DSIZE, NULL; lia).
    pose proof (malloc_grow_eq fuel st size Hp ltac:(lia) Hfit ltac:(fold block_size; lia)
                  Hroom) as Hmalloc.
    fold block_size p in Hmalloc.
    assert (Hplace : place (grown st block_size) p block_size
                     = PUT (PUT (grown st block_size) (GET_HEADER p) (PACK block_size 1))
                         (GET_FOOTER (PUT (grown st block_size) (GET_HEADER p)
                                        (PACK block_size 1)) p)
                         (PACK block_size 1)).
    { unfold place.
      replace (p =? NULL) with false by (symmetry; apply Z.eqb_neq; exact Hp0).
      replace (block_size =? 0) with false by (symmetry; apply Z.eqb_neq; lia).
      reflexivity. }
    destruct (PUT_pair (grown st block_size) p (PACK block_size 1))
      as (_ & Hf2 & Hh & Hft & Hst).
    rewrite <- Hplace in Hf2, Hh, Hft, Hst.
    destruct (tag_fields block_size 1 ltac:(lia) Hm8 ltac:(auto))
      as (Etag & Esz & Eal).
    set (st' := place (grown st block_size) p block_size) in *.
    assert (Hsz : GET_SIZE st' (GET_HEADER p) = block_size mod 2 ^ 32)
      by (unfold GET_SIZE; rewrite Hh; exact Esz).
    assert (Hbrk : mem_brk st' = mem_brk st + block_size)
      by (rewrite Hst; reflexivity).
    exists st'. split; [exact Hmalloc|]. split; [exact Hp0|].
    split; [exact Hbrk|]. split; [exact Hh|]. split; [exact Hft|].
    split; [exact Hsz|].
    split; [unfold GET_ALLOC; rewrite Hh; exact Eal|].
    intros Hlt.
    assert (Esmall : block_size mod 2 ^ 32 = block_size)
      by (apply Z.mod_small; lia).
    assert (Ep : PACK block_size 1 mod 2 ^ 32 = PACK block_size 1).
    { rewrite Etag, Esmall. symmetry. apply PACK_add; auto. }
    rewrite Hft, Hh, Ep, Hsz, Esmall.
    split; [reflexivity|]. split; [reflexivity|]. split; [reflexivity|].
    rewrite Hf2, Esz, Esmall, Hbrk. unfold p, DSIZE. lia.
  - unfold mm_malloc.
    replace (size =? 0) with false by (symmetry; apply Z.eqb_neq; lia).
    cbv zeta. fold block_size. unfold block_size at 1. rewrite Hfit.
    cbn [negb Z.eqb NULL]. rewrite grow_heap_fail by assumption. reflexivity.
Qed.

(** ** Tilings *)

Lemma tiles_app p l1 l2 e :
  tiles p (l1 ++ l2) e <-> exists mid, tiles p l1 mid /\ tiles mid l2 e.
Proof.
  revert p. induction l1 as [|b l1 IH]; intros p; simpl.
  - split.
    + intros H. exists p. split; [reflexivity | exact H].
    + intros (mid & -> & H). exact H.
  - rewrite IH. split.
    + intros (A & B & C & mid & D & E). exists mid. tauto.
    + intros (mid & (A & B & C & D) & E). repeat split; try assumption.
      exists mid. tauto.
Qed.

Lemma tiles_le p bs e : tiles p bs e -> p <= e.
Proof.
  revert p. induction bs as [|b bs IH]; simpl; intros p H.
  - lia.
  - destruct H as (A & B & C & D). apply IH in D. unfold MIN_BLOCK_SIZE, DSIZE in B. lia.
Qed.

Lemma tiles_In p bs e b :
  tiles p bs e -> In b bs ->
  p <= bptr b /\ bptr b + bsize b <= e /\ 16 <= bsize b /\ bsize b mod 8 = 0.
Proof.
  revert p. induction bs as [|b0 bs IH]; simpl; intros p H Hin; [contradiction|].
  destruct H as (A & B & C & D). unfold MIN_BLOCK_SIZE, DSIZE in B.
  destruct Hin as [-> | Hin].
  - apply tiles_le in D. repeat split; try assumption; lia.
  - destruct (IH _ D Hin) as (X & Y & Z & W). repeat split; try assumption; lia.
Qed.

Lemma tiles_split p bs e b :
  tiles p bs e -> In b bs ->
  exists l1 l2, bs = l1 ++ b :: l2
    /\ tiles p l1 (bptr b) /\ tiles (bptr b + bsize b) l2 e.
Proof.
  intros H Hin. destruct (in_split _ _ Hin) as (l1 & l2 & ->).
  exists l1, l2. split; [reflexivity|].
  apply tiles_app in H. destruct H as (mid & H1 & H2). simpl in H2.
  destruct H2 as (A & B & C & D). subst mid. split; assumption.
Qed.

(** Two blocks of a tiling are the same block or lie apart. *)
Lemma tiles_sep p bs e b1 b2 :
  tiles p bs e -> In b1 bs -> In b2 bs ->
  b1 = b2 \/ bptr b1 + bsize b1 <= bptr b2 \/ bptr b2 + bsize b2 <= bptr b1.
Proof.
  intros H H1 H2. destruct (tiles_split _ _ _ _ H H1) as (l1 & l2 & -> & T1 & T2).
  apply in_app_or in H2. destruct H2 as [H2 | [H2 | H2]].
  - right. right. apply (tiles_In _ _ _ _ T1 H2).
  - left. exact H2.
  - right. left. apply (tiles_In _ _ _ _ T2 H2).
Qed.

Lemma tiles_ptr_inj p bs e b1 b2 :
  tiles p bs e -> In b1 bs -> In b2 bs -> bptr b1 = bptr b2 -> b1 = b2.
Proof.
  intros H H1 H2 E.
  pose proof (tiles_In _ _ _ _ H H1). pose proof (tiles_In _ _ _ _ H H2).
  destruct (tiles_sep _ _ _ _ _ H H1 H2) as [?|[?|?]]; [assumption | lia | lia].
Qed.

Lemma tiles_mod8 p bs e b :
  p mod 8 = 0 -> tiles p bs e -> In b bs -> bptr b mod 8 = 0.
Proof.
  revert p. induction bs as [|b0 bs IH]; simpl; intros p Hp H Hin; [contradiction|].
  destruct H as (A & B & C & D). destruct Hin as [-> | Hin].
  - congruence.
  - apply (IH (p + bsize b0)); try assumption.
    Z.div_mod_to_equations. lia.
Qed.

Lemma tiles_end_mod8 p bs e : p mod 8 = 0 -> tiles p bs e -> e mod 8 = 0.
Proof.
  revert p. induction bs as [|b0 bs IH]; simpl; intros p Hp H.
  - congruence.
  - destruct H as (A & B & C & D). apply (IH (p + bsize b0)); try assumption.
    Z.div_mod_to_equations. lia.
Qed.

(** ** Chains and walks *)

Lemma chain_frame m m' j l :
  (forall q, In q l -> load8 m' q = load8 m q) -> chain m j l -> chain m' j l.
Proof.
  revert j. induction l as [|p l IH]; simpl; intros j Hf H; [exact H|].
  destruct H as [-> H]. split; [reflexivity|].
  rewrite (Hf p) by (left; reflexivity). apply IH; [|exact H].
  intros q Hq. apply Hf. right. exact Hq.
Qed.

Lemma chain_walk st j l :
  chain (heap st) j l ->
  (forall q, In q l -> INSIDE_HEAP st q = true /\ q <> 0) ->
  walk st j l.
Proof.
  revert j. induction l as [|p l IH]; simpl; intros j H Hn.
  - subst j. apply walk_end. rewrite Z.eqb_refl. apply andb_false_r.
  - destruct H as [-> H]. destruct (Hn p (or_introl eq_refl)) as [Hi Hz].
    apply walk_step.
    + rewrite Hi. apply Z.eqb_neq in Hz. rewrite Hz. reflexivity.
    + apply IH; [exact H|]. intros q Hq. apply Hn. right. exact Hq.
Qed.

Lemma chain_app m j l1 l2 :
  chain m j (l1 ++ l2) ->
  chain m (match l2 with [] => 0 | q :: _ => q end) l2.
Proof.
  revert j. induction l1 as [|p l1 IH]; simpl; intros j H.
  - destruct l2 as [|q l2]; simpl in *; [reflexivity|]. destruct H as [-> H]. auto.
  - destruct H as [_ H]. apply IH in H. exact H.
Qed.

(** ** What a well-formed heap tells about its blocks *)

Section Wf.
Variables (st : state) (bs : list block) (idx : Z -> list Z).
Hypothesis WF : heap_wf st bs idx.

Lemma wf_hp_mod8 : mem_hp st mod 8 = 0.
Proof.
  rewrite (wf_hp _ _ _ WF). destruct (wf_base _ _ _ WF) as [_ H].
  Z.div_mod_to_equations. lia.
Qed.

Lemma wf_block b :
  In b bs ->
  mem_hp st <= bptr b /\ bptr b + bsize b <= mem_brk st + 8
  /\ 16 <= bsize b < 2 ^ 32 /\ bsize b mod 8 = 0 /\ bptr b mod 8 = 0.
Proof.
  intros Hin.
  destruct (tiles_In _ _ _ _ (wf_tiles _ _ _ WF) Hin) as (A & B & C & D).
  pose proof (tiles_mod8 _ _ _ _ wf_hp_mod8 (wf_tiles _ _ _ WF) Hin).
  pose proof (wf_hp _ _ _ WF). pose proof (wf_extent _ _ _ WF).
  repeat split; try assumption; lia.
Qed.

Lemma wf_brk_mod8 : mem_brk st mod 8 = 0.
Proof.
  pose proof (tiles_end_mod8 _ _ _ wf_hp_mod8 (wf_tiles _ _ _ WF)).
  Z.div_mod_to_equations. lia.
Qed.

Lemma wf_tags_of b : In b bs -> tags_ok (heap st) b.
Proof. intros Hin. apply (proj1 (Forall_forall _ _) (wf_tags _ _ _ WF) _ Hin). Qed.

Lemma tag_of_flag b : exists a, (a = 0 \/ a = 1) /\ tag_of b = bsize b + a
                                /\ a = if balloc b then 1 else 0.
Proof. unfold tag_of. destruct (balloc b); eexists; eauto. Qed.

Lemma wf_GET_SIZE b : In b bs -> GET_SIZE st (GET_HEADER (bptr b)) = bsize b.
Proof.
  intros Hin. destruct (wf_tags_of _ Hin) as [Hh _].
  destruct (wf_block _ Hin) as (_ & _ & _ & Hm & _).
  destruct (tag_of_flag b) as (a & Ha & Ht & _).
  apply (GET_SIZE_of_tag _ _ _ a); auto. unfold GET, GET_HEADER, WSIZE. congruence.
Qed.

Lemma wf_GET_ALLOC b :
  In b bs -> GET_ALLOC st (GET_HEADER (bptr b)) = if balloc b then 1 else 0.
Proof.
  intros Hin. destruct (wf_tags_of _ Hin) as [Hh _].
  destruct (wf_block _ Hin) as (_ & _ & _ & Hm & _).
  destruct (tag_of_flag b) as (a & Ha & Ht & <-).
  apply (GET_ALLOC_of_tag _ _ (bsize b)); auto.
  unfold GET, GET_HEADER, WSIZE. congruence.
Qed.

(** The footer, read from the payload pointer of the next block. *)
Lemma wf_footer_size b :
  In b bs -> GET_SIZE st (bptr b + bsize b - DSIZE) = bsize b.
Proof.
  intros Hin. destruct (wf_tags_of _ Hin) as [_ Hf].
  destruct (wf_block _ Hin) as (_ & _ & _ & Hm & _).
  destruct (tag_of_flag b) as (a & Ha & Ht & _).
  apply (GET_SIZE_of_tag _ _ _ a); auto. unfold GET, DSIZE. congruence.
Qed.

Lemma wf_inside b : In b bs -> INSIDE_HEAP st (bptr b) = true /\ bptr b <> 0.
Proof.
  intros Hin. destruct (wf_block _ Hin) as (A & B & C & _).
  pose proof (wf_hp _ _ _ WF). pose proof (wf_bp _ _ _ WF).
  destruct (wf_base _ _ _ WF) as [Hb _].
  split; [|lia]. unfold INSIDE_HEAP. apply andb_true_intro.
  split; [apply Z.leb_le | apply Z.ltb_lt]; lia.
Qed.

Lemma wf_node c p :
  0 <= c < SEG_LIST_COUNT -> In p (idx c) ->
  exists b, In b bs /\ bptr b = p /\ get_size_class (bsize b) = c.
Proof.
  intros Hc Hin. destruct (wf_nodes _ _ _ WF c p Hc Hin) as (s & a & Hb & Hk).
  exists (mkBlock p s a). auto.
Qed.

Lemma wf_walk c :
  0 <= c < SEG_LIST_COUNT -> walk st (class_head st c) (idx c).
Proof.
  intros Hc. apply chain_walk; [apply (wf_chain _ _ _ WF c Hc)|].
  intros q Hq. destruct (wf_node c q Hc Hq) as (b & Hb & <- & _).
  apply wf_inside. exact Hb.
Qed.

(** A node belongs to one class only. *)
Lemma wf_node_class c1 c2 p :
  0 <= c1 < SEG_LIST_COUNT -> 0 <= c2 < SEG_LIST_COUNT ->
  In p (idx c1) -> In p (idx c2) -> c1 = c2.
Proof.
  intros H1 H2 I1 I2.
  destruct (wf_node c1 p H1 I1) as (b1 & B1 & P1 & K1).
  destruct (wf_node c2 p H2 I2) as (b2 & B2 & P2 & K2).
  assert (b1 = b2)
    by (apply (tiles_ptr_inj _ _ _ _ _ (wf_tiles _ _ _ WF) B1 B2); congruence).
  congruence.
Qed.

(** The class slots lie below the first block. *)
Lemma wf_slot c :
  0 <= c < SEG_LIST_COUNT ->
  seg_lists st + 8 * c + 8 <= mem_hp st - 8.
Proof. intros Hc. pose proof (wf_hp _ _ _ WF). unfold SEG_LIST_COUNT in Hc. lia. Qed.
End Wf.

(** ** Link cells and tags do not overlap *)

Lemma link_cell_off_tags st bs idx a b :
  heap_wf st bs idx -> link_cell st bs a -> In b bs -> off_tags a b.
Proof.
  intros WF [(c & Hc & ->) | (b0 & Hb0 & ->)] Hb.
  - pose proof (wf_slot _ _ _ WF c Hc).
    destruct (wf_block _ _ _ WF b Hb) as (A & _ & S1 & _). unfold off_tags. lia.
  - destruct (wf_block _ _ _ WF b Hb) as (_ & _ & S1 & _).
    destruct (wf_block _ _ _ WF b0 Hb0) as (_ & _ & S0 & _).
    unfold off_tags.
    destruct (tiles_sep _ _ _ _ _ (wf_tiles _ _ _ WF) Hb0 Hb) as [-> | [H | H]]; lia.
Qed.

Lemma link_cells_apart st bs idx a b :
  heap_wf st bs idx -> link_cell st bs a -> link_cell st bs b -> a <> b ->
  apart a b.
Proof.
  intros WF Ha Hb Hne. unfold apart.
  destruct Ha as [(c & Hc & ->) | (b1 & H1 & ->)];
    destruct Hb as [(c' & Hc' & ->) | (b2 & H2 & ->)].
  - lia.
  - pose proof (wf_slot _ _ _ WF c Hc).
    destruct (wf_block _ _ _ WF b2 H2) as (A & _). lia.
  - pose proof (wf_slot _ _ _ WF c' Hc').
    destruct (wf_block _ _ _ WF b1 H1) as (A & _). lia.
  - destruct (wf_block _ _ _ WF b1 H1) as (_ & _ & S1 & _).
    destruct (wf_block _ _ _ WF b2 H2) as (_ & _ & S2 & _).
    destruct (tiles_sep _ _ _ _ _ (wf_tiles _ _ _ WF) H1 H2) as [-> | [H | H]];
      [contradiction | lia | lia].
Qed.

Lemma tags_ok_store8 m a v b :
  off_tags a b -> tags_ok m b -> tags_ok (store8 m a v) b.
Proof.
  intros [H1 H2] [T1 T2]. unfold tags_ok, store8.
  rewrite !load4_store_other by lia. split; assumption.
Qed.

Lemma Forall_tags_store8 st bs idx m a v :
  heap_wf st bs idx -> link_cell st bs a ->
  Forall (tags_ok m) bs -> Forall (tags_ok (store8 m a v)) bs.
Proof.
  intros WF Hc H. apply Forall_forall. intros b Hb.
  apply tags_ok_store8.
  - eapply link_cell_off_tags; eassumption.
  - apply (proj1 (Forall_forall _ _) H b Hb).
Qed.

Lemma load8_store8_apart m a v b :
  apart a b -> load8 (store8 m a v) b = load8 m b.
Proof. intros H. unfold store8. apply load8_store_other. unfold apart in H. lia. Qed.

Lemma load8_store8_id m a v :
  0 <= v < 2 ^ 64 -> load8 (store8 m a v) a = v.
Proof. intros H. rewrite load8_store8_same. apply Z.mod_small. exact H. Qed.

(** ** seg_list_remove *)

Lemma last_cons {A} (a : A) (l : list A) (d : A) : last (a :: l) d = last l a.
Proof.
  revert a d. induction l as [|b l IH]; intros a d; [reflexivity|].
  change (last (a :: b :: l) d) with (last (b :: l) d).
  rewrite (IH b d), (IH b a). reflexivity.
Qed.

Lemma remove_loop_total st p l :
  forall j, walk st j l -> forall fuel k, (length l < fuel)%nat ->
  exists st', remove_loop fuel st p k j = Some st'.
Proof.
  induction 1 as [j Hend | j l Hin Hw IH]; intros fuel k Hf.
  - destruct fuel as [|fuel]; [inversion Hf|]. simpl. rewrite Hend. eauto.
  - destruct fuel as [|fuel]; [inversion Hf|]. simpl in Hf |- *. rewrite Hin.
    destruct (p =? j); [eauto|]. apply IH. lia.
Qed.

(** The loop finds [F] behind the members [l1] and splices it out: the
    cell that pointed to [F] receives the successor of [F], and the link
    of [F] is cleared. *)
Lemma remove_loop_found st F l2 :
  (l2 = [] -> GET_NEXT_FREE st F = 0) ->
  forall l1 k j fuel,
  walk st j (l1 ++ F :: l2) -> ~ In F l1 -> (length l1 < fuel)%nat ->
  remove_loop fuel st F k j =
  Some (PUT_PTR_ADDR (PUT_PTR_ADDR st (last l1 k) (GET_NEXT_FREE st F)) F 0).
Proof.
  intros Hnil.
  induction l1 as [|a l1 IH]; intros k j fuel Hw Hn Hf;
    (destruct fuel as [|fuel]; [inversion Hf|]); cbn [remove_loop];
    simpl app in Hw; inversion Hw as [|j' l' Hin Hw' E1]; subst; rewrite Hin.
  - rewrite Z.eqb_refl. cbn [last].
    inversion Hw' as [j' Hend | j' l' Hin' Hw'' E]; subst.
    + rewrite Hend, Hnil by reflexivity. reflexivity.
    + rewrite Hin'. reflexivity.
  - replace (F =? a) with false
      by (symmetry; apply Z.eqb_neq; intros ->; apply Hn; left; reflexivity).
    rewrite last_cons. apply IH; [exact Hw' | | simpl in Hf; lia].
    intros H. apply Hn. right. exact H.
Qed.

Lemma last_In {A} (l : list A) (d : A) : In (last l d) (d :: l).
Proof.
  revert d. induction l as [|a l IH]; intros d; [left; reflexivity|].
  rewrite last_cons. right. apply IH.
Qed.

(** Splicing [F] out of a chain whose cells lie apart. *)
Lemma chain_unlink m F l2 :
  forall l1 k j,
  chain m j (l1 ++ F :: l2) ->
  NoDup (k :: l1 ++ F :: l2) ->
  (forall x y, In x (k :: l1 ++ F :: l2) -> In y (k :: l1 ++ F :: l2) ->
               x <> y -> apart x y) ->
  load8 m k = j ->
  chain (store8 (store8 m (last l1 k) (load8 m F)) F 0)
        (load8 (store8 (store8 m (last l1 k) (load8 m F)) F 0) k)
        (l1 ++ l2).
Proof.
  induction l1 as [|a l1 IH]; intros k j Hc Hnd Hap Hk.
  - simpl in *. destruct Hc as [-> Hc].
    apply NoDup_cons_iff in Hnd. destruct Hnd as [Hk1 Hnd].
    apply NoDup_cons_iff in Hnd. destruct Hnd as [HF1 Hnd].
    assert (HkF : k <> F) by (intros E; apply Hk1; left; auto).
    assert (AkF : apart F k)
      by (apply Hap; [right; left; reflexivity | left; reflexivity | congruence]).
    rewrite load8_store8_apart by exact AkF.
    rewrite load8_store8_id by apply load8_range.
    apply (chain_frame m); [|exact Hc].
    intros q Hq.
    assert (q <> F) by (intros ->; contradiction).
    assert (q <> k) by (intros ->; apply Hk1; right; exact Hq).
    assert (A1 : apart F q) by (apply Hap; auto with datatypes).
    assert (A2 : apart k q) by (apply Hap; auto with datatypes).
    rewrite !load8_store8_apart by assumption. reflexivity.
  - simpl app in *. destruct Hc as [-> Hc]. rewrite last_cons.
    assert (Hl : In (last l1 a) (a :: l1 ++ F :: l2)).
    { destruct (last_In l1 a) as [<- | H]; [left; reflexivity|].
      right. apply in_or_app. left. exact H. }
    apply NoDup_cons_iff in Hnd. destruct Hnd as [Hk1 Hnd].
    assert (HkF : k <> F).
    { intros ->. apply Hk1. right. apply in_or_app. right. left. reflexivity. }
    assert (Hkl : k <> last l1 a) by (intros E; rewrite <- E in Hl; contradiction).
    assert (Hk' : load8 (store8 (store8 m (last l1 a) (load8 m F)) F 0) k = a).
    { assert (A1 : apart F k).
      { apply Hap; [|left; reflexivity|congruence].
        right. right. apply in_or_app. right. left. reflexivity. }
      assert (A2 : apart (last l1 a) k).
      { apply Hap; [right; exact Hl|left; reflexivity|congruence]. }
      rewrite !load8_store8_apart by assumption. exact Hk. }
    rewrite Hk'. split; [reflexivity|].
    apply (IH a (load8 m a)); [exact Hc | exact Hnd | | reflexivity].
    intros x y Hx Hy. apply Hap; right; assumption.
Qed.

Lemma filter_neq_notin (F : Z) (l : list Z) :
  ~ In F l -> filter (fun q => negb (q =? F)) l = l.
Proof.
  induction l as [|a l IH]; simpl; intros H; [reflexivity|].
  replace (a =? F) with false by (symmetry; apply Z.eqb_neq; intros ->; auto).
  simpl. f_equal. apply IH. auto.
Qed.

Lemma filter_neq_split (F : Z) (l1 l2 : list Z) :
  NoDup (l1 ++ F :: l2) ->
  filter (fun q => negb (q =? F)) (l1 ++ F :: l2) = l1 ++ l2.
Proof.
  intros H. apply NoDup_remove_2 in H.
  rewrite filter_app. simpl. rewrite Z.eqb_refl. simpl.
  rewrite !filter_neq_notin; [reflexivity | |]; intros Hin; apply H;
    apply in_or_app; auto.
Qed.

Lemma unlink_In F idx c q :
  In q (unlink F idx c) <-> In q (idx c) /\ q <> F.
Proof.
  unfold unlink. rewrite filter_In, negb_true_iff, Z.eqb_neq. tauto.
Qed.

Lemma node_link_cell st bs idx c q :
  heap_wf st bs idx -> 0 <= c < SEG_LIST_COUNT -> In q (idx c) ->
  link_cell st bs q.
Proof.
  intros WF Hc Hq. destruct (wf_node _ _ _ WF c q Hc Hq) as (b & Hb & <- & _).
  right. exists b. auto.
Qed.

Lemma slot_link_cell st bs c :
  0 <= c < SEG_LIST_COUNT -> link_cell st bs (seg_lists st + 8 * c).
Proof. intros Hc. left. exists c. auto. Qed.

Lemma slot_not_node st bs idx c c' q :
  heap_wf st bs idx -> 0 <= c < SEG_LIST_COUNT -> 0 <= c' < SEG_LIST_COUNT ->
  In q (idx c') -> seg_lists st + 8 * c <> q.
Proof.
  intros WF Hc Hc' Hq. destruct (wf_node _ _ _ WF c' q Hc' Hq) as (b & Hb & <- & _).
  pose proof (wf_slot _ _ _ WF c Hc).
  destruct (wf_block _ _ _ WF b Hb) as (A & _). lia.
Qed.

(** [seg_list_remove] on a member of the index: the member leaves its
    class list, nothing else about the heap changes. *)
Lemma seg_list_remove_spec st bs idx c F fuel :
  heap_wf st bs idx -> 0 <= c < SEG_LIST_COUNT -> In F (idx c) ->
  (length (idx c) < fuel)%nat ->
  exists m',
    seg_list_remove fuel st F = Some (set_heap st m')
    /\ heap_wf (set_heap st m') bs (unlink F idx)
    /\ (forall a, (forall c', 0 <= c' < SEG_LIST_COUNT ->
                     apart (seg_lists st + 8 * c') a)
                  -> (forall c' q, 0 <= c' < SEG_LIST_COUNT -> In q (idx c') ->
                                   apart q a)
                  -> load8 m' a = load8 (heap st) a)
    /\ (forall x, (forall c', 0 <= c' < SEG_LIST_COUNT ->
                     x < seg_lists st + 8 * c' \/ seg_lists st + 8 * c' + 8 <= x)
                  -> (forall c' q, 0 <= c' < SEG_LIST_COUNT -> In q (idx c') ->
                                   x < q \/ q + 8 <= x)
                  -> byte_at m' x = byte_at (heap st) x).
Proof.
  intros WF Hc HF Hfuel.
  destruct (wf_node _ _ _ WF c F Hc HF) as (bF & HbF & HpF & HkF).
  destruct (in_split _ _ HF) as (l1 & l2 & Hidx).
  pose proof (wf_nodup _ _ _ WF c Hc) as Hnd. rewrite Hidx in Hnd.
  pose proof (wf_chain _ _ _ WF c Hc) as Hch. rewrite Hidx in Hch.
  pose proof (wf_walk _ _ _ WF c Hc) as Hw. rewrite Hidx in Hw.
  set (k := seg_lists st + 8 * c) in *.
  set (k' := last l1 k).
  set (m' := store8 (store8 (heap st) k' (load8 (heap st) F)) F 0).
  assert (Hk'cell : k' = k \/ In k' l1).
  { destruct (last_In l1 k) as [H | H]; [left; symmetry; exact H | right; exact H]. }
  assert (Hl1 : forall q, In q l1 -> In q (idx c))
    by (intros q Hq; rewrite Hidx; apply in_or_app; auto).
  assert (Hl2 : forall q, In q l2 -> In q (idx c))
    by (intros q Hq; rewrite Hidx; apply in_or_app; right; right; exact Hq).
  assert (Hcellk' : link_cell st bs k').
  { destruct Hk'cell as [E | H]; [rewrite E; apply slot_link_cell; exact Hc|].
    eapply node_link_cell; eauto. }
  assert (HcellF : link_cell st bs F) by (eapply node_link_cell; eauto).
  exists m'. split; [|split; [|split]].
  - (* the result of the loop *)
    unfold seg_list_remove.
    rewrite <- HpF, (wf_GET_SIZE _ _ _ WF bF HbF), HkF, HpF. fold k.
    rewrite (remove_loop_found st F l2) with (l1 := l1).
    + reflexivity.
    + intros ->. apply chain_app in Hch. simpl in Hch. destruct Hch as [_ Hch].
      exact Hch.
    + exact Hw.
    + apply NoDup_remove_2 in Hnd. intros H. apply Hnd. apply in_or_app. auto.
    + rewrite Hidx, length_app in Hfuel. lia.
  - (* the heap is still well formed *)
    constructor; try (apply WF).
    + simpl. apply (Forall_tags_store8 st bs idx); try assumption.
      apply (Forall_tags_store8 st bs idx); try assumption. apply WF.
    + (* chains *)
      intros c' Hc'. unfold class_head, GET_PTR_ADDR.
      cbn [heap seg_lists set_heap].
      destruct (Z.eq_dec c' c) as [-> | Hne].
      * unfold unlink. rewrite Hidx, filter_neq_split by exact Hnd.
        fold k. apply (chain_unlink (heap st) F l2 l1 k (class_head st c));
          [exact Hch | | | reflexivity].
        -- constructor; [|exact Hnd]. intros H. rewrite <- Hidx in H.
           exact (slot_not_node _ _ _ c c _ WF Hc Hc H eq_refl).
        -- intros x y Hx Hy. apply (link_cells_apart st bs idx _ _ WF).
           ++ destruct Hx as [<- | Hx]; [apply slot_link_cell; exact Hc|].
              rewrite <- Hidx in Hx. eapply node_link_cell; eauto.
           ++ destruct Hy as [<- | Hy]; [apply slot_link_cell; exact Hc|].
              rewrite <- Hidx in Hy. eapply node_link_cell; eauto.
      * assert (HFc' : ~ In F (idx c')).
        { intros H. apply Hne. eapply wf_node_class; eauto. }
        unfold unlink. rewrite filter_neq_notin by exact HFc'.
        assert (Hfr : forall a, link_cell st bs a -> a <> k' -> a <> F ->
                  load8 m' a = load8 (heap st) a).
        { intros a Ha N1 N2. unfold m'.
          rewrite !load8_store8_apart; [reflexivity | |];
            apply (link_cells_apart st bs idx _ _ WF); auto. }
        rewrite Hfr.
        -- apply (chain_frame (heap st)); [|apply (wf_chain _ _ _ WF c' Hc')].
           intros q Hq. apply Hfr.
           ++ eapply node_link_cell; eauto.
           ++ destruct Hk'cell as [E0 | H].
              ** rewrite E0. intros E. symmetry in E.
                 exact (slot_not_node _ _ _ c c' _ WF Hc Hc' Hq E).
              ** intros E. rewrite E in Hq. apply Hne.
                 apply (wf_node_class _ _ _ WF c' c k'); auto.
           ++ intros ->. contradiction.
        -- apply slot_link_cell; exact Hc'.
        -- destruct Hk'cell as [E0 | H].
           ++ rewrite E0. unfold k. lia.
           ++ apply (slot_not_node _ _ _ c' c _ WF Hc' Hc). auto.
        -- apply (slot_not_node _ _ _ c' c _ WF Hc' Hc). exact HF.
    + intros c' Hc'. unfold unlink. apply NoDup_filter. apply (wf_nodup _ _ _ WF c' Hc').
    + intros c' p Hc' Hp. apply unlink_In in Hp. destruct Hp as [Hp _].
      apply (wf_nodes _ _ _ WF c' p Hc' Hp).
  - (* links away from the two cells are untouched *)
    intros a Hs Hn. unfold m'.
    assert (A1 : apart F a) by apply (Hn c F Hc HF).
    assert (A2 : apart k' a).
    { destruct Hk'cell as [E | H];
        [rewrite E; apply (Hs c Hc) | apply (Hn c _ Hc (Hl1 _ H))]. }
    rewrite !load8_store8_apart by assumption. reflexivity.
  - (* bytes away from the two cells are untouched *)
    intros x Hs Hn. unfold m', store8.
    assert (A1 : x < F \/ F + 8 <= x) by apply (Hn c F Hc HF).
    assert (A2 : x < k' \/ k' + 8 <= x).
    { destruct Hk'cell as [E | H];
        [rewrite E; apply (Hs c Hc) | apply (Hn c _ Hc (Hl1 _ H))]. }
    rewrite !byte_at_store_out by assumption. reflexivity.
Qed.

(** ** seg_list_add *)

Lemma SIZE_T_SIZE_8 : SIZE_T_SIZE = 8.
Proof. reflexivity. Qed.

Lemma link_In c F idx c' q :
  In q (link c F idx c') <-> (c' = c /\ q = F) \/ In q (idx c').
Proof.
  unfold link. destruct (Z.eqb_spec c' c) as [-> | Hne]; simpl.
  - split; [intros [<- | H]; auto | intros [[_ ->] | H]; auto].
  - split; [auto | intros [[E _] | H]; [contradiction | exact H]].
Qed.

(** [seg_list_add] on a block that is not in the index: the block becomes
    the head of its class, nothing else about the heap changes. *)
Lemma seg_list_add_spec st bs idx b :
  heap_wf st bs idx -> In b bs ->
  ~ In (bptr b) (idx (get_size_class (bsize b))) ->
  exists m',
    seg_list_add st (bptr b) = set_heap st m'
    /\ heap_wf (set_heap st m') bs (link (get_size_class (bsize b)) (bptr b) idx)
    /\ (forall x, (forall c', 0 <= c' < SEG_LIST_COUNT ->
                     x < seg_lists st + 8 * c' \/ seg_lists st + 8 * c' + 8 <= x)
                  -> (x < bptr b \/ bptr b + 8 <= x)
                  -> byte_at m' x = byte_at (heap st) x).
Proof.
  intros WF Hb Hnew.
  set (p := bptr b) in *. set (c := get_size_class (bsize b)) in *.
  pose proof (get_size_class_range (bsize b)) as Hc. fold c in Hc.
  set (slot := seg_lists st + 8 * c).
  set (head := load8 (heap st) slot).
  set (m' := store8 (store8 (heap st) p head) slot p).
  destruct (wf_block _ _ _ WF b Hb) as (B1 & B2 & B3 & B4 & B5). fold p in B1, B2, B5.
  destruct (wf_inside _ _ _ WF b Hb) as [_ Hp0]. fold p in Hp0.
  pose proof (wf_top _ _ _ WF) as Htop. pose proof (wf_hp _ _ _ WF) as Hhp.
  destruct (wf_base _ _ _ WF) as [Hbase _].
  assert (Hcellp : link_cell st bs p) by (right; exists b; auto).
  assert (Hcells : link_cell st bs slot) by (apply slot_link_cell; exact Hc).
  assert (Hps : apart slot p).
  { apply (link_cells_apart st bs idx _ _ WF); auto.
    pose proof (wf_slot _ _ _ WF c Hc). unfold slot. lia. }
  assert (Hnotin : forall c', 0 <= c' < SEG_LIST_COUNT -> ~ In p (idx c')).
  { intros c' Hc' Hin. destruct (wf_node _ _ _ WF c' p Hc' Hin) as (b' & Hb' & Hp' & Hk').
    assert (b' = b) by (apply (tiles_ptr_inj _ _ _ _ _ (wf_tiles _ _ _ WF)); auto).
    subst b'. apply Hnew. assert (E : c = c') by exact Hk'.
    rewrite E. exact Hin. }
  pose proof (wf_chain _ _ _ WF c Hc) as Hch. unfold class_head, GET_PTR_ADDR in Hch.
  fold slot in Hch. fold head in Hch.
  exists m'. split; [|split].
  - unfold seg_list_add.
    replace (p =? NULL) with false by (symmetry; apply Z.eqb_neq; exact Hp0).
    pose proof (wf_GET_SIZE _ _ _ WF b Hb) as Hsz. fold p in Hsz.
    rewrite Hsz. fold c.
    rewrite SIZE_T_SIZE_8, (Z.mul_comm c 8). fold slot.
    unfold GET_PTR_ADDR. fold head.
    assert (E : (if negb (head =? 0) && negb (head =? p)
                 then PUT_PTR_ADDR st p head else PUT_PTR_ADDR st p 0)
                = PUT_PTR_ADDR st p head).
    { destruct (Z.eqb_spec head 0) as [-> | Hh]; [reflexivity|].
      destruct (Z.eqb_spec head p) as [E | _]; [|reflexivity].
      exfalso. apply (Hnotin c Hc).
      destruct (idx c) as [|q l]; simpl in Hch; [contradiction|].
      destruct Hch as [Hq _]. left. congruence. }
    rewrite E. reflexivity.
  - constructor; try (apply WF).
    + cbn [heap set_heap]. unfold m'.
      apply (Forall_tags_store8 st bs idx); try assumption.
      apply (Forall_tags_store8 st bs idx); try assumption. apply WF.
    + intros c' Hc'. unfold class_head, GET_PTR_ADDR.
      cbn [heap seg_lists set_heap].
      assert (Hfr : forall a, link_cell st bs a -> a <> p -> a <> slot ->
                load8 m' a = load8 (heap st) a).
      { intros a Ha N1 N2. unfold m'.
        assert (apart slot a) by (apply (link_cells_apart st bs idx _ _ WF); auto).
        assert (apart p a) by (apply (link_cells_apart st bs idx _ _ WF); auto).
        rewrite !load8_store8_apart by assumption. reflexivity. }
      assert (Hnodes : forall q, In q (idx c') -> load8 m' q = load8 (heap st) q).
      { intros q Hq. apply Hfr.
        - eapply node_link_cell; eauto.
        - intros ->. exact (Hnotin c' Hc' Hq).
        - intros ->. exact (slot_not_node _ _ _ c c' _ WF Hc Hc' Hq eq_refl). }
      unfold link. destruct (Z.eqb_spec c' c) as [-> | Hne].
      * fold slot. cbn [chain]. unfold m' at 1.
        rewrite load8_store8_id by lia. split; [reflexivity|].
        unfold m' at 2. rewrite load8_store8_apart by exact Hps.
        rewrite load8_store8_id by apply load8_range.
        apply (chain_frame (heap st)); [exact Hnodes | exact Hch].
      * rewrite Hfr.
        -- apply (chain_frame (heap st)); [exact Hnodes|].
           apply (wf_chain _ _ _ WF c' Hc').
        -- apply slot_link_cell; exact Hc'.
        -- pose proof (wf_slot _ _ _ WF c' Hc'). lia.
        -- unfold slot. lia.
    + intros c' Hc'. unfold link. destruct (Z.eqb_spec c' c) as [-> | Hne].
      * constructor; [apply (Hnotin c Hc) | apply (wf_nodup _ _ _ WF c Hc)].
      * apply (wf_nodup _ _ _ WF c' Hc').
    + intros c' q Hc' Hq. apply link_In in Hq. destruct Hq as [[-> ->] | Hq].
      * exists (bsize b), (balloc b). split; [|reflexivity].
        unfold p. destruct b; exact Hb.
      * apply (wf_nodes _ _ _ WF c' q Hc' Hq).
  - intros x Hs Hx. unfold m', store8.
    assert (x < slot \/ slot + 8 <= x) by apply (Hs c Hc).
    rewrite !byte_at_store_out by assumption. reflexivity.
Qed.

(** ** Rewriting the tags of a stretch of the heap *)

Lemma write_all_cons m b news :
  write_all m (b :: news)
  = write_all (write_tags m (bptr b) (bsize b) (flag_of b)) news.
Proof. reflexivity. Qed.

Lemma flag_of_01 b : flag_of b = 0 \/ flag_of b = 1.
Proof. unfold flag_of. destruct (balloc b); auto. Qed.

Lemma load4_write_all_outside news :
  forall m start e a,
  tiles start news e -> (a + 4 <= start - 4 \/ e - 4 <= a) ->
  load4 (write_all m news) a = load4 m a.
Proof.
  induction news as [|b news IH]; intros m start e a Ht Ha; [reflexivity|].
  rewrite write_all_cons. simpl in Ht. destruct Ht as (Hp & Hs & Hm & Ht).
  pose proof (tiles_le _ _ _ Ht). unfold MIN_BLOCK_SIZE, DSIZE in Hs.
  rewrite (IH _ (start + bsize b) e) by (try assumption; lia).
  apply load4_write_tags_other; lia.
Qed.

Lemma byte_at_write_tags_other m p s a x :
  (x < p - 4 \/ p <= x) -> (x < p + s - 8 \/ p + s - 4 <= x) ->
  byte_at (write_tags m p s a) x = byte_at m x.
Proof.
  intros H1 H2. unfold write_tags, store4.
  rewrite !byte_at_store_out by lia. reflexivity.
Qed.

Lemma byte_at_write_all_other news :
  forall m x,
  (forall b, In b news ->
     (x < bptr b - 4 \/ bptr b <= x)
     /\ (x < bptr b + bsize b - 8 \/ bptr b + bsize b - 4 <= x)) ->
  byte_at (write_all m news) x = byte_at m x.
Proof.
  induction news as [|b news IH]; intros m x H; [reflexivity|].
  rewrite write_all_cons, IH by (intros b' Hb'; apply H; right; exact Hb').
  destruct (H b (or_introl eq_refl)). apply byte_at_write_tags_other; assumption.
Qed.

Lemma load8_write_all_cell news :
  forall m a, (forall b, In b news -> off_tags a b) ->
  load8 (write_all m news) a = load8 m a.
Proof.
  induction news as [|b news IH]; intros m a H; [reflexivity|].
  rewrite write_all_cons, IH by (intros b' Hb'; apply H; right; exact Hb').
  destruct (H b (or_introl eq_refl)) as [H1 H2].
  apply load8_write_tags_other; assumption.
Qed.

Lemma tags_write_all news :
  forall m start e,
  tiles start news e -> (forall b, In b news -> bsize b < 2 ^ 32) ->
  Forall (tags_ok (write_all m news)) news.
Proof.
  induction news as [|b news IH]; intros m start e Ht Hsz; [constructor|].
  rewrite write_all_cons. simpl in Ht. destruct Ht as (Hp & Hs & Hm & Ht).
  unfold MIN_BLOCK_SIZE, DSIZE in Hs.
  pose proof (Hsz b (or_introl eq_refl)) as Hb32.
  pose proof (flag_of_01 b) as Hfl.
  constructor.
  - unfold tags_ok, tag_of. fold (flag_of b). subst start. split.
    + rewrite (load4_write_all_outside news _ (bptr b + bsize b) e)
        by (try assumption; lia).
      apply load4_write_tags_header; auto; lia.
    + rewrite (load4_write_all_outside news _ (bptr b + bsize b) e)
        by (try assumption; lia).
      apply load4_write_tags_footer; auto; lia.
  - apply (IH _ (start + bsize b) e); [exact Ht|].
    intros b' Hb'. apply Hsz. right. exact Hb'.
Qed.

Lemma tiles_off_tags p bs e b0 b :
  tiles p bs e -> In b0 bs -> In b bs -> off_tags (bptr b0) b.
Proof.
  intros Ht H0 H1.
  destruct (tiles_In _ _ _ _ Ht H0) as (_ & _ & S0 & _).
  destruct (tiles_In _ _ _ _ Ht H1) as (_ & _ & S1 & _).
  unfold off_tags.
  destruct (tiles_sep _ _ _ _ _ Ht H0 H1) as [-> | [H | H]]; lia.
Qed.

(** The blocks [mid] of a well-formed heap are replaced by blocks [news]
    that tile the same stretch, and the tags of [news] are written: the
    heap is well formed again, provided every indexed node is still a
    block of its class. *)
Lemma retag st pre mid news post idx start e :
  heap_wf st (pre ++ mid ++ post) idx ->
  pre <> [] ->
  tiles (mem_hp st) pre start -> tiles start mid e ->
  tiles e post (mem_brk st + 8) ->
  tiles start news e ->
  (forall c q, 0 <= c < SEG_LIST_COUNT -> In q (idx c) ->
               node_in (pre ++ news ++ post) c q) ->
  heap_wf (set_heap st (write_all (heap st) news)) (pre ++ news ++ post) idx.
Proof.
  intros WF Hpre T1 T2 T3 Tn Hnodes.
  assert (Tnew : tiles (mem_hp st) (pre ++ news ++ post) (mem_brk st + 8)).
  { apply tiles_app. exists start. split; [exact T1|].
    apply tiles_app. exists e. split; assumption. }
  pose proof (tiles_le _ _ _ T1) as L1. pose proof (tiles_le _ _ _ T3) as L3.
  pose proof (wf_hp _ _ _ WF) as Hhp. pose proof (wf_extent _ _ _ WF) as Hext.
  pose proof (wf_tags _ _ _ WF) as Htags.
  rewrite !Forall_app in Htags. destruct Htags as (Tg1 & _ & Tg3).
  constructor; try (apply WF).
  - destruct (wf_first _ _ _ WF) as (rest & Hfirst).
    destruct pre as [|b0 pre']; [contradiction|].
    simpl in Hfirst. injection Hfirst as -> _. cbn [mem_hp set_heap].
    eexists. reflexivity.
  - exact Tnew.
  - cbn [heap set_heap]. rewrite !Forall_app. split; [|split].
    + apply Forall_forall. intros b Hb.
      destruct (tiles_In _ _ _ _ T1 Hb) as (A & B & C & D).
      destruct (proj1 (Forall_forall _ _) Tg1 b Hb) as [Hh Hf].
      split; rewrite (load4_write_all_outside news _ start e)
        by (try assumption; lia); assumption.
    + apply (tags_write_all news _ start e); [exact Tn|].
      intros b Hb. destruct (tiles_In _ _ _ _ Tn Hb) as (A & B & C & D). lia.
    + apply Forall_forall. intros b Hb.
      destruct (tiles_In _ _ _ _ T3 Hb) as (A & B & C & D).
      destruct (proj1 (Forall_forall _ _) Tg3 b Hb) as [Hh Hf].
      split; rewrite (load4_write_all_outside news _ start e)
        by (try assumption; lia); assumption.
  - intros c Hc. unfold class_head, GET_PTR_ADDR. cbn [heap seg_lists set_heap].
    rewrite load8_write_all_cell.
    + apply (chain_frame (heap st)); [|apply (wf_chain _ _ _ WF c Hc)].
      intros q Hq. apply load8_write_all_cell. intros b Hb.
      destruct (Hnodes c q Hc Hq) as (s & a & Hin & _).
      apply (tiles_off_tags _ _ _ (mkBlock q s a) b Tnew Hin).
      apply in_or_app. right. apply in_or_app. left. exact Hb.
    + intros b Hb. destruct (tiles_In _ _ _ _ Tn Hb) as (A & B & C & D).
      unfold off_tags, SEG_LIST_COUNT in *. lia.
  - exact Hnodes.
Qed.

(** ** Payloads are apart from tags, slots and links *)

Lemma load4_ext m m' a :
  (forall k, 0 <= k < 4 -> byte_at m' (a + k) = byte_at m (a + k)) ->
  load4 m' a = load4 m a.
Proof.
  intros H. unfold load4.
  pose proof (H 0 ltac:(lia)) as H0. rewrite Z.add_0_r in H0.
  rewrite H0, (H 1), (H 2), (H 3) by lia. reflexivity.
Qed.

Lemma load8_ext m m' a :
  (forall k, 0 <= k < 8 -> byte_at m' (a + k) = byte_at m (a + k)) ->
  load8 m' a = load8 m a.
Proof.
  intros H. unfold load8. rewrite (load4_ext m m' a), (load4_ext m m' (a + 4)).
  - reflexivity.
  - intros k Hk. rewrite <- Z.add_assoc. apply H. lia.
  - intros k Hk. apply H. lia.
Qed.

Lemma frame_refl bs m : frame bs m m.
Proof. intros b x _ _ _. reflexivity. Qed.

Lemma frame_trans bs m1 m2 m3 : frame bs m1 m2 -> frame bs m2 m3 -> frame bs m1 m3.
Proof.
  intros H1 H2 b x Hb Ha Hx. rewrite (H2 b x Hb Ha Hx). apply (H1 b x Hb Ha Hx).
Qed.

Section Payload.
Variables (st : state) (bs : list block) (idx : Z -> list Z).
Hypothesis WF : heap_wf st bs idx.
Variables (b : block) (x : Z).
Hypothesis Hb : In b bs.
Hypothesis Hx : payload b x.

(** A payload byte lies in no class slot. *)
Lemma payload_off_slots c :
  0 <= c < SEG_LIST_COUNT -> seg_lists st + 8 * c + 8 <= x.
Proof.
  intros Hc. pose proof (wf_slot _ _ _ WF c Hc).
  destruct (wf_block _ _ _ WF b Hb) as (A & _). unfold payload in Hx. lia.
Qed.

(** A payload byte lies in neither tag of any block. *)
Lemma payload_off_tags b' :
  In b' bs ->
  (x < bptr b' - 4 \/ bptr b' <= x)
  /\ (x < bptr b' + bsize b' - 8 \/ bptr b' + bsize b' - 4 <= x).
Proof.
  intros Hb'. unfold payload, DSIZE in Hx.
  destruct (wf_block _ _ _ WF b Hb) as (_ & _ & S & _).
  destruct (wf_block _ _ _ WF b' Hb') as (_ & _ & S' & _).
  destruct (tiles_sep _ _ _ _ _ (wf_tiles _ _ _ WF) Hb Hb') as [<- | [H | H]]; lia.
Qed.

(** A payload byte lies in no other block's first payload word. *)
Lemma payload_off_block b' :
  In b' bs -> b' <> b -> x < bptr b' \/ bptr b' + 8 <= x.
Proof.
  intros Hb' Hne. unfold payload, DSIZE in Hx.
  destruct (wf_block _ _ _ WF b' Hb') as (_ & _ & S' & _).
  destruct (tiles_sep _ _ _ _ _ (wf_tiles _ _ _ WF) Hb Hb') as [E | [H | H]];
    [congruence | lia | lia].
Qed.
(** A payload byte lies outside every other block, and outside the eight
    bytes before it. *)
Lemma payload_outside b' :
  In b' bs -> b' <> b -> x < bptr b' - 8 \/ bptr b' + bsize b' <= x.
Proof.
  intros Hb' Hne. unfold payload, DSIZE in Hx.
  destruct (tiles_sep _ _ _ _ _ (wf_tiles _ _ _ WF) Hb Hb') as [E | [H | H]];
    [congruence | lia | lia].
Qed.
End Payload.

(** In a well-formed heap between operations, the payload of an allocated
    block holds no link of the index. *)
Lemma payload_away st bs idx b x :
  heap_ok st bs idx -> In b bs -> balloc b = true -> payload b x ->
  away_from_links st idx x.
Proof.
  intros OK Hb Ha Hx. pose proof (ok_wf _ _ _ OK) as WF. split.
  - intros c Hc. right. exact (payload_off_slots st bs idx WF b x Hb Hx c Hc).
  - intros c q Hc Hq. apply (ok_index _ _ _ OK c q Hc) in Hq.
    destruct Hq as (s & Hin & _).
    apply (payload_off_block st bs idx WF b x Hb Hx _ Hin).
    intros <-. discriminate.
Qed.

(** Writing into payloads of allocated blocks keeps the heap well formed. *)
Lemma heap_ok_payload_write st bs idx m' :
  heap_ok st bs idx ->
  (forall x, ~ in_payload bs x -> byte_at m' x = byte_at (heap st) x) ->
  heap_ok (set_heap st m') bs idx.
Proof.
  intros OK Hm. pose proof (ok_wf _ _ _ OK) as WF.
  assert (Htag : forall b' k, In b' bs -> 0 <= k < 4 ->
            ~ in_payload bs (bptr b' - 4 + k)
            /\ ~ in_payload bs (bptr b' + bsize b' - 8 + k)).
  { intros b' k Hb' Hk. split; intros (b & Hb & _ & Hx);
      destruct (payload_off_tags st bs idx WF b _ Hb Hx b' Hb'); lia. }
  assert (Hcell : forall a, link_cell st bs a ->
            (forall b, In b bs -> bptr b = a -> balloc b = false) ->
            load8 m' a = load8 (heap st) a).
  { intros a Ha Hfree. apply load8_ext. intros k Hk. apply Hm.
    intros (b & Hb & Hal & Hx).
    destruct Ha as [(c & Hc & ->) | (b0 & Hb0 & ->)].
    - pose proof (payload_off_slots st bs idx WF b _ Hb Hx c Hc). lia.
    - destruct (wf_block _ _ _ WF b0 Hb0) as (_ & _ & S0 & _).
      unfold payload, DSIZE in Hx.
      destruct (tiles_sep _ _ _ _ _ (wf_tiles _ _ _ WF) Hb Hb0) as [E | [H | H]];
        [|lia|lia].
      subst b0. rewrite (Hfree b Hb eq_refl) in Hal. discriminate. }
  constructor; [constructor; try (apply WF)| apply OK | apply OK].
  - cbn [heap set_heap]. apply Forall_forall. intros b' Hb'.
    destruct (proj1 (Forall_forall _ _) (wf_tags _ _ _ WF) b' Hb') as [T1 T2].
    split.
    + rewrite <- T1. apply load4_ext. intros k Hk. apply Hm.
      apply (Htag b' k Hb' Hk).
    + rewrite <- T2. apply load4_ext. intros k Hk. apply Hm.
      apply (Htag b' k Hb' Hk).
  - intros c Hc. cbn [heap set_heap].
    assert (Hnode : forall q, In q (idx c) -> load8 m' q = load8 (heap st) q).
    { intros q Hq. apply Hcell; [eapply node_link_cell; eassumption|].
      intros b Hb Hp. apply (ok_index _ _ _ OK c q Hc) in Hq.
      destruct Hq as (s & Hin & _).
      rewrite (tiles_ptr_inj _ _ _ _ _ (wf_tiles _ _ _ WF) Hb Hin Hp). reflexivity. }
    unfold class_head, GET_PTR_ADDR. cbn [heap set_heap seg_lists].
    rewrite Hcell.
    + apply (chain_frame (heap st)); [exact Hnode|]. apply (wf_chain _ _ _ WF c Hc).
    + apply slot_link_cell. exact Hc.
    + intros b Hb Hp. exfalso.
      pose proof (wf_slot _ _ _ WF c Hc).
      destruct (wf_block _ _ _ WF b Hb) as (A & _). lia.
Qed.

(** A block occurs once in a tiling. *)
Lemma tiles_sides p l1 B l2 e b :
  tiles p (l1 ++ B :: l2) e -> In b (l1 ++ l2) -> bptr b <> bptr B.
Proof.
  intros T Hb. apply tiles_app in T. destruct T as (a & T1 & T2).
  simpl in T2. destruct T2 as (HB & HB16 & _ & T2).
  unfold MIN_BLOCK_SIZE, DSIZE in HB16.
  apply in_app_or in Hb. destruct Hb as [Hb | Hb].
  - destruct (tiles_In _ _ _ _ T1 Hb) as (_ & H & H16 & _).
    unfold MIN_BLOCK_SIZE, DSIZE in H16. lia.
  - destruct (tiles_In _ _ _ _ T2 Hb) as (H & _). lia.
Qed.

(** The live allocations are the allocated blocks other than the boundary
    block. *)
Lemma live_in_iff st bs idx p :
  heap_wf st bs idx ->
  (live_in bs p <-> exists s, In (mkBlock p s true) bs /\ p <> mem_hp st).
Proof.
  intros WF. destruct (wf_first _ _ _ WF) as (rest & E).
  pose proof (wf_tiles _ _ _ WF) as T. unfold live_in. rewrite E in *.
  cbn [tl]. split; intros (s & H); exists s.
  - split; [right; exact H|].
    pose proof (tiles_sides _ [] _ rest _ _ T H) as Hne. exact Hne.
  - destruct H as [[H | H] Hne]; [|exact H].
    injection H as H _. congruence.
Qed.

(** ** Addresses outside the heap *)

Lemma outside_off_slots st bs idx x c :
  heap_wf st bs idx -> outside_heap st x -> 0 <= c < SEG_LIST_COUNT ->
  x < seg_lists st + 8 * c \/ seg_lists st + 8 * c + 8 <= x.
Proof.
  intros WF Hx Hc. pose proof (wf_hp _ _ _ WF) as Hhp.
  pose proof (tiles_le _ _ _ (wf_tiles _ _ _ WF)) as Hle.
  unfold SEG_LIST_COUNT in Hc. unfold outside_heap in Hx. lia.
Qed.

Lemma outside_off_block st bs idx x b :
  heap_wf st bs idx -> outside_heap st x -> In b bs ->
  (x < bptr b - 4 \/ bptr b + 8 <= x)
  /\ (x < bptr b + bsize b - 8 \/ bptr b + bsize b - 4 <= x).
Proof.
  intros WF Hx Hb. pose proof (wf_hp _ _ _ WF) as Hhp.
  destruct (wf_block _ _ _ WF b Hb) as (A & B & C & _).
  unfold outside_heap in Hx. lia.
Qed.

Lemma outside_away st bs idx x :
  heap_wf st bs idx -> outside_heap st x -> away_from_links st idx x.
Proof.
  intros WF Hx. split.
  - intros c Hc. apply (outside_off_slots st bs idx x c WF Hx Hc).
  - intros c q Hc Hq. destruct (wf_node _ _ _ WF c q Hc Hq) as (b & Hb & <- & _).
    destruct (outside_off_block st bs idx x b WF Hx Hb) as [H _].
    pose proof (wf_hp _ _ _ WF) as Hhp.
    destruct (wf_block _ _ _ WF b Hb) as (A & _). unfold outside_heap in Hx. lia.
Qed.

(** ** Adjacent free blocks *)

Lemma noadj_app_l l1 l2 : no_adj_free (l1 ++ l2) -> no_adj_free l1.
Proof.
  induction l1 as [|a l1 IH]; simpl; [trivial|].
  intros [H1 H2]. split; [|apply IH; exact H2].
  destruct l1 as [|b l1]; simpl in *; [trivial | exact H1].
Qed.

Lemma noadj_app_r l1 l2 : no_adj_free (l1 ++ l2) -> no_adj_free l2.
Proof.
  induction l1 as [|a l1 IH]; simpl; [trivial|]. intros [_ H]. apply IH. exact H.
Qed.

Lemma noadj_pair l1 a b l2 :
  no_adj_free (l1 ++ a :: b :: l2) -> balloc a = true \/ balloc b = true.
Proof. intros H. apply noadj_app_r in H. simpl in H. tauto. Qed.

Lemma noadj_join l1 M l2 :
  no_adj_free l1 -> last_alloc l1 -> no_adj_free l2 -> head_alloc l2 ->
  no_adj_free (l1 ++ M :: l2).
Proof.
  intros N1 L1 N2 H2. induction l1 as [|a l1 IH].
  - simpl. split; [|exact N2]. destruct l2 as [|b l2]; [trivial|].
    right. apply (H2 b l2 eq_refl).
  - simpl in N1. destruct N1 as [Na N1]. cbn [app no_adj_free]. split.
    + destruct l1 as [|b l1]; simpl.
      * left. apply (L1 [] a eq_refl).
      * exact Na.
    + apply IH; [exact N1|]. intros l' b E. apply (L1 (a :: l') b).
      simpl. rewrite E. reflexivity.
Qed.

Lemma last_alloc_app l b : balloc b = true -> last_alloc (l ++ [b]).
Proof.
  intros H l' b' E. apply app_inj_tail in E. destruct E as [_ <-]. exact H.
Qed.

Lemma last_alloc_before l a b l2 :
  no_adj_free ((l ++ [a]) ++ b :: l2) -> balloc b = false -> last_alloc (l ++ [a]).
Proof.
  intros H Hb. apply last_alloc_app. rewrite <- app_assoc in H. simpl in H.
  destruct (noadj_pair _ _ _ _ H) as [Ha | Ha]; congruence.
Qed.

(** ** Spans *)

Lemma tiles_span start l e : tiles start l e -> e = start + span l.
Proof.
  revert start. induction l as [|b l IH]; simpl; intros start H; [lia|].
  destruct H as (_ & _ & _ & H). apply IH in H. lia.
Qed.

Lemma span_app l1 l2 : span (l1 ++ l2) = span l1 + span l2.
Proof. induction l1 as [|b l1 IH]; simpl; lia. Qed.

(** ** Neighbours, as [coalesce] finds them *)

Section Neighbours.
Variables (st : state) (bs : list block) (idx : Z -> list Z).
Hypothesis WF : heap_wf st bs idx.

Lemma wf_elig b :
  In b bs ->
  INSIDE_HEAP st (bptr b) && (GET_ALLOC st (GET_HEADER (bptr b)) =? 0)
  = negb (balloc b).
Proof.
  intros Hb. destruct (wf_inside _ _ _ WF b Hb) as [-> _].
  rewrite (wf_GET_ALLOC _ _ _ WF b Hb). destruct (balloc b); reflexivity.
Qed.

Lemma wf_prev pre Pv B post :
  bs = pre ++ Pv :: B :: post -> GET_PREV st (bptr B) = bptr Pv.
Proof.
  intros E. pose proof (wf_tiles _ _ _ WF) as T. rewrite E in T.
  apply tiles_app in T. destruct T as (mid & _ & T). simpl in T.
  destruct T as (<- & _ & _ & HB & _).
  assert (HPv : In Pv bs) by (rewrite E; apply in_or_app; right; left; reflexivity).
  unfold GET_PREV. rewrite HB.
  rewrite (wf_footer_size _ _ _ WF Pv HPv). lia.
Qed.

Lemma wf_next_ptr B : In B bs -> GET_NEXT st (bptr B) = bptr B + bsize B.
Proof.
  intros HB. unfold GET_NEXT.
  change (bptr B - WSIZE) with (GET_HEADER (bptr B)).
  rewrite (wf_GET_SIZE _ _ _ WF B HB). reflexivity.
Qed.

Lemma wf_next_block pre B Nx post :
  bs = pre ++ B :: Nx :: post -> bptr Nx = bptr B + bsize B.
Proof.
  intros E. pose proof (wf_tiles _ _ _ WF) as T. rewrite E in T.
  apply tiles_app in T. destruct T as (mid & _ & T). simpl in T.
  destruct T as (<- & _ & _ & HN & _). exact HN.
Qed.

Lemma wf_next_end pre B :
  bs = pre ++ [B] -> INSIDE_HEAP st (bptr B + bsize B) = false.
Proof.
  intros E. pose proof (wf_tiles _ _ _ WF) as T. rewrite E in T.
  apply tiles_app in T. destruct T as (mid & _ & T). simpl in T.
  destruct T as (<- & _ & _ & HE).
  unfold INSIDE_HEAP. rewrite (wf_bp _ _ _ WF). apply andb_false_iff. right.
  apply Z.ltb_ge. lia.
Qed.
End Neighbours.

(** ** coalesce: unlinking the neighbours *)

Lemma set_heap_id st : set_heap st (heap st) = st.
Proof. destruct st; reflexivity. Qed.

Lemma filter_length_le {A} (f : A -> bool) (l : list A) :
  (length (filter f l) <= length l)%nat.
Proof. induction l as [|a l IH]; simpl; [lia|]. destruct (f a); simpl; lia. Qed.

Lemma wrap32_small x : 0 <= x < 2 ^ 32 -> wrap32 x = x.
Proof. intros H. unfold wrap32. apply Z.mod_small. exact H. Qed.

Lemma wrap64_small x : 0 <= x < 2 ^ 32 -> wrap64 x = x.
Proof.
  intros H. unfold wrap64. apply Z.mod_small.
  change (2 ^ 32) with 4294967296 in H.
  change (2 ^ 64) with 18446744073709551616. lia.
Qed.

Lemma coalesce_unlink_spec st bs idx pre Pv p s post fuel :
  heap_wf st bs idx ->
  (forall c q, 0 <= c < SEG_LIST_COUNT -> free_in bs c q -> In q (idx c)) ->
  bs = pre ++ Pv :: mkBlock p s true :: post ->
  (forall c, 0 <= c < SEG_LIST_COUNT -> (length (idx c) < fuel)%nat) ->
  let midL := free_nbr (Some Pv) in
  let midR := free_nbr (hd_error post) in
  exists m2 idx2,
    coalesce_unlink fuel st p s
    = Some (set_heap st m2, p - span midL, span midL + s + span midR)
    /\ heap_wf (set_heap st m2) bs idx2
    /\ (forall c q, In q (idx2 c) <->
                    In q (idx c) /\ ~ In q (map bptr (midL ++ midR)))
    /\ (forall x, away_from_links st idx x -> byte_at m2 x = byte_at (heap st) x).
Proof.
  intros WF Hcomplete E Hfuel midL midR.
  set (B := mkBlock p s true) in *.
  assert (HPv : In Pv bs) by (rewrite E; apply in_or_app; right; left; reflexivity).
  assert (HB : In B bs)
    by (rewrite E; apply in_or_app; right; right; left; reflexivity).
  destruct (wf_block _ _ _ WF Pv HPv) as (P1 & P2 & P3 & P4 & P5).
  destruct (wf_block _ _ _ WF B HB) as (B1 & B2 & B3 & B4 & B5).
  cbn [bptr bsize B] in B1, B2, B3, B4, B5.
  pose proof (wf_extent _ _ _ WF) as Hext. pose proof (wf_hp _ _ _ WF) as Hhp.
  assert (HpPv : p = bptr Pv + bsize Pv).
  { pose proof (wf_tiles _ _ _ WF) as T. rewrite E in T.
    apply tiles_app in T. destruct T as (mid & _ & T). simpl in T.
    destruct T as (<- & _ & _ & HB' & _). exact HB'. }
  (* the first half: the predecessor *)
  assert (Step1 : exists m1 idx1,
     (if negb (balloc Pv)
      then match seg_list_remove fuel st (bptr Pv) with
           | None => None
           | Some st1 => Some (st1, GET_PREV st1 p,
                               wrap64 (s + GET_SIZE st (GET_HEADER (bptr Pv))))
           end
      else Some (st, p, s))
     = Some (set_heap st m1, p - span midL, span midL + s)
     /\ heap_wf (set_heap st m1) bs idx1
     /\ (forall c q, In q (idx1 c) <-> In q (idx c) /\ ~ In q (map bptr midL))
     /\ (forall x, away_from_links st idx x -> byte_at m1 x = byte_at (heap st) x)).
  { unfold midL, free_nbr. destruct (balloc Pv) eqn:EPv; cbn [negb].
    - exists (heap st), idx. rewrite set_heap_id. cbn [span fold_right map].
      split; [apply f_equal; apply f_equal2; [apply f_equal2; [reflexivity | lia] | lia]|]. split; [exact WF|]. split; [|reflexivity].
      intros c q. simpl. tauto.
    - set (c := get_size_class (bsize Pv)).
      pose proof (get_size_class_range (bsize Pv)) as Hc. fold c in Hc.
      assert (Hin : In (bptr Pv) (idx c)).
      { apply Hcomplete; [exact Hc|]. exists (bsize Pv). split; [|reflexivity].
        rewrite <- EPv. destruct Pv; exact HPv. }
      destruct (seg_list_remove_spec st bs idx c (bptr Pv) fuel WF Hc Hin (Hfuel c Hc))
        as (m1 & Hrm & WF1 & _ & Hbytes).
      exists m1, (unlink (bptr Pv) idx). rewrite Hrm.
      change p with (bptr B) at 1. rewrite (wf_prev _ _ _ WF1 pre Pv B post E).
      rewrite (wf_GET_SIZE _ _ _ WF Pv HPv), wrap64_small by lia.
      cbn [span fold_right map].
      split; [apply f_equal; apply f_equal2; [apply f_equal2; [reflexivity | lia] | lia]|]. split; [exact WF1|]. split.
      + intros c' q. rewrite unlink_In. simpl. intuition.
      + intros x [Hs Hn]. apply Hbytes; assumption. }
  destruct Step1 as (m1 & idx1 & Hstep1 & WF1 & Hidx1 & Hbytes1).
  assert (Hsub1 : forall c, 0 <= c < SEG_LIST_COUNT ->
            (length (idx1 c) <= length (idx c))%nat).
  { intros c Hc. apply NoDup_incl_length; [apply (wf_nodup _ _ _ WF1 c Hc)|].
    intros q Hq. apply Hidx1 in Hq. tauto. }
  assert (Haway1 : forall x, away_from_links st idx x ->
            away_from_links (set_heap st m1) idx1 x).
  { intros x [Hs Hn]. split; [exact Hs|].
    intros c q Hc Hq. apply Hidx1 in Hq. apply (Hn c q Hc). tauto. }
  (* the second half: the successor *)
  unfold coalesce_unlink. cbv zeta.
  assert (GP : GET_PREV st p = bptr Pv) by exact (wf_prev _ _ _ WF pre Pv B post E).
  assert (GNx : GET_NEXT st p = p + s) by exact (wf_next_ptr _ _ _ WF B HB).
  rewrite GP, GNx, (wf_elig _ _ _ WF Pv HPv), Hstep1.
  unfold midR, free_nbr.
  destruct post as [|Nx post']; cbn [hd_error].
  - (* the block is the last one of the heap *)
    assert (HE : INSIDE_HEAP st (p + s) = false).
    { apply (wf_next_end _ _ _ WF (pre ++ [Pv]) B).
      rewrite E, <- app_assoc. reflexivity. }
    rewrite HE. cbn [andb]. exists m1, idx1. rewrite app_nil_r. cbn [span fold_right].
    split; [apply f_equal; apply f_equal2; [reflexivity | lia]|].
    split; [exact WF1|]. split; [exact Hidx1 | exact Hbytes1].
  - assert (HNx : In Nx bs).
    { rewrite E. apply in_or_app. right. right. right. left. reflexivity. }
    assert (ENx : bptr Nx = p + s).
    { apply (wf_next_block _ _ _ WF (pre ++ [Pv]) B Nx post').
      rewrite E, <- app_assoc. reflexivity. }
    destruct (wf_block _ _ _ WF Nx HNx) as (N1 & N2 & N3 & N4 & N5).
    rewrite <- ENx, (wf_elig _ _ _ WF Nx HNx).
    destruct (balloc Nx) eqn:EN; cbn [negb].
    + exists m1, idx1. rewrite app_nil_r. cbn [span fold_right].
      split; [apply f_equal; apply f_equal2; [reflexivity | lia]|].
      split; [exact WF1|]. split; [exact Hidx1 | exact Hbytes1].
    + set (c := get_size_class (bsize Nx)).
      pose proof (get_size_class_range (bsize Nx)) as Hc. fold c in Hc.
      assert (Hin : In (bptr Nx) (idx1 c)).
      { apply Hidx1. split.
        - apply Hcomplete; [exact Hc|]. exists (bsize Nx). split; [|reflexivity].
          rewrite <- EN. destruct Nx; exact HNx.
        - unfold midL, free_nbr. destruct (balloc Pv); simpl; [tauto|].
          intros [H | []]. lia. }
      assert (Hf1 : (length (idx1 c) < fuel)%nat).
      { pose proof (Hsub1 c Hc). pose proof (Hfuel c Hc). lia. }
      destruct (seg_list_remove_spec _ bs idx1 c (bptr Nx) fuel WF1 Hc Hin Hf1)
        as (m2 & Hrm & WF2 & _ & Hbytes2).
      assert (GN : GET_NEXT (set_heap st m1) p = bptr Nx).
      { rewrite ENx. exact (wf_next_ptr _ _ _ WF1 B HB). }
      rewrite GN, Hrm.
      rewrite (wf_GET_SIZE _ _ _ WF1 Nx HNx).
      assert (Hsp : span midL <= bsize Pv /\ 0 <= span midL).
      { unfold midL, free_nbr. destruct (balloc Pv); cbn [span fold_right]; lia. }
      rewrite wrap64_small by lia.
      exists m2, (unlink (bptr Nx) idx1). cbn [span fold_right].
      split; [apply f_equal; apply f_equal2; [reflexivity | lia]|].
      split; [exact WF2|]. split.
      * intros c' q. rewrite unlink_In, Hidx1, map_app, in_app_iff. simpl.
        intuition.
      * intros x Hx. rewrite Hbytes2.
        -- apply Hbytes1. exact Hx.
        -- apply (Haway1 x Hx).
        -- apply (Haway1 x Hx).
Qed.

(** ** coalesce: writing the merged block and indexing it *)

Lemma coalesce_finish st2 bs idx idx2 preL midL p s midR postR :
  heap_wf st2 bs idx2 ->
  no_adj_free bs ->
  (forall c q, 0 <= c < SEG_LIST_COUNT -> (In q (idx c) <-> free_in bs c q)) ->
  (forall c q, In q (idx2 c) <->
               In q (idx c) /\ ~ In q (map bptr (midL ++ midR))) ->
  bs = preL ++ (midL ++ mkBlock p s true :: midR) ++ postR ->
  preL <> [] -> last_alloc preL -> head_alloc postR ->
  (forall b, In b (midL ++ midR) -> balloc b = false) ->
  let start := p - span midL in
  let total := span midL + s + span midR in
  let M := mkBlock start total false in
  let st3 := PUT st2 (GET_HEADER start) (PACK total 0) in
  let st4 := PUT st3 (GET_FOOTER st3 start) (PACK total 0) in
  exists m4,
    seg_list_add st4 start = set_heap st2 m4
    /\ heap_ok (set_heap st2 m4) (preL ++ M :: postR)
         (link (get_size_class total) start idx2)
    /\ (forall x,
          (forall c, 0 <= c < SEG_LIST_COUNT ->
             x < seg_lists st2 + 8 * c \/ seg_lists st2 + 8 * c + 8 <= x) ->
          (x < start - 4 \/ start + 8 <= x) ->
          (x < start + total - 8 \/ start + total - 4 <= x) ->
          byte_at m4 x = byte_at (heap st2) x).
Proof.
  intros WF2 Hnoadj Hindex Hidx2 E Hpre Hlast Hhead Hfree start total M st3 st4.
  set (B := mkBlock p s true) in *.
  set (mid := midL ++ B :: midR) in *.
  (* the stretch that is merged *)
  pose proof (wf_tiles _ _ _ WF2) as T. rewrite E in T.
  apply tiles_app in T. destruct T as (a & T1 & T).
  apply tiles_app in T. destruct T as (e & Tm & T3).
  pose proof Tm as Tm'. unfold mid in Tm'.
  apply tiles_app in Tm'. destruct Tm' as (p' & TL & TB).
  pose proof (tiles_span _ _ _ TL) as SL.
  simpl in TB. destruct TB as (Ep & _ & _ & TR). cbn [bptr bsize B] in Ep, TR.
  subst p'. pose proof (tiles_span _ _ _ TR) as SR.
  assert (Ea : a = start) by (unfold start; lia).
  assert (Ee : e = start + total) by (unfold start, total; lia).
  pose proof (tiles_le _ _ _ T1) as L1. pose proof (tiles_le _ _ _ T3) as L3.
  pose proof (tiles_le _ _ _ TL) as LL. pose proof (tiles_le _ _ _ TR) as LR.
  pose proof (wf_hp _ _ _ WF2) as Hhp. pose proof (wf_extent _ _ _ WF2) as Hext.
  assert (HB : In B bs).
  { rewrite E. apply in_or_app. right. apply in_or_app. left.
    apply in_or_app. right. left. reflexivity. }
  destruct (wf_block _ _ _ WF2 B HB) as (B1 & B2 & B3 & B4 & B5).
  cbn [bptr bsize B] in B1, B2, B3, B4, B5.
  assert (Hstart8 : start mod 8 = 0).
  { rewrite <- Ea. apply (tiles_end_mod8 _ _ _ (wf_hp_mod8 _ _ _ WF2) T1). }
  assert (He8 : e mod 8 = 0).
  { apply (tiles_end_mod8 a mid); [rewrite Ea; exact Hstart8 | exact Tm]. }
  assert (Htot : 16 <= total < 2 ^ 32 /\ total mod 8 = 0).
  { split; [lia|]. rewrite Ee in He8. Z.div_mod_to_equations. lia. }
  destruct Htot as [Htot Htot8].
  rewrite Ea in T1, Tm. rewrite Ee in Tm, T3.
  assert (TM : tiles start [M] (start + total)).
  { simpl. unfold MIN_BLOCK_SIZE, DSIZE. repeat split; try reflexivity; lia. }
  (* indexed nodes are free blocks outside the merged stretch *)
  assert (Hkeep : forall c q, 0 <= c < SEG_LIST_COUNT -> In q (idx2 c) ->
            exists s', In (mkBlock q s' false) (preL ++ postR)
                       /\ get_size_class s' = c).
  { intros c q Hc Hq. apply Hidx2 in Hq. destruct Hq as [Hq Hnot].
    apply (Hindex c q Hc) in Hq. destruct Hq as (s' & Hin & Hk).
    exists s'. split; [|exact Hk]. rewrite E in Hin.
    apply in_app_or in Hin. destruct Hin as [Hin | Hin];
      [apply in_or_app; left; exact Hin|].
    apply in_app_or in Hin. destruct Hin as [Hin | Hin];
      [|apply in_or_app; right; exact Hin].
    exfalso. unfold mid in Hin. apply in_app_or in Hin.
    destruct Hin as [Hin | [Hin | Hin]].
    - apply Hnot. rewrite map_app. apply in_or_app. left.
      apply (in_map bptr) in Hin. exact Hin.
    - discriminate.
    - apply Hnot. rewrite map_app. apply in_or_app. right.
      apply (in_map bptr) in Hin. exact Hin. }
  assert (Houtside : forall b, In b (preL ++ postR) ->
            bptr b + 16 <= start \/ start + total <= bptr b).
  { intros b Hb. apply in_app_or in Hb. destruct Hb as [Hb | Hb].
    - destruct (tiles_In _ _ _ _ T1 Hb) as (_ & X & Y & _). lia.
    - destruct (tiles_In _ _ _ _ T3 Hb) as (X & _). lia. }
  (* the tags *)
  assert (Hst4 : st4 = set_heap st2 (write_all (heap st2) [M])).
  { unfold st4, st3. rewrite PUT_tags by (auto; lia). reflexivity. }
  assert (WF3 : heap_wf (set_heap st2 (write_all (heap st2) [M]))
                  (preL ++ [M] ++ postR) idx2).
  { apply (retag st2 preL mid [M] postR idx2 start (start + total));
      try assumption.
    - rewrite <- E. exact WF2.
    - intros c q Hc Hq. destruct (Hkeep c q Hc Hq) as (s' & Hin & Hk).
      exists s', false. split; [|exact Hk].
      apply in_app_or in Hin. apply in_or_app.
      destruct Hin as [Hin | Hin]; [left; exact Hin|].
      right. apply in_or_app. right. exact Hin. }
  assert (HM : In M (preL ++ [M] ++ postR)).
  { apply in_or_app. right. left. reflexivity. }
  assert (Hnew : forall c, 0 <= c < SEG_LIST_COUNT -> ~ In start (idx2 c)).
  { intros c Hc Hin. destruct (Hkeep c start Hc Hin) as (s' & Hb & _).
    apply Houtside in Hb. cbn [bptr] in Hb. lia. }
  pose proof (get_size_class_range total) as HcM.
  destruct (seg_list_add_spec _ _ _ M WF3 HM (Hnew _ HcM))
    as (m4 & Hadd & WF4 & Hbytes4).
  cbn [bptr bsize M] in Hadd, WF4, Hbytes4.
  exists m4. split; [rewrite Hst4; exact Hadd|]. split.
  - constructor.
    + exact WF4.
    + rewrite E in Hnoadj.
      apply noadj_join; try assumption.
      * apply (noadj_app_l _ _ Hnoadj).
      * apply noadj_app_r in Hnoadj. apply noadj_app_r in Hnoadj. exact Hnoadj.
    + intros c q Hc. rewrite link_In. split.
      * intros [[-> ->] | Hq].
        -- exists total. split; [|reflexivity]. apply in_or_app. right. left.
           reflexivity.
        -- destruct (Hkeep c q Hc Hq) as (s' & Hin & Hk).
           exists s'. split; [|exact Hk].
           apply in_app_or in Hin. apply in_or_app.
           destruct Hin as [Hin | Hin]; [left; exact Hin | right; right; exact Hin].
      * intros (s' & Hin & Hk).
        apply in_app_or in Hin. destruct Hin as [Hin | [Hin | Hin]].
        -- right. apply Hidx2. split.
           ++ apply (Hindex c q Hc). exists s'. split; [|exact Hk].
              rewrite E. apply in_or_app. left. exact Hin.
           ++ intros Hq. apply in_map_iff in Hq. destruct Hq as (b & Eb & Hb).
              assert (Hbm : In b mid).
              { unfold mid. apply in_app_or in Hb. apply in_or_app.
                destruct Hb as [Hb | Hb]; [left; exact Hb | right; right; exact Hb]. }
              destruct (tiles_In _ _ _ _ Tm Hbm) as (X & _).
              destruct (tiles_In _ _ _ _ T1 Hin) as (_ & Y & Z & _).
              cbn [bptr bsize] in Y, Z. lia.
        -- left. injection Hin as <- <-. split; [symmetry; exact Hk | reflexivity].
        -- right. apply Hidx2. split.
           ++ apply (Hindex c q Hc). exists s'. split; [|exact Hk].
              rewrite E. apply in_or_app. right. apply in_or_app. right. exact Hin.
           ++ intros Hq. apply in_map_iff in Hq. destruct Hq as (b & Eb & Hb).
              assert (Hbm : In b mid).
              { unfold mid. apply in_app_or in Hb. apply in_or_app.
                destruct Hb as [Hb | Hb]; [left; exact Hb | right; right; exact Hb]. }
              destruct (tiles_In _ _ _ _ Tm Hbm) as (_ & X & Z & _).
              destruct (tiles_In _ _ _ _ T3 Hin) as (Y & _).
              cbn [bptr bsize] in Y. lia.
  - intros x Hs Hx1 Hx2. rewrite Hbytes4; [|exact Hs|lia].
    cbn [heap set_heap]. change (write_all (heap st2) [M])
      with (write_tags (heap st2) start total 0).
    apply byte_at_write_tags_other; lia.
Qed.

(** ** mm_free *)

Lemma fuel_for_index (idx : Z -> list Z) fuel :
  (S (length (flat_map idx (classes_from 0))) <= fuel)%nat ->
  forall c, 0 <= c < SEG_LIST_COUNT -> (length (idx c) < fuel)%nat.
Proof.
  intros H c Hc.
  pose proof (length_flat_map_ge idx _ _ (classes_from_0_In _ Hc)). lia.
Qed.

Lemma live_split bs p st idx :
  heap_wf st bs idx -> live_in bs p ->
  exists pre Pv s post, bs = pre ++ Pv :: mkBlock p s true :: post.
Proof.
  intros WF (s & Hin). destruct (wf_first _ _ _ WF) as (rest & ->).
  simpl in Hin. destruct (in_split _ _ Hin) as (r1 & post & ->).
  destruct (@exists_last _ (mkBlock (mem_hp st) MIN_BLOCK_SIZE true :: r1))
    as (pre & Pv & Epre); [discriminate|].
  exists pre, Pv, s, post.
  change (mkBlock (mem_hp st) MIN_BLOCK_SIZE true :: r1 ++ mkBlock p s true :: post)
    with ((mkBlock (mem_hp st) MIN_BLOCK_SIZE true :: r1) ++ mkBlock p s true :: post).
  rewrite Epre, <- app_assoc. reflexivity.
Qed.

(** [mm_free] on a live allocation of a well-formed heap. *)
Lemma skipn_incl {A} n (l : list A) x : In x (skipn n l) -> In x l.
Proof.
  revert l. induction n as [|n IH]; intros l H; [exact H|].
  destruct l as [|y l']; [destruct H|]. right. apply IH. exact H.
Qed.

Lemma mm_free_full st bs idx pre Pv p s post fuel :
  heap_ok st bs idx ->
  bs = pre ++ Pv :: mkBlock p s true :: post ->
  (forall c, 0 <= c < SEG_LIST_COUNT -> (length (idx c) < fuel)%nat) ->
  let midL := free_nbr (Some Pv) in
  let midR := free_nbr (hd_error post) in
  let M := mkBlock (p - span midL) (span midL + s + span midR) false in
  let bs' := (if balloc Pv then pre ++ [Pv] else pre)
             ++ M :: skipn (length midR) post in
  exists m' idx',
    mm_free fuel st p = Some (set_heap st m')
    /\ heap_ok (set_heap st m') bs' idx'
    /\ In (bptr M) (idx' (get_size_class (bsize M)))
    /\ (forall b, balloc b = true -> (In b bs' <-> In b bs /\ bptr b <> p))
    /\ frame bs' (heap st) m'
    /\ (forall x, outside_heap st x -> byte_at m' x = byte_at (heap st) x).
Proof.
  intros OK E Hfuel midL midR M bs'. pose proof (ok_wf _ _ _ OK) as WF.
  set (B := mkBlock p s true) in *.
  assert (HB : In B bs)
    by (rewrite E; apply in_or_app; right; right; left; reflexivity).
  destruct (wf_inside _ _ _ WF B HB) as [_ Hp0]. cbn [bptr B] in Hp0.
  destruct (wf_block _ _ _ WF B HB) as (_ & _ & B3 & _). cbn [bsize B] in B3.
  pose proof (wf_GET_SIZE _ _ _ WF B HB) as Hsz. cbn [bptr bsize B] in Hsz.
  destruct (coalesce_unlink_spec st bs idx pre Pv p s post fuel WF
              (fun c q Hc => proj2 (ok_index _ _ _ OK c q Hc)) E
              Hfuel)
    as (m2 & idx2 & Hunl & WF2 & Hidx2 & Hfr2).
  fold midL midR in Hunl, Hidx2.
  set (preL := if balloc Pv then pre ++ [Pv] else pre).
  set (postR := skipn (length midR) post).
  assert (E' : bs = preL ++ (midL ++ B :: midR) ++ postR).
  { rewrite E. unfold preL, postR, midL, midR, free_nbr.
    destruct (balloc Pv); destruct post as [|Nx post']; cbn [hd_error];
      try destruct (balloc Nx); cbn [length skipn app];
      rewrite <- ?app_assoc; reflexivity. }
  assert (HpreL : preL <> []).
  { unfold preL. destruct (balloc Pv) eqn:EPv.
    - destruct pre; discriminate.
    - destruct pre as [|b0 pre']; [|discriminate].
      destruct (wf_first _ _ _ WF) as (rest & Hfirst). rewrite E in Hfirst.
      simpl in Hfirst. injection Hfirst as -> _. discriminate. }
  assert (Hlast : last_alloc preL).
  { unfold preL. destruct (balloc Pv) eqn:EPv.
    - apply last_alloc_app. exact EPv.
    - destruct (@exists_last _ pre) as (l & a & ->).
      + intros ->. apply HpreL. unfold preL. try rewrite EPv. reflexivity.
      + apply (last_alloc_before l a Pv (B :: post)); [|exact EPv].
        rewrite <- E. apply (ok_noadj _ _ _ OK). }
  assert (Hhead : head_alloc postR).
  { unfold postR, midR, free_nbr.
    destruct post as [|Nx post']; cbn [hd_error length skipn].
    - intros b l' Hb. discriminate.
    - destruct (balloc Nx) eqn:EN; cbn [length skipn].
      + intros b l' Hb. injection Hb as <- _. exact EN.
      + intros b l' ->.
        pose proof (ok_noadj _ _ _ OK) as N. rewrite E in N.
        change (pre ++ Pv :: B :: Nx :: b :: l')
          with (pre ++ [Pv; B] ++ Nx :: b :: l') in N.
        rewrite app_assoc in N.
        destruct (noadj_pair _ _ _ _ N) as [H | H]; congruence. }
  assert (Hfree : forall b, In b (midL ++ midR) -> balloc b = false).
  { intros b Hb. unfold midL, midR, free_nbr in Hb.
    apply in_app_or in Hb. destruct Hb as [Hb | Hb].
    - destruct (balloc Pv) eqn:EPv; [destruct Hb|].
      destruct Hb as [<- | []]. exact EPv.
    - destruct post as [|Nx post']; cbn [hd_error] in Hb; [destruct Hb|].
      destruct (balloc Nx) eqn:EN; [destruct Hb|].
      destruct Hb as [<- | []]. exact EN. }
  destruct (coalesce_finish (set_heap st m2) bs idx idx2 preL midL p s midR postR
              WF2 (ok_noadj _ _ _ OK) (ok_index _ _ _ OK) Hidx2 E' HpreL Hlast
              Hhead Hfree)
    as (m4 & Hadd & OK4 & Hfr4).
  change (set_heap (set_heap st m2) m4) with (set_heap st m4) in Hadd, OK4.
  fold M in OK4. fold bs' in OK4.
  assert (Hblocks : forall b, balloc b = true ->
            (In b bs' <-> In b bs /\ bptr b <> p)).
  { intros b Hal. pose proof (wf_tiles _ _ _ WF) as T.
    assert (Hsides : In b (preL ++ postR) -> In b bs /\ bptr b <> p).
    { intros Hb. split.
      - rewrite E'. apply in_app_or in Hb. apply in_or_app.
        destruct Hb as [Hb | Hb]; [left; exact Hb|].
        right. apply in_or_app. right. exact Hb.
      - pose proof (wf_tiles _ _ _ (ok_wf _ _ _ OK4)) as T'.
        unfold bs' in T'. fold preL postR in T'.
        pose proof (tiles_sides _ _ _ _ _ _ T' Hb) as Hne.
        intros Hp. rewrite E in T.
        change (pre ++ Pv :: B :: post) with (pre ++ [Pv] ++ B :: post) in T.
        rewrite app_assoc in T.
        assert (HbB : In b ((pre ++ [Pv]) ++ post) -> False).
        { intros Hin. apply (tiles_sides _ _ _ _ _ _ T Hin). exact Hp. }
        apply HbB. apply in_app_or in Hb. apply in_or_app.
        destruct Hb as [Hb | Hb].
        + left. unfold preL in Hb. destruct (balloc Pv); [exact Hb|].
          apply in_or_app. left. exact Hb.
        + right. apply (skipn_incl _ _ _ Hb). }
    split.
    - intros Hb. unfold bs' in Hb. fold preL postR in Hb.
      apply Hsides. apply in_app_or in Hb. apply in_or_app.
      destruct Hb as [Hb | [Hb | Hb]]; [left; exact Hb | | right; exact Hb].
      subst b. discriminate.
    - intros [Hb Hne]. unfold bs'. fold preL postR.
      rewrite E' in Hb. apply in_app_or in Hb. apply in_or_app.
      destruct Hb as [Hb | Hb]; [left; exact Hb|]. right. right.
      apply in_app_or in Hb. destruct Hb as [Hb | Hb]; [|exact Hb].
      exfalso. apply in_app_or in Hb. destruct Hb as [Hb | [Hb | Hb]].
      + rewrite (Hfree b) in Hal by (apply in_or_app; left; exact Hb).
        discriminate.
      + subst b. apply Hne. reflexivity.
      + rewrite (Hfree b) in Hal by (apply in_or_app; right; exact Hb).
        discriminate. }
  exists m4,
         (link (get_size_class (span midL + s + span midR)) (p - span midL) idx2).
  split; [|split; [|split; [|split; [|split]]]].
  6:{ intros x Hx. pose proof (ok_wf _ _ _ OK4) as WF4.
      assert (HM : In M bs').
      { unfold bs'. apply in_or_app. right. left. reflexivity. }
      assert (Hx4 : outside_heap (set_heap st m4) x) by exact Hx.
      destruct (outside_off_block _ _ _ x M WF4 Hx4 HM) as [H1 H2].
      cbn [bptr bsize M] in H1, H2.
      rewrite Hfr4.
      - cbn [heap set_heap]. apply Hfr2.
        apply (outside_away st bs idx x WF Hx).
      - intros c Hc. apply (outside_off_slots _ _ _ x c WF4 Hx4 Hc).
      - exact H1.
      - exact H2. }
  - unfold mm_free.
    replace (p =? NULL) with false by (symmetry; apply Z.eqb_neq; exact Hp0).
    rewrite Hsz. unfold coalesce.
    replace (p =? NULL) with false by (symmetry; apply Z.eqb_neq; exact Hp0).
    replace (s =? 0) with false by (symmetry; apply Z.eqb_neq; lia).
    cbn [orb]. rewrite Hunl. unfold coalesce_write. cbv zeta.
    rewrite Hadd. reflexivity.
  - exact OK4.
  - cbn [bptr bsize M]. apply link_In. left. split; reflexivity.
  - exact Hblocks.
  - intros b x Hb Hal Hx.
    pose proof (ok_wf _ _ _ OK4) as WF4.
    assert (HM : In M bs').
    { unfold bs'. apply in_or_app. right. left. reflexivity. }
    destruct (payload_off_tags _ _ _ WF4 b x Hb Hx M HM) as [H1 H2].
    assert (Hne : M <> b) by (intros <-; discriminate).
    pose proof (payload_off_block _ _ _ WF4 b x Hb Hx M HM Hne) as H3.
    cbn [bptr bsize M] in H1, H2, H3.
    rewrite Hfr4.
    + cbn [heap set_heap]. apply Hfr2.
      apply (payload_away st bs idx b x OK); [|exact Hal|exact Hx].
      apply (Hblocks b Hal). exact Hb.
    + intros c Hc. right.
      exact (payload_off_slots _ _ _ WF4 b x Hb Hx c Hc).
    + lia.
    + lia.
Qed.

Lemma mm_free_spec st bs idx p :
  heap_ok st bs idx -> live_in bs p ->
  exists pre Pv s post,
    bs = pre ++ Pv :: mkBlock p s true :: post /\
    let midL := free_nbr (Some Pv) in
    let midR := free_nbr (hd_error post) in
    let M := mkBlock (p - span midL) (span midL + s + span midR) false in
    let bs' := (if balloc Pv then pre ++ [Pv] else pre)
               ++ M :: skipn (length midR) post in
    exists fuel0, forall fuel, (fuel0 <= fuel)%nat ->
    exists st' idx',
      mm_free fuel st p = Some st'
      /\ heap_ok st' bs' idx'
      /\ no_adj_free bs'
      /\ tags_ok (heap st') M
      /\ In (bptr M) (idx' (get_size_class (bsize M))).
Proof.
  intros OK Hlive. pose proof (ok_wf _ _ _ OK) as WF.
  destruct (live_split _ _ _ _ WF Hlive) as (pre & Pv & s & post & E).
  exists pre, Pv, s, post. split; [exact E|]. intros midL midR M bs'.
  exists (S (length (flat_map idx (classes_from 0)))). intros fuel Hfuel.
  destruct (mm_free_full st bs idx pre Pv p s post fuel OK E
              (fuel_for_index idx fuel Hfuel))
    as (m' & idx' & Hfree & OK' & Hin & _).
  exists (set_heap st m'), idx'.
  split; [exact Hfree|]. split; [exact OK'|].
  split; [apply (ok_noadj _ _ _ OK')|]. split; [|exact Hin].
  apply (wf_tags_of _ _ _ (ok_wf _ _ _ OK')).
  apply in_or_app. right. left. reflexivity.
Qed.

(** [mm_free] on a live allocation, in a well-formed heap, returns
    and leaves a well-formed heap in which no two adjacent blocks are both
    free.  The freed block is merged with its predecessor when that one is
    free (the merged block then starts at the predecessor) and with its
    successor when there is one inside the heap and it is free; both tags
    of the merged block carry the combined size and the free flag, and the
    merged block is in the index under the class of the combined size. *)
Theorem release_coalesces st bs idx p :
  heap_ok st bs idx -> live_in bs p ->
  exists pre Pv s post,
    bs = pre ++ Pv :: mkBlock p s true :: post /\
    let midL := free_nbr (Some Pv) in
    let midR := free_nbr (hd_error post) in
    let M := mkBlock (p - span midL) (span midL + s + span midR) false in
    let bs' := (if balloc Pv then pre ++ [Pv] else pre)
               ++ M :: skipn (length midR) post in
    exists fuel0, forall fuel, (fuel0 <= fuel)%nat ->
    exists st' idx',
      mm_free fuel st p = Some st'
      /\ heap_ok st' bs' idx'
      /\ no_adj_free bs'
      /\ tags_ok (heap st') M
      /\ In (bptr M) (idx' (get_size_class (bsize M))).
Proof. exact (mm_free_spec st bs idx p). Qed.

(** ** mm_malloc on a fit *)

Lemma noadj_alloc_mid l1 M l2 :
  no_adj_free l1 -> balloc M = true -> no_adj_free l2 ->
  no_adj_free (l1 ++ M :: l2).
Proof.
  intros N1 HM N2. induction l1 as [|a l1 IH].
  - simpl. split; [|exact N2]. destruct l2; [trivial | left; exact HM].
  - simpl in N1. destruct N1 as [Na N1]. cbn [app no_adj_free]. split.
    + destruct l1 as [|b l1]; simpl; [right; exact HM | exact Na].
    + apply IH. exact N1.
Qed.

Lemma noadj_head_alloc b l : no_adj_free (b :: l) -> balloc b = false -> head_alloc l.
Proof.
  intros [H _] Hb b' l' ->. destruct H as [H | H]; congruence.
Qed.

Section Fit.
Variables (st : state) (bs : list block) (idx : Z -> list Z).
Hypothesis OK : heap_ok st bs idx.
Variables (l1 l2 : list block) (j sj : Z).
Hypothesis E : bs = l1 ++ mkBlock j sj false :: l2.
Variable fuel : nat.
Hypothesis Hfuel : forall c, 0 <= c < SEG_LIST_COUNT -> (length (idx c) < fuel)%nat.

Let WF : heap_wf st bs idx := ok_wf _ _ _ OK.
Let Bj := mkBlock j sj false.

Lemma fit_in_bs : In Bj bs.
Proof. rewrite E. apply in_or_app. right. left. reflexivity. Qed.

Lemma fit_indexed : In j (idx (get_size_class sj)).
Proof.
  apply (ok_index _ _ _ OK); [apply get_size_class_range|].
  exists sj. split; [exact fit_in_bs | reflexivity].
Qed.

Lemma fit_tiles :
  tiles (mem_hp st) l1 j /\ tiles (j + sj) l2 (mem_brk st + 8)
  /\ tiles j [Bj] (j + sj).
Proof.
  pose proof (wf_tiles _ _ _ WF) as T. rewrite E in T.
  apply tiles_app in T. destruct T as (a & T1 & T). simpl in T.
  destruct T as (Ea & S1 & S2 & T2). cbn [bptr bsize] in Ea, S1, S2, T2.
  subst a. repeat split; try assumption; reflexivity.
Qed.

Lemma fit_l1_nonempty : l1 <> [].
Proof.
  intros ->. destruct (wf_first _ _ _ WF) as (rest & Hfirst).
  rewrite E in Hfirst. simpl in Hfirst. discriminate.
Qed.

(** Blocks on either side of the fit lie apart from it. *)
Lemma fit_sides b :
  In b (l1 ++ l2) ->
  (bptr b + bsize b <= j \/ j + sj <= bptr b) /\ 16 <= bsize b.
Proof.
  destruct fit_tiles as (T1 & T2 & _). intros Hb.
  apply in_app_or in Hb. destruct Hb as [Hb | Hb].
  - destruct (tiles_In _ _ _ _ T1 Hb) as (_ & X & Y & _). lia.
  - destruct (tiles_In _ _ _ _ T2 Hb) as (X & _ & Y & _). lia.
Qed.

(** The nodes other than the fit are blocks on either side of it. *)
Lemma fit_other_nodes c q :
  0 <= c < SEG_LIST_COUNT -> In q (idx c) -> q <> j ->
  exists s', In (mkBlock q s' false) (l1 ++ l2) /\ get_size_class s' = c.
Proof.
  intros Hc Hq Hne. apply (ok_index _ _ _ OK c q Hc) in Hq.
  destruct Hq as (s' & Hin & Hk). exists s'. split; [|exact Hk].
  rewrite E in Hin. apply in_app_or in Hin. apply in_or_app.
  destruct Hin as [Hin | [Hin | Hin]]; [left; exact Hin | | right; exact Hin].
  injection Hin as <- _. contradiction.
Qed.

Lemma fit_sides_indexed c q s' :
  0 <= c < SEG_LIST_COUNT -> In (mkBlock q s' false) (l1 ++ l2) ->
  get_size_class s' = c -> In q (unlink j idx c).
Proof.
  intros Hc Hin Hk. apply unlink_In. split.
  - apply (ok_index _ _ _ OK c q Hc). exists s'. split; [|exact Hk].
    rewrite E. apply in_app_or in Hin. apply in_or_app.
    destruct Hin as [Hin | Hin]; [left; exact Hin | right; right; exact Hin].
  - destruct (fit_sides _ Hin) as [H S]. cbn [bptr bsize] in H, S.
    destruct (wf_block _ _ _ WF Bj fit_in_bs) as (_ & _ & X & _).
    cbn [bsize Bj] in X. lia.
Qed.

(** The state in which the whole fit has been tagged allocated and is
    still linked. *)
Lemma absorb_placed_wf :
  malloc_absorb_placed st j
  = set_heap st (write_all (heap st) [mkBlock j sj true])
  /\ heap_wf (set_heap st (write_all (heap st) [mkBlock j sj true]))
       (l1 ++ [mkBlock j sj true] ++ l2) idx.
Proof.
  destruct fit_tiles as (T1 & T2 & Tj).
  destruct (wf_block _ _ _ WF Bj fit_in_bs) as (B1 & B2 & B3 & B4 & B5).
  cbn [bptr bsize Bj] in B1, B2, B3, B4, B5.
  destruct (wf_inside _ _ _ WF Bj fit_in_bs) as [_ Hj0]. cbn [bptr Bj] in Hj0.
  pose proof (wf_GET_SIZE _ _ _ WF Bj fit_in_bs) as Hsz. cbn [bptr bsize Bj] in Hsz.
  set (Bj' := mkBlock j sj true). split.
  { unfold malloc_absorb_placed. rewrite Hsz.
    rewrite place_tags by (try assumption; lia). reflexivity. }
  apply (retag st l1 [Bj] [Bj'] l2 idx j (j + sj)); try assumption.
  - pose proof WF as W. rewrite E in W. exact W.
  - exact fit_l1_nonempty.
  - intros c q Hc Hq. destruct (Z.eq_dec q j) as [-> | Hne].
    + destruct (wf_node _ _ _ WF c j Hc Hq) as (b & Hb & Hp & Hk).
      assert (b = Bj)
        by (apply (tiles_ptr_inj _ _ _ _ _ (wf_tiles _ _ _ WF) Hb fit_in_bs);
            exact Hp).
      subst b. exists sj, true. split; [|exact Hk].
      apply in_or_app. right. left. reflexivity.
    + destruct (fit_other_nodes c q Hc Hq Hne) as (s' & Hin & Hk).
      exists s', false. split; [|exact Hk].
      apply in_app_or in Hin. apply in_or_app.
      destruct Hin as [Hin | Hin]; [left; exact Hin | right; right; exact Hin].
Qed.

(** The whole fit is taken. *)
Lemma malloc_absorb_spec :
  exists m',
    malloc_absorb fuel st j = Some (set_heap st m')
    /\ heap_ok (set_heap st m') (l1 ++ mkBlock j sj true :: l2) (unlink j idx)
    /\ frame bs (heap st) m'
    /\ (forall x, outside_heap st x -> byte_at m' x = byte_at (heap st) x).
Proof.
  destruct absorb_placed_wf as [Hplaced WFp].
  pose proof (get_size_class_range sj) as Hc.
  destruct (seg_list_remove_spec _ _ idx _ j fuel WFp Hc fit_indexed (Hfuel _ Hc))
    as (m' & Hrm & WF' & _ & Hbytes).
  exists m'. split; [|split; [|split]].
  3:{ intros b x Hb Hal Hx.
      destruct (payload_away st bs idx b x OK Hb Hal Hx) as [A1 A2].
      rewrite Hbytes by assumption. cbn [heap set_heap].
      apply byte_at_write_all_other. intros b' [<- | []]. cbn [bptr bsize].
      exact (payload_off_tags st bs idx WF b x Hb Hx Bj fit_in_bs). }
  3:{ intros x Hx.
      destruct (outside_away st bs idx x WF Hx) as [A1 A2].
      rewrite Hbytes by assumption. cbn [heap set_heap].
      apply byte_at_write_all_other. intros b' [<- | []]. cbn [bptr bsize].
      destruct (outside_off_block st bs idx x Bj WF Hx fit_in_bs) as [H1 H2].
      cbn [bptr bsize Bj] in H1, H2. lia. }
  - unfold malloc_absorb. rewrite Hplaced. exact Hrm.
  - pose proof (ok_noadj _ _ _ OK) as N. rewrite E in N.
    constructor.
    + exact WF'.
    + apply noadj_alloc_mid; [apply (noadj_app_l _ _ N) | reflexivity |].
      apply noadj_app_r in N. simpl in N. apply N.
    + intros c q Hc'. split.
      * intros Hq. apply unlink_In in Hq. destruct Hq as [Hq Hne].
        destruct (fit_other_nodes c q Hc' Hq Hne) as (s' & Hin & Hk).
        exists s'. split; [|exact Hk].
        apply in_app_or in Hin. apply in_or_app.
        destruct Hin as [Hin | Hin]; [left; exact Hin | right; right; exact Hin].
      * intros (s' & Hin & Hk). apply (fit_sides_indexed c q s' Hc'); [|exact Hk].
        apply in_app_or in Hin. apply in_or_app.
        destruct Hin as [Hin | [Hin | Hin]];
          [left; exact Hin | discriminate | right; exact Hin].
Qed.
(** The fit is split: the front is allocated, the rest stays free. *)
Lemma malloc_split_spec bsz :
  16 <= bsz -> bsz mod 8 = 0 -> 16 <= sj - bsz ->
  exists m',
    malloc_split fuel st j bsz = Some (set_heap st m')
    /\ heap_ok (set_heap st m')
         (l1 ++ mkBlock j bsz true :: mkBlock (j + bsz) (sj - bsz) false :: l2)
         (link (get_size_class (sj - bsz)) (j + bsz) (unlink j idx))
    /\ frame bs (heap st) m'
    /\ (forall x, outside_heap st x -> byte_at m' x = byte_at (heap st) x).
Proof.
  intros Hb16 Hb8 Hrem.
  destruct fit_tiles as (T1 & T2 & Tj).
  destruct (wf_block _ _ _ WF Bj fit_in_bs) as (B1 & B2 & B3 & B4 & B5).
  cbn [bptr bsize Bj] in B1, B2, B3, B4, B5.
  destruct (wf_inside _ _ _ WF Bj fit_in_bs) as [_ Hj0]. cbn [bptr Bj] in Hj0.
  pose proof (wf_GET_SIZE _ _ _ WF Bj fit_in_bs) as Hsz. cbn [bptr bsize Bj] in Hsz.
  set (rem := sj - bsz) in *.
  assert (Hrem8 : rem mod 8 = 0) by (unfold rem; Z.div_mod_to_equations; lia).
  set (N1 := mkBlock j bsz true). set (N2 := mkBlock (j + bsz) rem false).
  pose proof (get_size_class_range sj) as Hc.
  destruct (seg_list_remove_spec _ _ idx _ j fuel WF Hc fit_indexed (Hfuel _ Hc))
    as (m1 & Hrm & WF1 & _ & Hbytes1).
  set (st1 := set_heap st m1) in *.
  assert (Hst4 : forall st2, st2 = place st1 j bsz ->
     PUT (PUT st2 (GET_HEADER (GET_SIZE st2 (GET_HEADER j) + j)) (PACK rem 0))
         (GET_FOOTER (PUT st2 (GET_HEADER (GET_SIZE st2 (GET_HEADER j) + j))
                              (PACK rem 0))
                     (GET_SIZE st2 (GET_HEADER j) + j)) (PACK rem 0)
     = set_heap st1 (write_all (heap st1) [N1; N2])).
  { intros st2 ->. rewrite place_tags by (try assumption; lia).
    assert (Hg : GET_SIZE (set_heap st1 (write_tags (heap st1) j bsz 1))
                   (GET_HEADER j) = bsz).
    { apply (GET_SIZE_of_tag _ _ _ 1); auto.
      unfold GET, GET_HEADER, WSIZE. cbn [heap set_heap].
      apply load4_write_tags_header; auto; lia. }
    rewrite Hg, PUT_tags by (auto; lia).
    replace (bsz + j) with (j + bsz) by lia. reflexivity. }
  assert (WF4 : heap_wf (set_heap st1 (write_all (heap st1) [N1; N2]))
                  (l1 ++ [N1; N2] ++ l2) (unlink j idx)).
  { apply (retag st1 l1 [Bj] [N1; N2] l2 (unlink j idx) j (j + sj));
      try assumption.
    - pose proof WF1 as W. rewrite E in W. exact W.
    - exact fit_l1_nonempty.
    - simpl. unfold MIN_BLOCK_SIZE, DSIZE, rem.
      repeat split; try reflexivity; try assumption; lia.
    - intros c q Hc' Hq. apply unlink_In in Hq. destruct Hq as [Hq Hne].
      destruct (fit_other_nodes c q Hc' Hq Hne) as (s' & Hin & Hk).
      exists s', false. split; [|exact Hk].
      apply in_app_or in Hin. apply in_or_app.
      destruct Hin as [Hin | Hin]; [left; exact Hin|].
      right. right. right. exact Hin. }
  assert (HN2 : In N2 (l1 ++ [N1; N2] ++ l2)).
  { apply in_or_app. right. right. left. reflexivity. }
  assert (Hnew : ~ In (bptr N2) (unlink j idx (get_size_class (bsize N2)))).
  { cbn [bptr bsize N2]. intros Hin. apply unlink_In in Hin.
    destruct Hin as [Hin Hne].
    destruct (fit_other_nodes _ _ (get_size_class_range rem) Hin Hne)
      as (s' & Hb & _).
    destruct (fit_sides _ Hb) as [H S]. cbn [bptr bsize] in H, S. lia. }
  destruct (seg_list_add_spec _ _ _ N2 WF4 HN2 Hnew) as (m5 & Hadd & WF5 & Hbytes5).
  cbn [bptr bsize N2] in Hadd, WF5, Hbytes5.
  exists m5. split; [|split; [|split]].
  4:{ intros x Hx.
      destruct (outside_away st bs idx x WF Hx) as [A1 A2].
      pose proof (wf_hp _ _ _ WF) as Hhp0.
      assert (Hx' : x < j - 8 \/ j + sj - 4 <= x)
        by (unfold outside_heap in Hx; lia).
      rewrite Hbytes5; [|exact A1 | unfold rem in *; lia].
      cbn [heap set_heap]. rewrite byte_at_write_all_other.
      - unfold st1. cbn [heap set_heap]. apply Hbytes1; assumption.
      - intros b' [<- | [<- | []]]; cbn [bptr bsize N1 N2]; unfold rem in *; lia. }
  3:{ intros b x Hb Hal Hx.
      destruct (payload_away st bs idx b x OK Hb Hal Hx) as [A1 A2].
      assert (Hne : Bj <> b) by (intros <-; discriminate).
      pose proof (payload_outside st bs idx WF b x Hb Hx Bj fit_in_bs Hne) as Hout.
      cbn [bptr bsize Bj] in Hout.
      rewrite Hbytes5; [|exact A1 | unfold rem in *; lia].
      cbn [heap set_heap]. rewrite byte_at_write_all_other.
      - unfold st1. cbn [heap set_heap]. apply Hbytes1; assumption.
      - intros b' [<- | [<- | []]]; cbn [bptr bsize N1 N2]; unfold rem in *; lia. }
  - unfold malloc_split. rewrite Hrm, Hsz, wrap64_small by (unfold rem in *; lia).
    unfold split_write. cbv zeta. fold st1. fold rem.
    rewrite (Hst4 (place st1 j bsz) eq_refl).
    assert (Hg : GET_SIZE (place st1 j bsz) (GET_HEADER j) = bsz).
    { rewrite place_tags by (try assumption; lia).
      apply (GET_SIZE_of_tag _ _ _ 1); auto.
      unfold GET, GET_HEADER, WSIZE. cbn [heap set_heap].
      apply load4_write_tags_header; auto; lia. }
    rewrite Hg. replace (bsz + j) with (j + bsz) by lia.
    rewrite Hadd. reflexivity.
  - pose proof (ok_noadj _ _ _ OK) as N. rewrite E in N.
    constructor.
    + exact WF5.
    + apply noadj_alloc_mid; [apply (noadj_app_l _ _ N) | reflexivity |].
      apply noadj_app_r in N.
      pose proof (noadj_head_alloc _ _ N eq_refl) as Hh.
      simpl in N. destruct N as [_ N]. cbn [no_adj_free]. split; [|exact N].
      destruct l2 as [|b l2']; [trivial|]. right. apply (Hh b l2' eq_refl).
    + intros c q Hc'. rewrite link_In. split.
      * intros [[-> ->] | Hq].
        -- exists rem. split; [|reflexivity].
           apply in_or_app. right. right. left. reflexivity.
        -- apply unlink_In in Hq. destruct Hq as [Hq Hne].
           destruct (fit_other_nodes c q Hc' Hq Hne) as (s' & Hin & Hk).
           exists s'. split; [|exact Hk].
           apply in_app_or in Hin. apply in_or_app.
           destruct Hin as [Hin | Hin]; [left; exact Hin|].
           right. right. right. exact Hin.
      * intros (s' & Hin & Hk).
        apply in_app_or in Hin.
        destruct Hin as [Hin | [Hin | [Hin | Hin]]].
        -- right. apply (fit_sides_indexed c q s' Hc'); [|exact Hk].
           apply in_or_app. left. exact Hin.
        -- discriminate.
        -- left. injection Hin as <- <-. split; [symmetry; exact Hk | reflexivity].
        -- right. apply (fit_sides_indexed c q s' Hc'); [|exact Hk].
           apply in_or_app. right. exact Hin.
Qed.
End Fit.

(** ** What the fit finder finds in a well-formed heap *)

Lemma fits_block st bs idx b size :
  heap_wf st bs idx -> In b bs ->
  fits st size (bptr b) = negb (balloc b) && (size <=? bsize b).
Proof.
  intros WF Hb. unfold fits.
  rewrite (wf_GET_ALLOC _ _ _ WF b Hb), (wf_GET_SIZE _ _ _ WF b Hb).
  destruct (balloc b); reflexivity.
Qed.

Lemma classes_from_In_iff c x :
  0 <= c -> (In x (classes_from c) <-> c <= x < SEG_LIST_COUNT).
Proof.
  intros Hc. split; [apply classes_from_In; exact Hc|].
  intros H. unfold classes_from. apply in_map_iff.
  exists (Z.to_nat (x - c)). split; [lia|]. apply in_seq. lia.
Qed.

Lemma spec_start_class_range size :
  0 <= size -> 0 <= spec_start_class size < SEG_LIST_COUNT.
Proof.
  intros H. unfold spec_start_class, SEG_LIST_COUNT.
  pose proof (Z.div_pos size 64 H ltac:(lia)). lia.
Qed.

Lemma spec_fit_found st bs idx size r :
  heap_ok st bs idx -> 0 <= size ->
  spec_fit st idx size = r -> r <> NULL ->
  exists sj, In (mkBlock r sj false) bs /\ size <= sj.
Proof.
  intros OK Hsize Hr Hnz. unfold spec_fit in Hr.
  destruct (find (fits st size) _) as [j|] eqn:Ef; [|congruence]. subst j.
  apply find_some in Ef. destruct Ef as [Hin Hfits].
  apply in_flat_map in Hin. destruct Hin as (c & Hc & Hin).
  apply classes_from_In in Hc; [|apply spec_start_class_range; exact Hsize].
  assert (Hc' : 0 <= c < SEG_LIST_COUNT)
    by (pose proof (spec_start_class_range size Hsize); lia).
  apply (ok_index _ _ _ OK c r Hc') in Hin. destruct Hin as (sj & Hb & _).
  exists sj. split; [exact Hb|].
  pose proof (fits_block _ _ _ (mkBlock r sj false) size (ok_wf _ _ _ OK) Hb) as Hf.
  cbn [bptr balloc bsize negb andb] in Hf. rewrite Hf in Hfits.
  apply Z.leb_le in Hfits. exact Hfits.
Qed.

Lemma spec_fit_none st bs idx size :
  heap_ok st bs idx -> 0 <= size ->
  spec_fit st idx size = NULL ->
  forall b, In b bs -> balloc b = false -> bsize b < size.
Proof.
  intros OK Hsize Hr b Hb Hfree. pose proof (ok_wf _ _ _ OK) as WF.
  destruct (wf_block _ _ _ WF b Hb) as (_ & _ & S & _).
  destruct (wf_inside _ _ _ WF b Hb) as [_ Hnz].
  set (c := get_size_class (bsize b)).
  pose proof (get_size_class_range (bsize b)) as Hc. fold c in Hc.
  assert (Hin : In (bptr b) (idx c)).
  { apply (ok_index _ _ _ OK c _ Hc). exists (bsize b). split; [|reflexivity].
    rewrite <- Hfree. destruct b; exact Hb. }
  assert (Hcs : c = spec_start_class (bsize b)).
  { unfold c. apply get_size_class_spec.
    change (2 ^ 37) with (32 * 2 ^ 32). lia. }
  pose proof (spec_start_class_range size Hsize) as Hst.
  destruct (Z.lt_ge_cases c (spec_start_class size)) as [Hlt | Hge].
  - (* a lower class: the block is too small *)
    unfold spec_start_class, SEG_LIST_COUNT in *.
    assert (bsize b / 64 < size / 64) by lia.
    Z.div_mod_to_equations. lia.
  - (* a class the finder scans *)
    unfold spec_fit in Hr.
    destruct (find (fits st size) _) as [j|] eqn:Ef.
    + exfalso. subst j. apply find_some in Ef. destruct Ef as [Hj _].
      apply in_flat_map in Hj. destruct Hj as (c' & Hc' & Hj).
      apply classes_from_In in Hc'; [|lia].
      destruct (wf_node _ _ _ WF c' NULL ltac:(lia) Hj) as (b' & Hb' & Hp' & _).
      destruct (wf_inside _ _ _ WF b' Hb') as [_ N]. apply N. exact Hp'.
    + assert (Hf : fits st size (bptr b) = false).
      { apply (find_none _ _ Ef). apply in_flat_map. exists c. split; [|exact Hin].
        apply classes_from_In_iff; lia. }
      rewrite (fits_block _ _ _ b size WF Hb), Hfree in Hf.
      cbn [negb andb] in Hf. apply Z.leb_gt in Hf. exact Hf.
Qed.

(** ** mm_malloc growing the heap *)

Lemma malloc_grow_spec st bs idx bsz :
  heap_ok st bs idx -> provider_ok st ->
  mem_max_addr st - seg_lists st < 2 ^ 32 ->
  16 <= bsz -> bsz mod 8 = 0 -> mem_brk st + bsz <= mem_max_addr st ->
  heap_ok (place (grown st bsz) (mem_brk st + DSIZE) bsz)
          (bs ++ [mkBlock (mem_brk st + DSIZE) bsz true]) idx.
Proof.
  intros OK [Hbrk Hmax] Hsmall Hb16 Hb8 Hroom.
  pose proof (ok_wf _ _ _ OK) as WF.
  pose proof (wf_hp _ _ _ WF) as Hhp. pose proof (wf_bp _ _ _ WF) as Hbp.
  destruct (wf_base _ _ _ WF) as [Hbase Hbase8].
  pose proof (wf_tiles _ _ _ WF) as T. pose proof (tiles_le _ _ _ T) as TL.
  unfold DSIZE. set (p := mem_brk st + 8).
  set (N := mkBlock p bsz true).
  assert (Hr : 0 < bsz < 2 ^ 32) by lia.
  rewrite grown_tags by (try assumption; lia). unfold DSIZE. fold p.
  rewrite place_tags by (try assumption; unfold p, NULL; lia).
  cbn [heap set_heap].
  set (m' := write_tags (write_tags (heap st) p bsz 0) p bsz 1).
  assert (Hl4 : forall a, a + 4 <= p - 4 -> load4 m' a = load4 (heap st) a).
  { intros a Ha. unfold m'. rewrite !load4_write_tags_other by lia. reflexivity. }
  assert (Hl8 : forall a, a + 8 <= p - 4 -> load8 m' a = load8 (heap st) a).
  { intros a Ha. unfold m'. rewrite !load8_write_tags_other by lia. reflexivity. }
  constructor.
  - constructor; cbn [heap mem_brk mem_max_addr seg_lists mem_hp mem_bp set_heap].
    + split; assumption.
    + exact Hhp.
    + reflexivity.
    + lia.
    + lia.
    + destruct (wf_first _ _ _ WF) as (rest & ->). eexists. reflexivity.
    + apply tiles_app. exists p. split; [exact T|]. simpl.
      unfold MIN_BLOCK_SIZE, DSIZE, p. repeat split; try assumption; lia.
    + apply Forall_app. split.
      * apply Forall_forall. intros b Hb.
        destruct (wf_block _ _ _ WF b Hb) as (A & B & C & _).
        destruct (wf_tags_of _ _ _ WF b Hb) as [Hh Hf].
        split; rewrite Hl4 by (unfold p; lia); assumption.
      * constructor; [|constructor]. unfold tags_ok, tag_of. cbn [bptr bsize balloc N].
        unfold m'. split.
        -- apply load4_write_tags_header; auto; lia.
        -- apply load4_write_tags_footer; auto; lia.
    + intros c Hc. unfold class_head, GET_PTR_ADDR.
      cbn [heap seg_lists set_heap].
      pose proof (wf_slot _ _ _ WF c Hc).
      rewrite Hl8 by (unfold p; lia).
      apply (chain_frame (heap st)); [|apply (wf_chain _ _ _ WF c Hc)].
      intros q Hq. destruct (wf_node _ _ _ WF c q Hc Hq) as (b & Hb & <- & _).
      destruct (wf_block _ _ _ WF b Hb) as (A & B & C & _).
      apply Hl8. unfold p. lia.
    + apply (wf_nodup _ _ _ WF).
    + intros c q Hc Hq. destruct (wf_nodes _ _ _ WF c q Hc Hq) as (s & a & Hin & Hk).
      exists s, a. split; [|exact Hk]. apply in_or_app. left. exact Hin.
  - apply noadj_alloc_mid; [apply (ok_noadj _ _ _ OK) | reflexivity | exact I].
  - intros c q Hc. rewrite (ok_index _ _ _ OK c q Hc). unfold free_in.
    split; intros (s & Hin & Hk); exists s; (split; [|exact Hk]).
    + apply in_or_app. left. exact Hin.
    + apply in_app_or in Hin. destruct Hin as [Hin | [Hin | []]];
        [exact Hin | discriminate].
Qed.

(** ** mm_malloc, case by case *)

Lemma mm_malloc_spec st bs idx size fuel :
  heap_ok st bs idx -> provider_ok st -> 0 < size < 2 ^ 64 ->
  (forall c, 0 <= c < SEG_LIST_COUNT -> (length (idx c) < fuel)%nat) ->
  let bsz := block_size_of size in
  (exists l1 j sj l2 m' idx',
      bs = l1 ++ mkBlock j sj false :: l2 /\ bsz <= sj
      /\ mm_malloc fuel st size = Some (set_heap st m', j)
      /\ heap_ok (set_heap st m')
           (l1 ++ (if 16 <=? sj - bsz
                   then [mkBlock j bsz true; mkBlock (j + bsz) (sj - bsz) false]
                   else [mkBlock j sj true]) ++ l2) idx'
      /\ frame bs (heap st) m'
      /\ (forall x, outside_heap st x -> byte_at m' x = byte_at (heap st) x))
  \/ ((forall b, In b bs -> balloc b = false -> bsize b < bsz)
      /\ mem_brk st + bsz <= mem_max_addr st
      /\ mm_malloc fuel st size
         = Some (place (grown st bsz) (mem_brk st + DSIZE) bsz, mem_brk st + DSIZE))
  \/ ((forall b, In b bs -> balloc b = false -> bsize b < bsz)
      /\ mem_max_addr st < mem_brk st + bsz
      /\ mm_malloc fuel st size = Some (st, NULL)).
Proof.
  intros OK Hprov Hsize Hfuel bsz. pose proof (ok_wf _ _ _ OK) as WF.
  destruct (block_size_of_range size ltac:(lia)) as [Hb Hb8]. fold bsz in Hb, Hb8.
  unfold MIN_BLOCK_SIZE, DSIZE in Hb.
  assert (Hfit : get_fit fuel st bsz = Some (spec_fit st idx bsz)).
  { apply get_fit_walks; [lia|]. intros c Hc.
    split; [apply (wf_walk _ _ _ WF c Hc) | apply (Hfuel c Hc)]. }
  assert (Hm : mm_malloc fuel st size =
    let fit_ptr := spec_fit st idx bsz in
    if negb (fit_ptr =? NULL) then
      match (if MIN_BLOCK_SIZE <=? wrap64 (GET_SIZE st (GET_HEADER fit_ptr) - bsz)
             then malloc_split fuel st fit_ptr bsz
             else malloc_absorb fuel st fit_ptr) with
      | None => None
      | Some st' => Some (st', fit_ptr)
      end
    else
      let '(st1, fit_ptr) := grow_heap st bsz in
      if negb (fit_ptr =? NULL) then Some (place st1 fit_ptr bsz, fit_ptr)
      else Some (st1, NULL)).
  { unfold mm_malloc.
    replace (size =? 0) with false by (symmetry; apply Z.eqb_neq; lia).
    fold bsz. rewrite Hfit. reflexivity. }
  cbv zeta in Hm.
  destruct (Z.eq_dec (spec_fit st idx bsz) NULL) as [Hnull | Hfound].
  - right. assert (H0 : 0 <= bsz) by lia.
    pose proof (spec_fit_none st bs idx bsz OK H0 Hnull) as Hno.
    rewrite Hnull in Hm. cbn [Z.eqb NULL negb] in Hm.
    destruct (Z.lt_ge_cases (mem_max_addr st) (mem_brk st + bsz)) as [Hf | Hg].
    + right. rewrite grow_heap_fail in Hm by assumption. auto.
    + left. rewrite grow_heap_grow in Hm by (try assumption; lia).
      destruct Hprov as [Hbrk _].
      replace (mem_brk st + DSIZE =? NULL) with false in Hm
        by (symmetry; apply Z.eqb_neq; unfold DSIZE, NULL; lia).
      auto.
  - left. assert (H0 : 0 <= bsz) by lia.
    destruct (spec_fit_found st bs idx bsz _ OK H0 eq_refl Hfound)
      as (sj & Hin & Hle).
    set (j := spec_fit st idx bsz) in *.
    destruct (in_split _ _ Hin) as (l1 & l2 & E).
    destruct (wf_block _ _ _ WF _ Hin) as (_ & _ & S & S8 & _). cbn [bsize] in S, S8.
    pose proof (wf_GET_SIZE _ _ _ WF _ Hin) as Hsz. cbn [bptr bsize] in Hsz.
    replace (j =? NULL) with false in Hm by (symmetry; apply Z.eqb_neq; exact Hfound).
    cbn [negb] in Hm. rewrite Hsz, wrap64_small in Hm by lia.
    unfold MIN_BLOCK_SIZE, DSIZE in Hm. change (2 * 8) with 16 in Hm.
    destruct (16 <=? sj - bsz) eqn:Esplit.
    + apply Z.leb_le in Esplit.
      assert (Hb16 : 16 <= bsz) by lia.
      destruct (malloc_split_spec st bs idx OK l1 l2 j sj E fuel Hfuel bsz
                  Hb16 Hb8 Esplit) as (m' & Hs & OK' & Hfr).
      rewrite Hs in Hm. exists l1, j, sj, l2, m'. eexists.
      split; [exact E|]. split; [exact Hle|]. split; [exact Hm|].
      replace (16 <=? sj - bsz) with true by (symmetry; apply Z.leb_le; lia).
      split; [exact OK' | exact Hfr].
    + destruct (malloc_absorb_spec st bs idx OK l1 l2 j sj E fuel Hfuel)
        as (m' & Hs & OK' & Hfr).
      rewrite Hs in Hm. exists l1, j, sj, l2, m'. eexists.
      split; [exact E|]. split; [exact Hle|]. split; [exact Hm|].
      rewrite Esplit. split; [exact OK' | exact Hfr].
Qed.

(** In a well-formed heap [mm_malloc] returns, and it returns [NULL]
    exactly when [size] is 0 or when no block of the index is large
    enough for the computed block size and the region provider cannot
    grow the heap by that size; in every other case the result is a
    non-null pointer. *)
Theorem allocate_null_iff st bs idx size :
  heap_ok st bs idx -> provider_ok st -> 0 <= size < 2 ^ 64 ->
  exists fuel0, forall fuel, (fuel0 <= fuel)%nat ->
  exists st' r,
    mm_malloc fuel st size = Some (st', r)
    /\ (r = NULL <->
        size = 0
        \/ ((forall c q, 0 <= c < SEG_LIST_COUNT -> In q (idx c) ->
               GET_SIZE st (GET_HEADER q) < block_size_of size)
            /\ mem_max_addr st < mem_brk st + block_size_of size)).
Proof.
  intros OK Hprov Hsize. pose proof (ok_wf _ _ _ OK) as WF.
  exists (S (length (flat_map idx (classes_from 0)))). intros fuel Hfuel.
  destruct (Z.eq_dec size 0) as [-> | Hnz].
  - exists st, NULL. split; [reflexivity|]. tauto.
  - assert (Hindex_small : (forall b, In b bs -> balloc b = false ->
                              bsize b < block_size_of size) ->
              forall c q, 0 <= c < SEG_LIST_COUNT -> In q (idx c) ->
              GET_SIZE st (GET_HEADER q) < block_size_of size).
    { intros Hno c q Hc Hq. apply (ok_index _ _ _ OK c q Hc) in Hq.
      destruct Hq as (s & Hin & _).
      pose proof (wf_GET_SIZE _ _ _ WF _ Hin) as Hsz. cbn [bptr bsize] in Hsz.
      rewrite Hsz. apply (Hno _ Hin). reflexivity. }
    destruct (mm_malloc_spec st bs idx size fuel OK Hprov ltac:(lia)
                (fuel_for_index idx fuel Hfuel))
      as [(l1 & j & sj & l2 & m' & idx' & E & Hle & Hm & OK' & _)
         | [(Hno & Hroom & Hm) | (Hno & Hfull & Hm)]].
    + exists (set_heap st m'), j. split; [exact Hm|].
      assert (Hin : In (mkBlock j sj false) bs)
        by (rewrite E; apply in_or_app; right; left; reflexivity).
      destruct (wf_inside _ _ _ WF _ Hin) as [_ Hj]. cbn [bptr] in Hj.
      split; [intros ->; contradiction|].
      intros [-> | [Hsmall _]]; [contradiction|]. exfalso.
      pose proof (fit_indexed st bs idx OK l1 l2 j sj E) as Hidx.
      pose proof (Hsmall _ j (get_size_class_range sj) Hidx) as Hlt.
      pose proof (wf_GET_SIZE _ _ _ WF _ Hin) as Hsz. cbn [bptr bsize] in Hsz.
      lia.
    + exists (place (grown st (block_size_of size)) (mem_brk st + DSIZE)
                (block_size_of size)), (mem_brk st + DSIZE).
      split; [exact Hm|]. destruct Hprov as [Hbrk _].
      split; [unfold DSIZE, NULL; lia|].
      intros [-> | [_ Hfull]]; [contradiction | lia].
    + exists st, NULL. split; [exact Hm|].
      split; [|reflexivity]. intros _. right. split; [|exact Hfull].
      apply Hindex_small. exact Hno.
Qed.

(** ** mm_init *)

Lemma byte_at_store_zero n m a x lo hi :
  (forall y, lo <= y < hi -> byte_at m y = 0) -> lo <= x < hi ->
  byte_at (store_le n m a 0) x = 0.
Proof.
  intros H Hx. unfold byte_at, store_le.
  destruct ((a <=? x) && (x <? a + n)).
  - rewrite Zdiv_0_l. reflexivity.
  - apply H. exact Hx.
Qed.

Lemma clear_slots_fields n :
  forall st i,
  seg_lists (clear_slots n st i) = seg_lists st
  /\ mem_brk (clear_slots n st i) = mem_brk st
  /\ mem_max_addr (clear_slots n st i) = mem_max_addr st.
Proof.
  induction n as [|n IH]; intros st i; cbn [clear_slots]; [auto|].
  destruct (IH (PUT st (seg_lists st + SIZE_T_SIZE * i) 0) (i + 1)) as (A & B & C).
  rewrite A, B, C. auto.
Qed.

Lemma clear_slots_zero n lo hi :
  forall st i,
  (forall y, lo <= y < hi -> byte_at (heap st) y = 0) ->
  forall y, lo <= y < hi -> byte_at (heap (clear_slots n st i)) y = 0.
Proof.
  induction n as [|n IH]; intros st i H y Hy; cbn [clear_slots];
    [apply H; exact Hy|].
  apply IH; [|exact Hy]. intros z Hz. unfold PUT. cbn [heap set_heap].
  apply (byte_at_store_zero 4 _ _ _ lo hi); assumption.
Qed.

Lemma load8_zero m a :
  (forall y, a <= y < a + 8 -> byte_at m y = 0) -> load8 m a = 0.
Proof.
  intros H. unfold load8, load4. rewrite !H by lia. reflexivity.
Qed.

(** [mm_init] on a region whose first 64 bytes read as zero: the index is
    empty and the heap holds the boundary block only. *)
Lemma mm_init_spec st0 :
  provider_ok st0 -> mem_brk st0 mod 8 = 0 ->
  mem_brk st0 + 80 <= mem_max_addr st0 ->
  (forall y, mem_brk st0 <= y < mem_brk st0 + 64 -> byte_at (heap st0) y = 0) ->
  exists st,
    mm_init st0 = (st, 0)
    /\ heap_ok st [mkBlock (mem_brk st0 + 72) MIN_BLOCK_SIZE true] (fun _ => [])
    /\ seg_lists st = mem_brk st0
    /\ mem_brk st = mem_brk st0 + 80
    /\ mem_max_addr st = mem_max_addr st0.
Proof.
  intros [Hbrk Hmax] H8 Hroom Hzero.
  unfold mm_init.
  change (ALIGN (SIZE_T_SIZE * SEG_LIST_COUNT) + MIN_BLOCK_SIZE) with 80.
  change (SIZE_T_SIZE * SEG_LIST_COUNT) with 64.
  rewrite mem_sbrk_grow by lia.
  replace (mem_brk st0 =? SBRK_FAIL) with false
    by (symmetry; apply Z.eqb_neq; unfold SBRK_FAIL; lia).
  set (st2 := set_seg_lists (set_brk st0 (mem_brk st0 + 80)) (mem_brk st0)).
  set (st3 := clear_slots (Z.to_nat SEG_LIST_COUNT) st2 0).
  destruct (clear_slots_fields (Z.to_nat SEG_LIST_COUNT) st2 0) as (F1 & F2 & F3).
  fold st3 in F1, F2, F3. cbn [seg_lists mem_brk mem_max_addr st2 set_seg_lists set_brk]
    in F1, F2, F3.
  assert (Hz3 : forall y, mem_brk st0 <= y < mem_brk st0 + 64 ->
                byte_at (heap st3) y = 0).
  { apply clear_slots_zero. exact Hzero. }
  cbv zeta. cbn [mem_hp set_mem_hp].
  rewrite PUT_tags by (try reflexivity; try (right; reflexivity);
                       unfold MIN_BLOCK_SIZE, DSIZE; lia).
  eexists. split; [reflexivity|].
  unfold PUT, mem_heap_hi, set_mem_bp, set_mem_hp, set_heap.
  cbn [heap mem_brk mem_max_addr seg_lists mem_hp mem_bp].
  rewrite F1, F2, F3. unfold DSIZE.
  replace (mem_brk st0 + 64 + 8) with (mem_brk st0 + 72) by lia.
  split; [|auto].
  set (hp := mem_brk st0 + 72).
  set (m' := write_tags (heap st3) hp MIN_BLOCK_SIZE 1).
  constructor.
  - constructor;
      cbn [heap mem_brk mem_max_addr seg_lists mem_hp mem_bp].
    + split; assumption.
    + reflexivity.
    + reflexivity.
    + lia.
    + change (2 ^ 32) with 4294967296. lia.
    + exists []. reflexivity.
    + simpl. unfold MIN_BLOCK_SIZE, DSIZE, hp. repeat split; try reflexivity; lia.
    + constructor; [|constructor]. unfold tags_ok, tag_of.
      cbn [bptr bsize balloc]. unfold m'. split.
      * apply load4_write_tags_header; try reflexivity; auto;
          unfold MIN_BLOCK_SIZE, DSIZE; lia.
      * apply load4_write_tags_footer; try reflexivity; auto;
          unfold MIN_BLOCK_SIZE, DSIZE; lia.
    + intros c Hc. cbn [chain]. unfold class_head, GET_PTR_ADDR.
      cbn [heap seg_lists]. unfold SEG_LIST_COUNT in Hc.
      apply load8_zero. intros y Hy. unfold m'.
      rewrite byte_at_write_tags_other;
        [apply Hz3; lia | unfold hp; lia | unfold hp, MIN_BLOCK_SIZE, DSIZE; lia].
    + intros c Hc. constructor.
    + intros c p Hc [].
  - simpl. auto.
  - intros c q Hc. split; [intros []|].
    intros (s & [Hin | []] & _). discriminate.
Qed.

(** [mm_init] on a region provider with room for 80 bytes whose first 64
    bytes read as zero ([mm_init] clears the low four bytes of each of
    its eight 8-byte slots) leaves a well-formed heap: the slots at the
    old break, all empty, and the allocated boundary block of 16 bytes
    after them.  Without room for 80 bytes it returns -1 and the break
    stays. *)
Theorem init_establishes_heap st0 :
  provider_ok st0 -> mem_brk st0 mod 8 = 0 ->
  (forall y, mem_brk st0 <= y < mem_brk st0 + 64 -> byte_at (heap st0) y = 0) ->
  (mem_brk st0 + 80 <= mem_max_addr st0 ->
   exists st,
     mm_init st0 = (st, 0)
     /\ heap_ok st [mkBlock (mem_brk st0 + 72) MIN_BLOCK_SIZE true] (fun _ => [])
     /\ seg_lists st = mem_brk st0
     /\ mem_brk st = mem_brk st0 + 80)
  /\ (mem_max_addr st0 < mem_brk st0 + 80 ->
      snd (mm_init st0) = -1 /\ mem_brk (fst (mm_init st0)) = mem_brk st0).
Proof.
  intros Hprov H8 Hzero. split; intros Hroom.
  - destruct (mm_init_spec st0 Hprov H8 Hroom Hzero)
      as (st & Hi & OK & Hseg & Hbrk & _).
    exists st. auto.
  - unfold mm_init.
    change (ALIGN (SIZE_T_SIZE * SEG_LIST_COUNT) + MIN_BLOCK_SIZE) with 80.
    rewrite mem_sbrk_fail by exact Hroom.
    change (SBRK_FAIL =? SBRK_FAIL) with true. cbv iota. split; reflexivity.
Qed.

(** ** Unlinking and tag writing, in the order of the source *)





(** ** Fuel for the list walks *)

Lemma tiles_length p bs e : tiles p bs e -> 16 * Z.of_nat (length bs) <= e - p.
Proof.
  revert p. induction bs as [|b bs IH]; intros p T.
  - simpl in T. subst e. simpl. lia.
  - simpl in T. destruct T as (_ & H16 & _ & T). apply IH in T.
    unfold MIN_BLOCK_SIZE, DSIZE in H16. cbn [length]. lia.
Qed.

(** A class list is shorter than the heap has room for blocks. *)
Lemma index_short st bs idx fuel :
  heap_wf st bs idx -> mem_brk st <= mem_max_addr st ->
  mem_max_addr st - seg_lists st < 16 * Z.of_nat fuel ->
  forall c, 0 <= c < SEG_LIST_COUNT -> (length (idx c) < fuel)%nat.
Proof.
  intros WF Hbrk Hfuel c Hc.
  assert (Hlen : (length (idx c) <= length (map bptr bs))%nat).
  { apply NoDup_incl_length; [apply (wf_nodup _ _ _ WF c Hc)|].
    intros q Hq. destruct (wf_node _ _ _ WF c q Hc Hq) as (b & Hb & <- & _).
    apply in_map. exact Hb. }
  rewrite length_map in Hlen.
  pose proof (tiles_length _ _ _ (wf_tiles _ _ _ WF)) as Ht.
  pose proof (wf_hp _ _ _ WF). lia.
Qed.

(** ** What an allocation keeps *)

Lemma mm_malloc_full st bs idx size fuel :
  heap_ok st bs idx -> provider_ok st ->
  mem_max_addr st - seg_lists st < 2 ^ 32 ->
  0 < size < 2 ^ 64 ->
  (forall c, 0 <= c < SEG_LIST_COUNT -> (length (idx c) < fuel)%nat) ->
  exists st' r bs' idx',
    mm_malloc fuel st size = Some (st', r)
    /\ heap_ok st' bs' idx'
    /\ seg_lists st' = seg_lists st
    /\ mem_max_addr st' = mem_max_addr st
    /\ mem_brk st <= mem_brk st'
    /\ (mem_brk st <= mem_max_addr st -> mem_brk st' <= mem_max_addr st')
    /\ frame bs (heap st) (heap st')
    /\ (r = NULL -> st' = st /\ bs' = bs /\ idx' = idx)
    /\ (r <> NULL ->
        r mod 8 = 0
        /\ exists s, block_size_of size <= s
           /\ (forall b, balloc b = true ->
                 (In b bs' <-> In b bs \/ b = mkBlock r s true))
           /\ (forall s', ~ In (mkBlock r s' true) bs)).
Proof.
  intros OK Hprov Hcap Hsize Hfuel. pose proof (ok_wf _ _ _ OK) as WF.
  destruct (block_size_of_range size ltac:(lia)) as [Hb Hb8].
  unfold MIN_BLOCK_SIZE, DSIZE in Hb.
  destruct (mm_malloc_spec st bs idx size fuel OK Hprov Hsize Hfuel)
    as [(l1 & j & sj & l2 & m' & idx' & E & Hle & Hm & OK' & Hfr & _)
       | [(Hno & Hroom & Hm) | (Hno & Hfull & Hm)]].
  - assert (Hin : In (mkBlock j sj false) bs)
      by (rewrite E; apply in_or_app; right; left; reflexivity).
    destruct (wf_inside _ _ _ WF _ Hin) as [_ Hj]. cbn [bptr] in Hj.
    destruct (wf_block _ _ _ WF _ Hin) as (_ & _ & _ & _ & Hj8). cbn [bptr] in Hj8.
    eexists. exists j. eexists. exists idx'.
    split; [exact Hm|]. split; [exact OK'|].
    split; [reflexivity|]. split; [reflexivity|]. split; [cbn; lia|].
    split; [intros H; exact H|].
    split; [exact Hfr|]. split; [intros ->; contradiction|].
    intros _. split; [exact Hj8|].
    exists (if 16 <=? sj - block_size_of size then block_size_of size else sj).
    split; [destruct (16 <=? sj - block_size_of size); lia|]. split.
    + intros b Hal. rewrite E. rewrite !in_app_iff.
      destruct (16 <=? sj - block_size_of size); cbn [In];
        split; intros H; intuition (subst; try discriminate; auto 6).
    + intros s' Hs'.
      pose proof (tiles_ptr_inj _ _ _ _ _ (wf_tiles _ _ _ WF) Hs' Hin eq_refl).
      discriminate.
  - set (bsz := block_size_of size) in *.
    set (p := mem_brk st + DSIZE) in *.
    assert (Hbsz : 0 < bsz < 2 ^ 32).
    { pose proof (wf_extent _ _ _ WF). pose proof (wf_hp _ _ _ WF).
      destruct (wf_first _ _ _ WF) as (rest & Hf).
      assert (Hs : In (mkBlock (mem_hp st) MIN_BLOCK_SIZE true) bs)
        by (rewrite Hf; left; reflexivity).
      destruct (wf_block _ _ _ WF _ Hs) as (_ & H2 & _). cbn [bptr bsize] in H2.
      unfold MIN_BLOCK_SIZE, DSIZE in H2. lia. }
    destruct Hprov as [Hbrk Hmax].
    assert (Hp0 : p <> NULL) by (unfold p, DSIZE, NULL; lia).
    assert (Hst' : place (grown st bsz) p bsz
                   = mkState (write_tags (write_tags (heap st) p bsz 0) p bsz 1)
                       (mem_brk st + bsz) (mem_max_addr st) (seg_lists st)
                       (mem_hp st) (mem_brk st + bsz - 1)).
    { rewrite grown_tags by (try assumption; lia). fold p.
      rewrite place_tags by (try assumption; lia). reflexivity. }
    exists (place (grown st bsz) p bsz), p,
           (bs ++ [mkBlock p bsz true]), idx.
    split; [exact Hm|].
    split; [apply malloc_grow_spec; try assumption; try lia; split; assumption|].
    rewrite Hst'. cbn [heap mem_brk mem_max_addr seg_lists].
    split; [reflexivity|]. split; [reflexivity|]. split; [lia|].
    split; [intros _; lia|].
    split; [|split; [intros ->; contradiction|]].
    + intros b x Hbin Hal Hx.
      destruct (wf_block _ _ _ WF b Hbin) as (_ & H2 & H3 & _).
      unfold payload, DSIZE in Hx. unfold p, DSIZE.
      rewrite !byte_at_write_tags_other by lia. reflexivity.
    + intros _. split.
      * pose proof (wf_brk_mod8 _ _ _ WF). unfold p, DSIZE.
        Z.div_mod_to_equations. lia.
      * exists bsz. split; [lia|]. split.
        -- intros b Hal. rewrite in_app_iff. cbn [In]. intuition congruence.
        -- intros s' Hs'.
           destruct (wf_block _ _ _ WF _ Hs') as (_ & H2 & H3 & _).
           cbn [bptr bsize] in H2, H3. unfold p, DSIZE in H2. lia.
  - exists st, NULL, bs, idx.
    split; [exact Hm|]. split; [exact OK|].
    split; [reflexivity|]. split; [reflexivity|]. split; [lia|].
    split; [intros H; exact H|].
    split; [apply frame_refl|]. split; [auto|].
    intros H. contradiction H. reflexivity.
Qed.

(** ** What a resize keeps *)

Lemma set_mem_bp_id st : set_mem_bp st (mem_bp st) = st.
Proof. destruct st. reflexivity. Qed.

Lemma block_size_of_room size :
  0 < size <= 2 ^ 64 - 16 -> size + 8 <= block_size_of size.
Proof.
  intros H. rewrite block_size_of_sane by exact H.
  Z.div_mod_to_equations. lia.
Qed.

Lemma mm_realloc_full st bs idx ptr so size fuel :
  heap_ok st bs idx -> provider_ok st -> mem_brk st <= mem_max_addr st ->
  mem_max_addr st - seg_lists st < 2 ^ 32 ->
  In (mkBlock ptr so true) bs -> ptr <> mem_hp st ->
  0 < size <= 2 ^ 64 - 16 ->
  mem_max_addr st - seg_lists st < 16 * Z.of_nat fuel ->
  exists st' r bs' idx',
    mm_realloc fuel st ptr size = Some (st', r)
    /\ heap_ok st' bs' idx'
    /\ seg_lists st' = seg_lists st
    /\ mem_max_addr st' = mem_max_addr st
    /\ mem_brk st <= mem_brk st' <= mem_max_addr st'
    /\ (r = NULL -> st' = st /\ bs' = bs /\ idx' = idx)
    /\ (r <> NULL ->
        r mod 8 = 0 /\ r <> ptr
        /\ exists s, size + 8 <= s
           /\ (forall b, balloc b = true ->
                 (In b bs' <->
                  (In b bs /\ bptr b <> ptr) \/ b = mkBlock r s true))
           /\ (forall s', ~ In (mkBlock r s' true) bs)
           /\ (forall k, 0 <= k < Z.min size (so - DSIZE) ->
                 byte_at (heap st') (r + k) = byte_at (heap st) (ptr + k))
           /\ (forall b x, In b bs -> balloc b = true -> bptr b <> ptr ->
                 payload b x -> byte_at (heap st') x = byte_at (heap st) x)).
Proof.
  intros OK Hprov Hbrk Hcap HB Hhp Hsize Hfuel.
  pose proof (ok_wf _ _ _ OK) as WF.
  set (B := mkBlock ptr so true) in *.
  destruct (wf_inside _ _ _ WF B HB) as [_ Hptr0]. cbn [bptr B] in Hptr0.
  destruct (mm_malloc_full st bs idx size fuel OK Hprov Hcap ltac:(lia)
              (index_short st bs idx fuel WF Hbrk Hfuel))
    as (st1 & r & bs1 & idx1 & Hm & OK1 & Hseg1 & Hmax1 & Hbrk1 & Hbm1 & Hfr1
        & Hnull & Hnew).
  specialize (Hbm1 Hbrk).
  rewrite mm_realloc_null by (try assumption; lia). rewrite Hm.
  destruct (Z.eq_dec r NULL) as [-> | Hr].
  - destruct (Hnull eq_refl) as (-> & -> & ->).
    exists st, NULL, bs, idx. change (NULL =? NULL) with true. cbv iota.
    split; [reflexivity|]. split; [exact OK|].
    split; [reflexivity|]. split; [reflexivity|]. split; [lia|].
    split; [auto|]. intros H. contradiction H. reflexivity.
  - replace (r =? NULL) with false by (symmetry; apply Z.eqb_neq; exact Hr).
    destruct (Hnew Hr) as (Hr8 & s & Hs & Hblocks1 & Hfresh).
    pose proof (ok_wf _ _ _ OK1) as WF1.
    pose proof (block_size_of_room size Hsize) as Hroom.
    set (N := mkBlock r s true) in *.
    assert (HN1 : In N bs1) by (apply (Hblocks1 N eq_refl); right; reflexivity).
    assert (HB1 : In B bs1) by (apply (Hblocks1 B eq_refl); left; exact HB).
    assert (Hrp : r <> ptr).
    { intros ->. apply (Hfresh so). exact HB. }
    assert (HNB : N <> B) by (intros H; apply Hrp; injection H; auto).
    destruct (wf_block _ _ _ WF1 B HB1) as (_ & _ & SB & _). cbn [bsize B] in SB.
    pose proof (wf_GET_SIZE _ _ _ WF1 B HB1) as Hsz. cbn [bptr bsize B] in Hsz.
    cbv zeta. rewrite Hsz. unfold DSIZE. rewrite wrap32_small by lia.
    set (n := if size <? so - 8 then size else so - 8).
    assert (Hn : n = Z.min size (so - 8)).
    { unfold n. destruct (size <? so - 8) eqn:El.
      - apply Z.ltb_lt in El. lia.
      - apply Z.ltb_ge in El. lia. }
    set (m2 := copy_bytes (heap st1) r ptr n).
    assert (Hcopy_out : forall x, ~ payload N x -> byte_at m2 x = byte_at (heap st1) x).
    { intros x Hx. unfold m2. apply byte_at_copy_out.
      unfold payload, DSIZE in Hx. cbn [bptr bsize N] in Hx. lia. }
    assert (OK2 : heap_ok (set_heap st1 m2) bs1 idx1).
    { apply heap_ok_payload_write; [exact OK1|].
      intros x Hx. apply Hcopy_out. intros HxN. apply Hx.
      exists N. split; [exact HN1|]. split; [reflexivity | exact HxN]. }
    assert (Hsplit : exists pre Pv post, bs1 = pre ++ Pv :: B :: post).
    { assert (Hlive : live_in bs1 ptr).
      { apply (live_in_iff _ _ _ _ WF1). exists so. split; [exact HB1|].
        rewrite (wf_hp _ _ _ WF1), Hseg1, <- (wf_hp _ _ _ WF). exact Hhp. }
      destruct (live_split _ _ _ _ WF1 Hlive) as (pre & Pv & s0 & post & E).
      exists pre, Pv, post. rewrite E. repeat f_equal.
      assert (Hin : In (mkBlock ptr s0 true) bs1)
        by (rewrite E; apply in_or_app; right; right; left; reflexivity).
      pose proof (tiles_ptr_inj _ _ _ _ _ (wf_tiles _ _ _ WF1) Hin HB1 eq_refl) as Heq.
      injection Heq as ->. reflexivity. }
    destruct Hsplit as (pre & Pv & post & E).
    assert (Hfuel2 : forall c, 0 <= c < SEG_LIST_COUNT ->
              (length (idx1 c) < fuel)%nat).
    { apply (index_short st1 bs1 idx1 fuel WF1 Hbm1). rewrite Hmax1, Hseg1.
      exact Hfuel. }
    destruct (mm_free_full (set_heap st1 m2) bs1 idx1 pre Pv ptr so post fuel
                OK2 E Hfuel2)
      as (m3 & idx3 & Hfree & OK3 & _ & Hblocks3 & Hfr3 & _).
    cbn zeta in OK3, Hblocks3, Hfr3. cbn [heap set_heap] in Hfr3.
    change (set_heap (set_heap st1 m2) m3) with (set_heap st1 m3) in Hfree, OK3.
    set (bs3 := (if balloc Pv then pre ++ [Pv] else pre)
                ++ mkBlock (ptr - span (free_nbr (Some Pv)))
                     (span (free_nbr (Some Pv)) + so
                      + span (free_nbr (hd_error post))) false
                   :: skipn (length (free_nbr (hd_error post))) post) in *.
    fold m2. rewrite Hfree.
    assert (Hbp : set_mem_bp (set_heap st1 m3) (mem_heap_hi (set_heap st1 m3))
                  = set_heap st1 m3).
    { unfold mem_heap_hi.
      rewrite <- (wf_bp _ _ _ (ok_wf _ _ _ OK3)). apply set_mem_bp_id. }
    rewrite Hbp.
    assert (HN3 : In N bs3).
    { apply (Hblocks3 N eq_refl). split; [exact HN1 | exact Hrp]. }
    exists (set_heap st1 m3), r, bs3, idx3.
    split; [reflexivity|]. split; [exact OK3|].
    split; [exact Hseg1|]. split; [exact Hmax1|].
    split; [cbn [mem_brk set_heap mem_max_addr]; lia|].
    split; [intros ->; contradiction|]. intros _.
    split; [exact Hr8|]. split; [exact Hrp|].
    exists s. split; [lia|]. split; [|split; [exact Hfresh|split]].
    + intros b Hal. rewrite (Hblocks3 b Hal), (Hblocks1 b Hal). split.
      * intros [[H | ->] Hne]; [left; split; assumption | right; reflexivity].
      * intros [[H Hne] | ->]; [split; [left; exact H | exact Hne]|].
        split; [right; reflexivity | exact Hrp].
    + intros k Hk. cbn [heap set_heap].
      assert (HxN : payload N (r + k)).
      { unfold payload, DSIZE. cbn [bptr bsize N]. lia. }
      rewrite (Hfr3 N (r + k) HN3 eq_refl HxN).
      unfold m2. rewrite byte_at_copy_in by lia.
      replace (ptr + (r + k - r)) with (ptr + k) by lia.
      apply (Hfr1 B (ptr + k) HB eq_refl).
      unfold payload, DSIZE. cbn [bptr bsize B]. lia.
    + intros b x Hb Hal Hne Hx. cbn [heap set_heap].
      assert (Hb1 : In b bs1) by (apply (Hblocks1 b Hal); left; exact Hb).
      assert (Hb3 : In b bs3) by (apply (Hblocks3 b Hal); split; assumption).
      rewrite (Hfr3 b x Hb3 Hal Hx).
      rewrite Hcopy_out.
      * apply (Hfr1 b x Hb Hal Hx).
      * intros HxN.
        assert (HbN : N <> b).
        { intros <-. apply (Hfresh s). exact Hb. }
        pose proof (payload_outside _ _ _ WF1 b x Hb1 Hx N HN1 HbN) as Hout.
        unfold payload, DSIZE in HxN. cbn [bptr bsize N] in HxN, Hout. lia.
Qed.

(** In a well-formed heap, in a region of less than 4 GiB, [mm_malloc]
    returns and leaves a well-formed heap; a non-null result is a multiple
    of 8 and names a block that was not allocated before, at least as
    large as the computed block size; the blocks allocated before stay
    allocated and keep their payload bytes; a null result leaves the
    state as it was. *)
Theorem allocate_keeps_heap st bs idx size :
  heap_ok st bs idx -> provider_ok st ->
  mem_max_addr st - seg_lists st < 2 ^ 32 -> 0 < size < 2 ^ 64 ->
  exists fuel0, forall fuel, (fuel0 <= fuel)%nat ->
  exists st' r bs' idx',
    mm_malloc fuel st size = Some (st', r)
    /\ heap_ok st' bs' idx'
    /\ frame bs (heap st) (heap st')
    /\ (r = NULL -> st' = st)
    /\ (r <> NULL ->
        r mod 8 = 0
        /\ exists s, block_size_of size <= s
           /\ In (mkBlock r s true) bs'
           /\ (forall s', ~ In (mkBlock r s' true) bs)
           /\ (forall b, In b bs -> balloc b = true -> In b bs')).
Proof.
  intros OK Hprov Hcap Hsize.
  exists (S (length (flat_map idx (classes_from 0)))). intros fuel Hfuel.
  destruct (mm_malloc_full st bs idx size fuel OK Hprov Hcap Hsize
              (fuel_for_index idx fuel Hfuel))
    as (st' & r & bs' & idx' & Hm & OK' & _ & _ & _ & _ & Hfr & Hnull & Hnew).
  exists st', r, bs', idx'. split; [exact Hm|]. split; [exact OK'|].
  split; [exact Hfr|]. split; [intros Hr; apply (Hnull Hr)|].
  intros Hr. destruct (Hnew Hr) as (Hr8 & s & Hs & Hblocks & Hfresh).
  split; [exact Hr8|]. exists s. split; [exact Hs|].
  split; [apply (Hblocks (mkBlock r s true) eq_refl); right; reflexivity|].
  split; [exact Hfresh|].
  intros b Hb Hal. apply (Hblocks b Hal). left. exact Hb.
Qed.

(** [mm_realloc] of a live pointer to a size of at most [2^64 - 16], in a
    well-formed heap in a region of less than 4 GiB: it returns; a
    non-null result is a multiple of 8, names a block that was not
    allocated before with room for [size] bytes, and its first
    [min(size, old payload size)] bytes are the bytes that were at [ptr];
    the payloads of the other allocated blocks are unchanged and the heap
    is well formed again, with the old block no longer allocated.  A null
    result leaves the state as it was. *)
Theorem resize_preserves_content st bs idx ptr so size :
  heap_ok st bs idx -> provider_ok st -> mem_brk st <= mem_max_addr st ->
  mem_max_addr st - seg_lists st < 2 ^ 32 ->
  In (mkBlock ptr so true) bs -> ptr <> mem_hp st ->
  0 < size <= 2 ^ 64 - 16 ->
  exists fuel0, forall fuel, (fuel0 <= fuel)%nat ->
  exists st' r bs' idx',
    mm_realloc fuel st ptr size = Some (st', r)
    /\ heap_ok st' bs' idx'
    /\ (r = NULL -> st' = st)
    /\ (r <> NULL ->
        r mod 8 = 0
        /\ (exists s, size + DSIZE <= s /\ In (mkBlock r s true) bs')
        /\ (forall s', ~ In (mkBlock r s' true) bs)
        /\ (forall s', ~ In (mkBlock ptr s' true) bs')
        /\ (forall k, 0 <= k < Z.min size (so - DSIZE) ->
              byte_at (heap st') (r + k) = byte_at (heap st) (ptr + k))
        /\ (forall b x, In b bs -> balloc b = true -> bptr b <> ptr ->
              payload b x ->
              In b bs' /\ byte_at (heap st') x = byte_at (heap st) x)).
Proof.
  intros OK Hprov Hbrk Hcap HB Hhp Hsize.
  exists (S (Z.to_nat (mem_max_addr st - seg_lists st))). intros fuel Hfuel.
  destruct (mm_realloc_full st bs idx ptr so size fuel OK Hprov Hbrk Hcap HB Hhp
              Hsize ltac:(lia))
    as (st' & r & bs' & idx' & Hre & OK' & _ & _ & _ & Hnull & Hnew).
  exists st', r, bs', idx'. split; [exact Hre|]. split; [exact OK'|].
  split; [intros Hr; apply (Hnull Hr)|].
  intros Hr.
  destruct (Hnew Hr) as (Hr8 & Hrp & s & Hs & Hblocks & Hfresh & Hcopy & Hkeep).
  split; [exact Hr8|].
  split; [exists s; split;
          [unfold DSIZE; lia
          | apply (Hblocks (mkBlock r s true) eq_refl); right; reflexivity]|].
  split; [exact Hfresh|]. split; [|split; [exact Hcopy|]].
  - intros s' Hin. apply (Hblocks (mkBlock ptr s' true) eq_refl) in Hin.
    destruct Hin as [[_ Hne] | Heq]; [apply Hne; reflexivity|].
    injection Heq as Heq _. apply Hrp. symmetry. exact Heq.
  - intros b x Hb Hal Hne Hx. split; [|apply (Hkeep b x Hb Hal Hne Hx)].
    apply (Hblocks b Hal). left. split; assumption.
Qed.

(** ** Clients that keep to the contract *)

Lemma byte_at_write_bytes_out bytes :
  forall m a x, x < a \/ a + Z.of_nat (length bytes) <= x ->
  byte_at (write_bytes m a bytes) x = byte_at m x.
Proof.
  induction bytes as [|b bytes IH]; intros m a x H; [reflexivity|].
  cbn [write_bytes length] in *. rewrite IH by lia.
  apply byte_at_store_out. lia.
Qed.

Lemma NoDup_map_filter {A B} (f : A -> B) (g : A -> bool) l :
  NoDup (map f l) -> NoDup (map f (filter g l)).
Proof.
  induction l as [|a l IH]; simpl; intros H; [constructor|].
  apply NoDup_cons_iff in H. destruct H as [Hn H].
  destruct (g a); [|apply IH; exact H]. simpl. constructor; [|apply IH; exact H].
  intros Hin. apply Hn. apply in_map_iff in Hin.
  destruct Hin as (y & Hy & Hin). apply filter_In in Hin.
  apply in_map_iff. exists y. tauto.
Qed.

Lemma drop_live_In p l q sz :
  In (q, sz) (drop_live p l) <-> In (q, sz) l /\ q <> p.
Proof.
  unfold drop_live. rewrite filter_In. cbn [fst].
  rewrite negb_true_iff, Z.eqb_neq. tauto.
Qed.

Lemma is_live_In c p : is_live c p = true <-> exists sz, In (p, sz) (live c).
Proof.
  unfold is_live. rewrite existsb_exists. split.
  - intros ([q sz] & Hin & Hq). cbn [fst] in Hq. apply Z.eqb_eq in Hq. subst q.
    exists sz. exact Hin.
  - intros (sz & Hin). exists (p, sz). split; [exact Hin|]. apply Z.eqb_refl.
Qed.

(** Dropping a pointer, and moving to a heap that keeps the other
    allocated blocks. *)
Lemma live_ok_drop st st' bs bs' l p :
  live_ok st bs l -> mem_hp st' = mem_hp st ->
  (forall b, balloc b = true -> In b bs -> bptr b <> p -> In b bs') ->
  live_ok st' bs' (drop_live p l).
Proof.
  intros [Hnd Hl] Hhp Hkeep. split.
  - apply NoDup_map_filter. exact Hnd.
  - intros q sz Hq. apply drop_live_In in Hq. destruct Hq as [Hq Hne].
    destruct (Hl q sz Hq) as (H1 & s & Hin & H2). rewrite Hhp.
    split; [exact H1|]. exists s. split; [|exact H2].
    apply Hkeep; [reflexivity | exact Hin | exact Hne].
Qed.

Lemma live_ok_same st st' bs bs' l :
  live_ok st bs l -> mem_hp st' = mem_hp st ->
  (forall b, balloc b = true -> In b bs -> In b bs') ->
  live_ok st' bs' l.
Proof.
  intros [Hnd Hl] Hhp Hkeep. split; [exact Hnd|].
  intros q sz Hq. destruct (Hl q sz Hq) as (H1 & s & Hin & H2). rewrite Hhp.
  split; [exact H1|]. exists s. split; [|exact H2].
  apply Hkeep; [reflexivity | exact Hin].
Qed.

(** Adding the pointer of a block that was not allocated before. *)
Lemma live_ok_add st st' bs bs' l r s size :
  live_ok st' bs' l -> mem_hp st' = mem_hp st ->
  In (mkBlock (mem_hp st) MIN_BLOCK_SIZE true) bs ->
  (forall s', ~ In (mkBlock r s' true) bs) ->
  (forall p sz, In (p, sz) l -> exists s', In (mkBlock p s' true) bs) ->
  In (mkBlock r s true) bs' -> 0 <= size -> size + DSIZE <= s ->
  live_ok st' bs' ((r, size) :: l).
Proof.
  intros [Hnd Hl] Hhp Hfirst Hfresh Hold Hin H0 Hs. split.
  - cbn [map fst]. constructor; [|exact Hnd].
    intros Hr. apply in_map_iff in Hr. destruct Hr as ([q sz] & Hq & Hr).
    cbn [fst] in Hq. subst q. destruct (Hold r sz Hr) as (s' & Hs').
    exact (Hfresh s' Hs').
  - intros p sz [Hp | Hp]; [|apply Hl; exact Hp].
    injection Hp as <- <-. split.
    + rewrite Hhp. intros ->. exact (Hfresh _ Hfirst).
    + exists s. auto.
Qed.

Lemma drop_live_absent p l : ~ In p (map fst l) -> drop_live p l = l.
Proof.
  induction l as [|[q sz] l IH]; intros H; [reflexivity|].
  cbn [drop_live filter fst map In] in *.
  replace (q =? p) with false by (symmetry; apply Z.eqb_neq; tauto).
  cbn [negb]. f_equal. apply IH. tauto.
Qed.

Section Step.
Variables (fuel : nat) (c : client) (bs : list block) (idx : Z -> list Z).
Hypothesis CO : client_ok fuel c bs idx.

Lemma co_wf : heap_wf (cstate c) bs idx.
Proof. exact (ok_wf _ _ _ (co_heap _ _ _ _ CO)). Qed.

Lemma co_provider : provider_ok (cstate c).
Proof.
  pose proof (co_brk _ _ _ _ CO). pose proof (co_max _ _ _ _ CO). split; lia.
Qed.

Lemma co_short c0 :
  0 <= c0 < SEG_LIST_COUNT -> (length (idx c0) < fuel)%nat.
Proof.
  apply (index_short (cstate c) bs idx fuel co_wf).
  - apply (co_brk _ _ _ _ CO).
  - apply (co_fuel _ _ _ _ CO).
Qed.

Lemma co_boundary : In (mkBlock (mem_hp (cstate c)) MIN_BLOCK_SIZE true) bs.
Proof. destruct (wf_first _ _ _ co_wf) as (rest & ->). left. reflexivity. Qed.

Lemma co_live_block p sz :
  In (p, sz) (live c) -> exists s, In (mkBlock p s true) bs.
Proof.
  intros H. destruct (proj2 (co_live _ _ _ _ CO) p sz H) as (_ & s & Hin & _).
  exists s. exact Hin.
Qed.

Lemma co_live_nonnull : ~ In NULL (map fst (live c)).
Proof.
  intros H. apply in_map_iff in H. destruct H as ([q sz] & Hq & Hin).
  cbn [fst] in Hq. subst q. destruct (co_live_block _ _ Hin) as (s & Hs).
  destruct (wf_inside _ _ _ co_wf _ Hs) as [_ H0]. apply H0. reflexivity.
Qed.

(** The state after a call, given what the call did to the heap. *)
Lemma client_ok_step st' bs' idx' r l' :
  heap_ok st' bs' idx' ->
  seg_lists st' = seg_lists (cstate c) ->
  mem_max_addr st' = mem_max_addr (cstate c) ->
  mem_brk (cstate c) <= mem_brk st' <= mem_max_addr st' ->
  live_ok st' bs' l' -> r mod 8 = 0 ->
  client_ok fuel (mkClient st' (results c ++ [r]) l') bs' idx'.
Proof.
  intros OK' Hseg Hmax Hbrk Hl Hr.
  pose proof (co_brk _ _ _ _ CO). pose proof (co_max _ _ _ _ CO).
  pose proof (co_cap _ _ _ _ CO). pose proof (co_fuel _ _ _ _ CO).
  constructor; cbn [cstate results live]; rewrite ?Hseg, ?Hmax;
    try assumption; try lia.
  apply Forall_app. split; [apply (co_aligned _ _ _ _ CO)|].
  constructor; [exact Hr | constructor].
Qed.

Lemma same_hp st' bs' idx' :
  heap_ok st' bs' idx' -> seg_lists st' = seg_lists (cstate c) ->
  mem_hp st' = mem_hp (cstate c).
Proof.
  intros OK' Hseg.
  rewrite (wf_hp _ _ _ (ok_wf _ _ _ OK')), (wf_hp _ _ _ co_wf), Hseg. reflexivity.
Qed.

(** [mm_malloc] from a client's state. *)
Lemma alloc_step size :
  0 <= size <= 2 ^ 64 - 16 ->
  exists st' r bs' idx',
    mm_malloc fuel (cstate c) size = Some (st', r)
    /\ client_ok fuel
         (mkClient st' (results c ++ [r])
            (if r =? NULL then live c else (r, size) :: live c)) bs' idx'.
Proof.
  intros Hsize. pose proof (co_heap _ _ _ _ CO) as OK.
  pose proof (co_brk _ _ _ _ CO) as Hbrk.
  destruct (Z.eq_dec size 0) as [-> | Hnz].
  - exists (cstate c), NULL, bs, idx. split; [reflexivity|].
    apply client_ok_step; try reflexivity; try assumption; try lia.
    apply (co_live _ _ _ _ CO).
  - destruct (mm_malloc_full (cstate c) bs idx size fuel OK co_provider
                (co_cap _ _ _ _ CO) ltac:(lia) co_short)
      as (st' & r & bs' & idx' & Hm & OK' & Hseg & Hmx & Hb1 & Hb2 & _
          & Hnull & Hnew).
    exists st', r, bs', idx'. split; [exact Hm|].
    specialize (Hb2 (proj2 Hbrk)).
    destruct (Z.eq_dec r NULL) as [-> | Hr].
    + destruct (Hnull eq_refl) as (-> & -> & ->). change (NULL =? NULL) with true.
      cbv iota. apply client_ok_step; try reflexivity; try assumption; try lia.
      apply (co_live _ _ _ _ CO).
    + replace (r =? NULL) with false by (symmetry; apply Z.eqb_neq; exact Hr).
      destruct (Hnew Hr) as (Hr8 & s & Hs & Hblocks & Hfresh).
      pose proof (same_hp _ _ _ OK' Hseg) as Hhp.
      apply client_ok_step; try assumption; try lia.
      apply (live_ok_add (cstate c) st' bs bs' (live c) r s size);
        try assumption.
      * apply (live_ok_same (cstate c) st' bs bs'); [|exact Hhp|].
        -- apply (co_live _ _ _ _ CO).
        -- intros b Hal Hb. apply (Hblocks b Hal). left. exact Hb.
      * exact co_boundary.
      * exact co_live_block.
      * apply (Hblocks (mkBlock r s true) eq_refl). right. reflexivity.
      * lia.
      * pose proof (block_size_of_room size ltac:(lia)). unfold DSIZE. lia.
Qed.

(** [mm_free] of a live pointer from a client's state. *)
Lemma free_step p :
  is_live c p = true ->
  exists st' bs' idx',
    mm_free fuel (cstate c) p = Some st'
    /\ client_ok fuel
         (mkClient st' (results c ++ [NULL]) (drop_live p (live c))) bs' idx'.
Proof.
  intros Hp. apply is_live_In in Hp. destruct Hp as (sz & Hin).
  pose proof (co_heap _ _ _ _ CO) as OK.
  pose proof (co_brk _ _ _ _ CO) as Hbrk.
  destruct (proj2 (co_live _ _ _ _ CO) p sz Hin) as (Hhp & s & Hb & _).
  assert (Hlive : live_in bs p).
  { apply (live_in_iff _ _ _ _ co_wf). exists s. split; assumption. }
  destruct (live_split _ _ _ _ co_wf Hlive) as (pre & Pv & s0 & post & E).
  destruct (mm_free_full (cstate c) bs idx pre Pv p s0 post fuel OK E co_short)
    as (m' & idx' & Hfree & OK' & _ & Hblocks & _).
  cbv zeta in OK', Hblocks.
  eexists. eexists. exists idx'. split; [exact Hfree|].
  apply client_ok_step;
    [exact OK' | reflexivity | reflexivity | | | reflexivity].
  - cbn [mem_brk set_heap mem_max_addr]. lia.
  - apply (live_ok_drop (cstate c) _ bs); [apply (co_live _ _ _ _ CO) | reflexivity|].
    intros b Hal Hbin Hne. apply (Hblocks b Hal). split; assumption.
Qed.

(** [mm_realloc] of a live pointer from a client's state. *)
Lemma resize_step p size :
  is_live c p = true -> 0 <= size <= 2 ^ 64 - 16 ->
  exists st' r bs' idx',
    mm_realloc fuel (cstate c) p size = Some (st', r)
    /\ client_ok fuel
         (mkClient st' (results c ++ [r])
            (if r =? NULL
             then (if size =? 0 then drop_live p (live c) else live c)
             else (r, size) :: drop_live p (live c))) bs' idx'.
Proof.
  intros Hp Hsize. pose proof (co_heap _ _ _ _ CO) as OK.
  pose proof (co_brk _ _ _ _ CO) as Hbrk.
  destruct (proj1 (is_live_In _ _) Hp) as (sz & Hin).
  destruct (proj2 (co_live _ _ _ _ CO) p sz Hin) as (Hhp & so & Hb & _).
  destruct (wf_inside _ _ _ co_wf _ Hb) as [_ Hp0]. cbn [bptr] in Hp0.
  destruct (Z.eq_dec size 0) as [-> | Hnz].
  - destruct (free_step p Hp) as (st' & bs' & idx' & Hfree & CO').
    exists st', NULL, bs', idx'. split; [|exact CO'].
    unfold mm_realloc.
    replace (p =? NULL) with false by (symmetry; apply Z.eqb_neq; exact Hp0).
    change (0 =? 0) with true. cbv iota. rewrite Hfree. reflexivity.
  - destruct (mm_realloc_full (cstate c) bs idx p so size fuel OK co_provider
                (proj2 Hbrk) (co_cap _ _ _ _ CO) Hb Hhp ltac:(lia)
                (co_fuel _ _ _ _ CO))
      as (st' & r & bs' & idx' & Hre & OK' & Hseg & Hmx & Hb1 & Hnull & Hnew).
    exists st', r, bs', idx'. split; [exact Hre|].
    destruct (Z.eq_dec r NULL) as [-> | Hr].
    + destruct (Hnull eq_refl) as (-> & -> & ->). change (NULL =? NULL) with true.
      replace (size =? 0) with false by (symmetry; apply Z.eqb_neq; exact Hnz).
      cbv iota.
      apply client_ok_step;
        [exact OK | reflexivity | reflexivity | lia | | reflexivity].
      apply (co_live _ _ _ _ CO).
    + replace (r =? NULL) with false by (symmetry; apply Z.eqb_neq; exact Hr).
      destruct (Hnew Hr) as (Hr8 & Hrp & s & Hs & Hblocks & Hfresh & _).
      pose proof (same_hp _ _ _ OK' Hseg) as Hhp'.
      apply client_ok_step; [exact OK' | exact Hseg | exact Hmx | lia | | exact Hr8].
      apply (live_ok_add (cstate c) st' bs bs' _ r s size).
      * apply (live_ok_drop (cstate c) st' bs bs');
          [apply (co_live _ _ _ _ CO) | exact Hhp'|].
        intros b Hal Hbin Hne. apply (Hblocks b Hal). left. split; assumption.
      * exact Hhp'.
      * exact co_boundary.
      * exact Hfresh.
      * intros q sz' Hq. apply drop_live_In in Hq.
        apply (co_live_block q sz'). apply Hq.
      * apply (Hblocks (mkBlock r s true) eq_refl). right. reflexivity.
      * lia.
      * unfold DSIZE. lia.
Qed.

(** The client writes into a payload it holds. *)
Lemma store_step p off bytes :
  existsb (fun e => (fst e =? p) && (0 <=? off)
                    && (off + Z.of_nat (length bytes) <=? snd e)) (live c)
  = true ->
  client_ok fuel
    (mkClient (set_heap (cstate c) (write_bytes (heap (cstate c)) (p + off) bytes))
       (results c ++ [NULL]) (live c)) bs idx.
Proof.
  intros H. apply existsb_exists in H. destruct H as ([q sz] & Hin & H).
  cbn [fst snd] in H. apply andb_true_iff in H. destruct H as [H H3].
  apply andb_true_iff in H. destruct H as [H1 H2].
  apply Z.eqb_eq in H1. apply Z.leb_le in H2, H3. subst q.
  pose proof (co_heap _ _ _ _ CO) as OK.
  pose proof (co_brk _ _ _ _ CO) as Hbrk.
  destruct (proj2 (co_live _ _ _ _ CO) p sz Hin) as (_ & s & Hb & _ & Hs).
  apply client_ok_step; [| reflexivity | reflexivity | | | reflexivity].
  - apply heap_ok_payload_write; [exact OK|].
    intros x Hx. apply byte_at_write_bytes_out.
    destruct (Z.lt_ge_cases x (p + off)) as [Hlt | Hge]; [left; exact Hlt|].
    destruct (Z.lt_ge_cases x (p + off + Z.of_nat (length bytes))) as [Hlt | Hge'];
      [|right; exact Hge'].
    exfalso. apply Hx. exists (mkBlock p s true).
    split; [exact Hb|]. split; [reflexivity|].
    unfold payload. cbn [bptr bsize]. lia.
  - cbn [mem_brk set_heap mem_max_addr]. lia.
  - apply (live_ok_same (cstate c) _ bs bs);
      [apply (co_live _ _ _ _ CO) | reflexivity | auto].
Qed.
End Step.

(** A call whose precondition holds returns, and the client's state stays
    well formed. *)
Lemma exec_spec fuel c bs idx op :
  client_ok fuel c bs idx -> sane_call op -> call_ok c op = true ->
  exists c' bs' idx', exec fuel c op = Some c' /\ client_ok fuel c' bs' idx'.
Proof.
  intros CO Hsane Hok.
  destruct op as [size | i | i size | i off bytes];
    cbn [exec call_ok sane_call] in *.
  - destruct (alloc_step fuel c bs idx CO size Hsane)
      as (st' & r & bs' & idx' & Hm & CO').
    rewrite Hm. eexists. exists bs', idx'. split; [reflexivity | exact CO'].
  - rewrite Hok. apply orb_true_iff in Hok. destruct Hok as [Hp | Hp].
    + apply Z.eqb_eq in Hp. rewrite Hp.
      change (mm_free fuel (cstate c) NULL) with (Some (cstate c)).
      eexists. exists bs, idx. split; [reflexivity|].
      rewrite (drop_live_absent NULL) by (apply (co_live_nonnull fuel c bs idx CO)).
      pose proof (co_brk _ _ _ _ CO).
      apply (client_ok_step fuel c bs idx CO);
        [apply CO | reflexivity | reflexivity | lia | apply CO | reflexivity].
    + destruct (free_step fuel c bs idx CO _ Hp) as (st' & bs' & idx' & Hf & CO').
      rewrite Hf. eexists. exists bs', idx'. split; [reflexivity | exact CO'].
  - rewrite Hok. apply orb_true_iff in Hok. destruct Hok as [Hp | Hp].
    + apply Z.eqb_eq in Hp. rewrite Hp.
      change (mm_realloc fuel (cstate c) NULL size)
        with (mm_malloc fuel (cstate c) size).
      destruct (alloc_step fuel c bs idx CO size Hsane)
        as (st' & r & bs' & idx' & Hm & CO').
      rewrite Hm. eexists. exists bs', idx'. split; [reflexivity|].
      rewrite (drop_live_absent NULL) by (apply (co_live_nonnull fuel c bs idx CO)).
      destruct (size =? 0); exact CO'.
    + destruct (resize_step fuel c bs idx CO _ size Hp Hsane)
        as (st' & r & bs' & idx' & Hre & CO').
      rewrite Hre. eexists. exists bs', idx'. split; [reflexivity | exact CO'].
  - rewrite Hok. eexists. exists bs, idx. split; [reflexivity|].
    apply (store_step fuel c bs idx CO). exact Hok.
Qed.

(** A call whose precondition fails is not run. *)
Lemma exec_refused fuel c op : call_ok c op = false -> exec fuel c op = None.
Proof.
  intros H. destruct op; cbn [exec call_ok] in *;
    [discriminate | rewrite H; reflexivity ..].
Qed.

Lemma run_spec fuel ops :
  forall c bs idx,
  client_ok fuel c bs idx -> Forall sane_call ops ->
  match run fuel c ops with
  | Some c' => exists bs' idx', client_ok fuel c' bs' idx'
  | None => breaks fuel c ops
  end.
Proof.
  induction ops as [|op ops IH]; intros c bs idx CO Hsane.
  - exists bs, idx. exact CO.
  - apply Forall_cons_iff in Hsane. destruct Hsane as [Hop Hsane].
    cbn [run]. destruct (call_ok c op) eqn:Hok.
    + destruct (exec_spec fuel c bs idx op CO Hop Hok)
        as (c1 & bs1 & idx1 & Hex & CO1).
      rewrite Hex. specialize (IH c1 bs1 idx1 CO1 Hsane).
      destruct (run fuel c1 ops) as [c'|]; [exact IH|].
      destruct IH as (pre & op' & post & c2 & E & Hrun & Hbad).
      exists (op :: pre), op', post, c2.
      split; [rewrite E; reflexivity|]. split; [|exact Hbad].
      cbn [run]. rewrite Hex. exact Hrun.
    + rewrite (exec_refused fuel c op Hok).
      exists [], op, ops, c. split; [reflexivity|]. split; [reflexivity | exact Hok].
Qed.

(** The client after [init()] on a fresh region. *)
Lemma session_start fuel base limit :
  0 < base -> base mod 8 = 0 -> base + 80 <= limit -> limit + 8 < 2 ^ 64 ->
  limit - base < 2 ^ 32 -> limit - base < 16 * Z.of_nat fuel ->
  exists st,
    mm_init (fresh_region base limit) = (st, 0)
    /\ client_ok fuel (mkClient st [] [])
         [mkBlock (base + 72) MIN_BLOCK_SIZE true] (fun _ => []).
Proof.
  intros Hb Hb8 Hroom Hlim Hcap Hfuel.
  destruct (mm_init_spec (fresh_region base limit)) as (st & Hi & OK & Hseg & Hbrk & Hmax).
  - split; cbn; lia.
  - exact Hb8.
  - exact Hroom.
  - intros y _. reflexivity.
  - cbn [fresh_region mem_brk mem_max_addr] in *.
    exists st. split; [exact Hi|].
    constructor; cbn [cstate results live]; rewrite ?Hseg, ?Hbrk, ?Hmax;
      try assumption; try lia.
    + split; [constructor|]. intros p sz [].
    + constructor.
Qed.

(** ** What a client observes in a well-formed state *)

Lemma client_ok_tags fuel c bs idx p sz :
  client_ok fuel c bs idx -> In (p, sz) (live c) -> tags_agree (cstate c) p = true.
Proof.
  intros CO Hin. pose proof (co_wf fuel c bs idx CO) as WF.
  destruct (co_live_block fuel c bs idx CO p sz Hin) as (s & Hb).
  destruct (wf_tags_of _ _ _ WF _ Hb) as [Hh Hf].
  pose proof (wf_GET_SIZE _ _ _ WF _ Hb) as Hsz.
  cbn [bptr bsize] in Hh, Hf, Hsz.
  unfold tags_agree, GET_FOOTER. rewrite Hsz.
  unfold GET, GET_HEADER, WSIZE, DSIZE. rewrite Hh, Hf. apply Z.eqb_refl.
Qed.

Lemma client_ok_disjoint fuel c bs idx :
  client_ok fuel c bs idx -> pairwise_disjoint (live_ranges c) = true.
Proof.
  intros CO. pose proof (co_wf fuel c bs idx CO) as WF.
  pose proof (co_live_block fuel c bs idx CO) as Hblock.
  destruct (co_live _ _ _ _ CO) as [Hnd _].
  unfold live_ranges. revert Hnd Hblock.
  induction (live c) as [|[p sz] l IH]; intros Hnd Hblock; [reflexivity|].
  cbn [map fst pairwise_disjoint] in *.
  apply NoDup_cons_iff in Hnd. destruct Hnd as [Hnew Hnd].
  apply andb_true_iff. split.
  - apply forallb_forall. intros r Hr. apply in_map_iff in Hr.
    destruct Hr as ([q sz'] & <- & Hq). cbn [fst snd].
    destruct (Hblock p sz (or_introl eq_refl)) as (s1 & H1).
    destruct (Hblock q sz' (or_intror Hq)) as (s2 & H2).
    pose proof (wf_GET_SIZE _ _ _ WF _ H1) as G1.
    pose proof (wf_GET_SIZE _ _ _ WF _ H2) as G2.
    cbn [bptr bsize] in G1, G2.
    unfold block_lo, block_hi. rewrite G1, G2. unfold GET_HEADER, WSIZE.
    apply orb_true_iff.
    destruct (tiles_sep _ _ _ _ _ (wf_tiles _ _ _ WF) H1 H2) as [E | [H | H]].
    + exfalso. apply Hnew. injection E as -> _.
      apply in_map_iff. exists (q, sz'). split; [reflexivity | exact Hq].
    + left. apply Z.leb_le. cbn [bptr bsize] in H. lia.
    + right. apply Z.leb_le. cbn [bptr bsize] in H. lia.
  - apply IH; [exact Hnd|]. intros q sz' Hq. apply (Hblock q sz'). right. exact Hq.
Qed.

(** Sessions whose request sizes are at most [2^64 - 16], on a fresh
    8-aligned region of less than 4 GiB with room for [mm_init]: the
    session runs to its end unless a call breaks its documented
    precondition, and then the heap is well formed, the blocks of the live
    allocations are pairwise disjoint, header and footer of each agree,
    and every pointer returned is a multiple of 8. *)
Theorem sane_sessions_are_safe fuel base limit ops :
  0 < base -> base mod 8 = 0 -> base + 80 <= limit -> limit + 8 < 2 ^ 64 ->
  limit - base < 2 ^ 32 -> limit - base < 16 * Z.of_nat fuel ->
  Forall sane_call ops ->
  match session fuel base limit ops with
  | Some c =>
      (exists bs idx, client_ok fuel c bs idx)
      /\ pairwise_disjoint (live_ranges c) = true
      /\ forallb (tags_agree (cstate c)) (map fst (live c)) = true
      /\ Forall (fun r => r mod 8 = 0) (results c)
  | None =>
      breaks fuel (mkClient (fst (mm_init (fresh_region base limit))) [] []) ops
  end.
Proof.
  intros Hb Hb8 Hroom Hlim Hcap Hfuel Hsane.
  destruct (session_start fuel base limit Hb Hb8 Hroom Hlim Hcap Hfuel)
    as (st & Hi & CO).
  unfold session. rewrite Hi. change (0 =? 0) with true. cbv iota.
  cbn [fst].
  pose proof (run_spec fuel ops _ _ _ CO Hsane) as H.
  destruct (run fuel (mkClient st [] []) ops) as [c|]; [|exact H].
  destruct H as (bs & idx & CO').
  split; [exists bs, idx; exact CO'|].
  split; [apply (client_ok_disjoint fuel c bs idx CO')|].
  split; [|apply (co_aligned _ _ _ _ CO')].
  apply forallb_forall. intros p Hp. apply in_map_iff in Hp.
  destruct Hp as ([q sz] & <- & Hq). apply (client_ok_tags fuel c bs idx q sz CO' Hq).
Qed.

(** * Further properties of the source *)

(** ** Macros *)

(** A tag written with [PUT(p, PACK(size, alloc))] reads back through
    [GET_SIZE] and [GET_ALLOC]: the flag as written, the size modulo
    [2^32], the width of a tag.  A size below [2^32] is read back as
    written; a larger one loses its high bits. *)
Theorem tag_round_trip st p s a :
  0 <= s -> s mod 8 = 0 -> a = 0 \/ a = 1 ->
  GET_SIZE (PUT st p (PACK s a)) p = s mod 2 ^ 32
  /\ GET_ALLOC (PUT st p (PACK s a)) p = a
  /\ (s < 2 ^ 32 -> GET_SIZE (PUT st p (PACK s a)) p = s).
Proof.
  intros Hs H8 Ha.
  assert (Hget : GET (PUT st p (PACK s a)) p = s mod 2 ^ 32 + a).
  { rewrite GET_PUT_same, PACK_add by assumption.
    change (2 ^ 32) with 4294967296. Z.div_mod_to_equations. lia. }
  assert (Hm8 : (s mod 2 ^ 32) mod 8 = 0).
  { change (2 ^ 32) with 4294967296. Z.div_mod_to_equations. lia. }
  assert (Hsz : GET_SIZE (PUT st p (PACK s a)) p = s mod 2 ^ 32)
    by (apply (GET_SIZE_of_tag _ _ _ a); assumption).
  split; [exact Hsz|]. split.
  - apply (GET_ALLOC_of_tag _ _ (s mod 2 ^ 32)); assumption.
  - intros Hlt. rewrite Hsz. apply Z.mod_small. lia.
Qed.

(** [ALIGN(x)] is a multiple of 8; it is the least multiple of 8 that is
    at least [x] as long as [x <= 2^64 - 8], and 0 above that, where
    [x + 7] wraps. *)
Theorem ALIGN_rounds_up x :
  0 <= x < 2 ^ 64 ->
  ALIGN x mod 8 = 0
  /\ (x <= 2 ^ 64 - 8 -> x <= ALIGN x < x + 8)
  /\ (2 ^ 64 - 8 < x -> ALIGN x = 0).
Proof.
  intros Hx. rewrite ALIGN_spec. unfold wrap64.
  change (2 ^ 64) with 18446744073709551616 in *.
  split; [rewrite Z.mul_comm; apply Z.mod_mul; lia|].
  split; intros H.
  - rewrite Z.mod_small by lia. Z.div_mod_to_equations. lia.
  - Z.div_mod_to_equations. lia.
Qed.

(** ** The block size of a request *)

(** The block size [mm_malloc] computes: up to [2^64 - 16] it is a
    multiple of 8 with room for the request and the two tags, and less
    than 16 bytes larger than the request; above [2^64 - 16] the
    arithmetic wraps and the block size is 16, smaller than the request. *)
Theorem block_size_cases size :
  0 < size < 2 ^ 64 ->
  (size <= 2 ^ 64 - 16 ->
   block_size_of size mod 8 = 0
   /\ MIN_BLOCK_SIZE <= block_size_of size
   /\ size + DSIZE <= block_size_of size < size + 2 * DSIZE)
  /\ (2 ^ 64 - 16 < size -> block_size_of size = MIN_BLOCK_SIZE).
Proof.
  intros Hsize. split; intros H.
  - destruct (block_size_of_range size ltac:(lia)) as [[Hmin _] H8].
    split; [exact H8|]. split; [exact Hmin|].
    rewrite block_size_of_sane by lia. unfold DSIZE.
    Z.div_mod_to_equations. lia.
  - unfold block_size_of, MIN_BLOCK_SIZE, DSIZE.
    assert (E : wrap64 (wrap64 (size + 2 * 8) - size) = 16).
    { unfold wrap64. change (2 ^ 64) with 18446744073709551616 in *.
      Z.div_mod_to_equations. lia. }
    rewrite E, ALIGN_16.
    destruct (ALIGN (wrap64 (size + 8)) <? 2 * 8) eqn:E1; [reflexivity|].
    exfalso. apply Z.ltb_ge in E1. rewrite ALIGN_spec in E1. unfold wrap64 in E1.
    change (2 ^ 64) with 18446744073709551616 in *.
    Z.div_mod_to_equations. lia.
Qed.

(** ** Size classes *)

(** [get_size_class] always returns one of the eight classes.  Below
    [2^37] it is [min(size / 64, 7)], so it grows with the size; from
    [2^37] up to [2^38], where [size / 64] no longer fits [int] and the
    conversion turns negative, it is class 0. *)
Theorem size_class_cases size :
  0 <= size < 2 ^ 64 ->
  0 <= get_size_class size < SEG_LIST_COUNT
  /\ (size < 2 ^ 37 -> get_size_class size = Z.min (size / 64) 7)
  /\ (forall size', size <= size' < 2 ^ 37 ->
        get_size_class size <= get_size_class size')
  /\ (2 ^ 37 <= size < 2 ^ 38 -> get_size_class size = 0).
Proof.
  intros Hsize. split; [apply get_size_class_range|].
  split; [intros H; apply get_size_class_spec; lia|]. split.
  - intros size' H. rewrite !get_size_class_spec by lia.
    unfold spec_start_class, SEG_LIST_COUNT.
    assert (size / 64 <= size' / 64) by (apply Z.div_le_mono; lia). lia.
  - intros H. unfold get_size_class, to_int, SEG_LIST_COUNT.
    change (2 ^ 37) with (64 * 2147483648) in H.
    change (2 ^ 38) with (64 * 4294967296) in H.
    assert (Hq : 2147483648 <= size / 64 < 4294967296).
    { split; [apply Z.div_le_lower_bound; lia
             | apply Z.div_lt_upper_bound; lia]. }
    change (2 ^ 31) with 2147483648. change (2 ^ 32) with 4294967296.
    assert (E : (size / 64 + 2147483648) mod 4294967296
                = size / 64 - 2147483648).
    { symmetry. apply (Z.mod_unique _ _ 1); lia. }
    rewrite E.
    destruct (size / 64 - 2147483648 - 2147483648 >=? 8) eqn:E1.
    + rewrite Z.geb_leb in E1. apply Z.leb_le in E1. lia.
    + destruct (size / 64 - 2147483648 - 2147483648 <? 0) eqn:E2;
        [reflexivity|]. apply Z.ltb_ge in E2. lia.
Qed.

(** ** The fit finder in a well-formed heap *)

(** In a well-formed heap [get_fit] misses nothing and invents nothing: a
    non-null result is a free block of the heap at least as large as the
    request, and the result is null only when every free block of the heap
    is smaller than the request. *)
Theorem fit_finder_exact st bs idx size :
  heap_ok st bs idx -> 0 <= size < 2 ^ 64 ->
  exists fuel0, forall fuel, (fuel0 <= fuel)%nat ->
  exists r,
    get_fit fuel st size = Some r
    /\ (r <> NULL -> exists s, In (mkBlock r s false) bs /\ size <= s)
    /\ (r = NULL -> forall b, In b bs -> balloc b = false -> bsize b < size).
Proof.
  intros OK Hsize. pose proof (ok_wf _ _ _ OK) as WF.
  exists (S (length (flat_map idx (classes_from 0)))). intros fuel Hfuel.
  exists (spec_fit st idx size). split; [|split].
  - apply get_fit_walks; [exact Hsize|]. intros c Hc.
    split; [apply (wf_walk _ _ _ WF c Hc) | apply (fuel_for_index idx fuel Hfuel c Hc)].
  - intros Hr. apply (spec_fit_found st bs idx size _ OK); [lia | reflexivity | exact Hr].
  - intros Hr. apply (spec_fit_none st bs idx size OK); [lia | exact Hr].
Qed.

(** ** The index: push, unlink, and both *)

Lemma remove_loop_absent st p l :
  forall j, walk st j l -> ~ In p l -> forall fuel k, (length l < fuel)%nat ->
  remove_loop fuel st p k j = Some st.
Proof.
  induction 1 as [j Hend | j l Hin Hw IH]; intros Hp fuel k Hf.
  - destruct fuel as [|fuel]; [inversion Hf|]. cbn [remove_loop]. rewrite Hend.
    reflexivity.
  - destruct fuel as [|fuel]; [inversion Hf|]. cbn [remove_loop]. rewrite Hin.
    replace (p =? j) with false
      by (symmetry; apply Z.eqb_neq; intros ->; apply Hp; left; reflexivity).
    apply IH; [|simpl in Hf; lia]. intros H. apply Hp. right. exact H.
Qed.


(** [seg_list_remove] on a pointer that its class list does not hold
    walks the list to its end and changes nothing. *)
Theorem seg_list_remove_absent fuel st p l :
  walk st (class_head st (get_size_class (GET_SIZE st (GET_HEADER p)))) l ->
  ~ In p l -> (length l < fuel)%nat ->
  seg_list_remove fuel st p = Some st.
Proof.
  intros Hw Hp Hf. unfold seg_list_remove.
  apply (remove_loop_absent st p l); assumption.
Qed.






(** ** grow_heap and place *)

(** [grow_heap], for every [size]: for size 0, or when the provider has
    no room, it returns [NULL] and changes nothing.  Otherwise it returns
    the old break plus 8, the break advances by exactly [size], [mem_bp]
    follows the new break, and exactly two four-byte words are written,
    both with the low 32 bits of [size]: the header at the old break plus
    4, and the footer where the size field just written (those bits with
    the low three cleared) puts it.  When [size] is a multiple of 8 below
    [2^32] the block reads as free with exactly [size] and the footer lies
    at the new break itself: its four bytes are the first four that the
    provider has not handed out. *)
Theorem grow_heap_cases st size :
  provider_ok st -> 0 <= size < 2 ^ 64 ->
  (size = 0 \/ mem_max_addr st < mem_brk st + size ->
   grow_heap st size = (st, NULL))
  /\ (0 < size -> mem_brk st + size <= mem_max_addr st ->
      let p := mem_brk st + DSIZE in
      let field := Z.land (size mod 2 ^ 32) (Z.lnot 7) in
      exists st',
        grow_heap st size = (st', p)
        /\ mem_brk st' = mem_brk st + size
        /\ mem_bp st' = mem_brk st' - 1
        /\ mem_max_addr st' = mem_max_addr st
        /\ seg_lists st' = seg_lists st
        /\ mem_hp st' = mem_hp st
        /\ GET st' (GET_HEADER p) = size mod 2 ^ 32
        /\ GET_FOOTER st' p = p + field - DSIZE
        /\ GET st' (GET_FOOTER st' p) = size mod 2 ^ 32
        /\ (forall x,
              x < p - 4 \/ p <= x ->
              x < p + field - 8 \/ p + field - 4 <= x ->
              byte_at (heap st') x = byte_at (heap st) x)
        /\ (size < 2 ^ 32 -> size mod 8 = 0 ->
            GET_SIZE st' (GET_HEADER p) = size
            /\ GET_ALLOC st' (GET_HEADER p) = 0
            /\ GET_FOOTER st' p = mem_brk st')).
Proof.
  intros Hprov Hsize. split.
  - intros [-> | Hfull]; [reflexivity | apply grow_heap_fail; exact Hfull].
  - intros Hpos Hroom p field.
    exists (grown st size).
    split; [apply grow_heap_grow; assumption|].
    destruct (PUT_pair (set_brk st (mem_brk st + size)) p (PACK size 0))
      as (_ & Hf2 & Hh & Hft & Hst).
    assert (Ev : PACK size 0 = size) by (unfold PACK; apply Z.lor_0_r).
    rewrite Ev in Hf2, Hh, Hft, Hst. fold field in Hf2, Hst.
    assert (Eg : grown st size
                 = mkState (store4 (store4 (heap st) (p - 4) size)
                              (p + field - 8) size)
                     (mem_brk st + size) (mem_max_addr st) (seg_lists st)
                     (mem_hp st) (mem_brk st + size - 1)).
    { unfold grown. cbv zeta. fold p. rewrite Ev, Hst. reflexivity. }
    assert (Egh : forall a, GET (grown st size) a
                  = GET (PUT (PUT (set_brk st (mem_brk st + size)) (GET_HEADER p) size)
                           (GET_FOOTER (PUT (set_brk st (mem_brk st + size))
                                          (GET_HEADER p) size) p) size) a).
    { intros a. rewrite Eg, Hst. reflexivity. }
    assert (Hh' : GET (grown st size) (GET_HEADER p) = size mod 2 ^ 32)
      by (rewrite Egh; exact Hh).
    assert (Hf' : GET_FOOTER (grown st size) p = p + field - DSIZE).
    { unfold GET_FOOTER, GET_SIZE. rewrite Hh'. reflexivity. }
    split; [rewrite Eg; reflexivity|]. split; [rewrite Eg; reflexivity|].
    split; [rewrite Eg; reflexivity|]. split; [rewrite Eg; reflexivity|].
    split; [rewrite Eg; reflexivity|]. split; [exact Hh'|].
    split; [exact Hf'|]. split.
    { rewrite Hf', Egh, <- Hf2. exact Hft. }
    split.
    { intros x Hx1 Hx2. rewrite Eg. cbn [heap]. unfold store4.
      rewrite !byte_at_store_out by lia. reflexivity. }
    intros Hlt H8.
    assert (Esmall : size mod 2 ^ 32 = size) by (apply Z.mod_small; lia).
    assert (Ef : field = size).
    { unfold field. rewrite Esmall.
      replace size with (size + 0) at 1 by lia. apply size_of_tag; auto. }
    split; [unfold GET_SIZE; rewrite Hh'; exact Ef|]. split.
    + unfold GET_ALLOC. rewrite Hh', Esmall.
      replace size with (size + 0) by lia. apply alloc_of_tag; auto.
    + rewrite Hf', Ef, Eg. cbn [mem_brk]. unfold p, DSIZE. lia.
Qed.

(** [place] does nothing for a null pointer or a zero size; otherwise
    header and footer both read [size] with the allocated flag, the
    footer being found [size - 8] bytes after the pointer, and no other
    byte changes. *)
Theorem place_writes_both_tags st p s :
  place st NULL s = st /\ place st p 0 = st
  /\ (p <> NULL -> 0 < s < 2 ^ 32 -> s mod 8 = 0 ->
      GET_SIZE (place st p s) (GET_HEADER p) = s
      /\ GET_ALLOC (place st p s) (GET_HEADER p) = 1
      /\ GET_FOOTER (place st p s) p = p + s - DSIZE
      /\ GET (place st p s) (GET_FOOTER (place st p s) p)
         = GET (place st p s) (GET_HEADER p)
      /\ same_region st (place st p s)
      /\ (forall x, x < p - 4 \/ p <= x -> x < p + s - 8 \/ p + s - 4 <= x ->
            byte_at (heap (place st p s)) x = byte_at (heap st) x)).
Proof.
  split; [reflexivity|]. split.
  { unfold place. rewrite Z.eqb_refl, orb_true_r. reflexivity. }
  intros Hp Hs H8.
  assert (H8' : 8 <= s) by (Z.div_mod_to_equations; lia).
  rewrite place_tags by assumption.
  assert (Hh : GET (set_heap st (write_tags (heap st) p s 1)) (GET_HEADER p)
               = s + 1).
  { unfold GET, GET_HEADER, WSIZE. cbn [heap set_heap].
    apply load4_write_tags_header; auto; lia. }
  assert (Hsz : GET_SIZE (set_heap st (write_tags (heap st) p s 1)) (GET_HEADER p)
                = s) by (apply (GET_SIZE_of_tag _ _ _ 1); auto).
  split; [exact Hsz|].
  split; [apply (GET_ALLOC_of_tag _ _ s 1); auto|].
  split; [unfold GET_FOOTER; rewrite Hsz; reflexivity|].
  split; [|split].
  - rewrite Hh. unfold GET_FOOTER. rewrite Hsz. unfold GET, DSIZE.
    cbn [heap set_heap]. apply load4_write_tags_footer; auto; lia.
  - repeat split.
  - intros x H1 H2. cbn [heap set_heap].
    apply byte_at_write_tags_other; assumption.
Qed.

(** ** What the operations never touch *)

Lemma same_region_refl st : same_region st st.
Proof. repeat split. Qed.

Lemma same_region_trans st1 st2 st3 :
  same_region st1 st2 -> same_region st2 st3 -> same_region st1 st3.
Proof. unfold same_region. intuition congruence. Qed.

Lemma same_region_set_heap st m : same_region st (set_heap st m).
Proof. repeat split. Qed.

Lemma same_region_INSIDE st st' p :
  same_region st st' -> INSIDE_HEAP st' p = INSIDE_HEAP st p.
Proof. intros (_ & _ & _ & H1 & H2). unfold INSIDE_HEAP. rewrite H1, H2. reflexivity. Qed.

Lemma same_region_place st p s : same_region st (place st p s).
Proof.
  unfold place. destruct ((p =? NULL) || (s =? 0)); [apply same_region_refl|].
  repeat split.
Qed.

Lemma same_region_remove_loop fuel st p :
  forall k j st', remove_loop fuel st p k j = Some st' -> same_region st st'.
Proof.
  induction fuel as [|fuel IH]; intros k j st' H; cbn [remove_loop] in H;
    [discriminate|].
  destruct (INSIDE_HEAP st j && negb (j =? 0));
    [|injection H as <-; apply same_region_refl].
  destruct (p =? j); [|apply (IH _ _ _ H)].
  injection H as <-.
  destruct (INSIDE_HEAP st (GET_NEXT_FREE st j) && negb (GET_NEXT_FREE st j =? 0));
    repeat split.
Qed.

Lemma same_region_seg_list_remove fuel st p st' :
  seg_list_remove fuel st p = Some st' -> same_region st st'.
Proof. unfold seg_list_remove. apply same_region_remove_loop. Qed.

Lemma same_region_seg_list_add st p : same_region st (seg_list_add st p).
Proof.
  unfold seg_list_add. destruct (p =? NULL); [apply same_region_refl|].
  cbv zeta.
  match goal with |- context [if ?c then _ else _] => destruct c end;
    repeat split.
Qed.

Lemma same_region_coalesce fuel st p size st' :
  coalesce fuel st p size = Some st' -> same_region st st'.
Proof.
  unfold coalesce. destruct ((p =? NULL) || (size =? 0));
    [intros H; injection H as <-; apply same_region_refl|].
  unfold coalesce_unlink. cbv zeta.
  destruct (INSIDE_HEAP st (GET_PREV st p)
            && (GET_ALLOC st (GET_HEADER (GET_PREV st p)) =? 0)).
  - destruct (seg_list_remove fuel st (GET_PREV st p)) as [st1|] eqn:E1;
      [|discriminate].
    pose proof (same_region_seg_list_remove _ _ _ _ E1) as R1.
    destruct (INSIDE_HEAP st (GET_NEXT st p)
              && (GET_ALLOC st (GET_HEADER (GET_NEXT st p)) =? 0)).
    + destruct (seg_list_remove fuel st1 (GET_NEXT st1 p)) as [st2|] eqn:E2;
        [|discriminate].
      pose proof (same_region_seg_list_remove _ _ _ _ E2) as R2.
      intros H. injection H as <-. unfold coalesce_write. cbv zeta.
      eapply same_region_trans; [exact R1|].
      eapply same_region_trans; [exact R2|].
      eapply same_region_trans; [|apply same_region_seg_list_add].
      repeat split.
    + intros H. injection H as <-. unfold coalesce_write. cbv zeta.
      eapply same_region_trans; [exact R1|].
      eapply same_region_trans; [|apply same_region_seg_list_add].
      repeat split.
  - destruct (INSIDE_HEAP st (GET_NEXT st p)
              && (GET_ALLOC st (GET_HEADER (GET_NEXT st p)) =? 0)).
    + destruct (seg_list_remove fuel st (GET_NEXT st p)) as [st2|] eqn:E2;
        [|discriminate].
      pose proof (same_region_seg_list_remove _ _ _ _ E2) as R2.
      intros H. injection H as <-. unfold coalesce_write. cbv zeta.
      eapply same_region_trans; [exact R2|].
      eapply same_region_trans; [|apply same_region_seg_list_add].
      repeat split.
    + intros H. injection H as <-. unfold coalesce_write. cbv zeta.
      eapply same_region_trans; [|apply same_region_seg_list_add].
      repeat split.
Qed.

(** [mm_free] never moves the break and never changes a global: whatever
    the state and the pointer it is given, if it returns, only memory has
    changed.  Nothing is ever handed back to the region provider. *)
Theorem release_keeps_region fuel st p st' :
  mm_free fuel st p = Some st' -> same_region st st'.
Proof.
  unfold mm_free. destruct (p =? NULL).
  - intros H. injection H as <-. apply same_region_refl.
  - apply same_region_coalesce.
Qed.

(** [mm_malloc] never shrinks the heap, whatever the state it starts
    from: either the break and the globals stay (a fit was used, or the
    result is null), or the break has advanced by exactly the computed
    block size, the result is the old break plus 8, and [mem_bp] follows
    the new break. *)
Theorem allocate_never_shrinks fuel st size st' r :
  provider_ok st -> 0 <= size < 2 ^ 64 ->
  mm_malloc fuel st size = Some (st', r) ->
  mem_max_addr st' = mem_max_addr st /\ seg_lists st' = seg_lists st
  /\ mem_hp st' = mem_hp st
  /\ (same_region st st'
      \/ (mem_brk st' = mem_brk st + block_size_of size
          /\ r = mem_brk st + DSIZE /\ mem_bp st' = mem_brk st' - 1)).
Proof.
  intros Hprov Hsize H.
  assert (Hsame : forall st2, same_region st st2 ->
            mem_max_addr st2 = mem_max_addr st /\ seg_lists st2 = seg_lists st
            /\ mem_hp st2 = mem_hp st
            /\ (same_region st st2
                \/ (mem_brk st2 = mem_brk st + block_size_of size
                    /\ r = mem_brk st + DSIZE /\ mem_bp st2 = mem_brk st2 - 1))).
  { intros st2 R. pose proof R as (_ & R2 & R3 & R4 & _). auto. }
  unfold mm_malloc in H.
  destruct (size =? 0); [injection H as <- _; apply Hsame, same_region_refl|].
  cbv zeta in H.
  destruct (get_fit fuel st (block_size_of size)) as [fit|]; [|discriminate].
  destruct (fit =? NULL) eqn:Efit; cbn [negb] in H.
  - destruct (block_size_of_range size Hsize) as [[Hb _] _].
    unfold MIN_BLOCK_SIZE, DSIZE in Hb.
    destruct (Z.lt_ge_cases (mem_max_addr st) (mem_brk st + block_size_of size))
      as [Hfull | Hroom].
    + rewrite grow_heap_fail in H by exact Hfull. cbn in H.
      injection H as <- _. apply Hsame, same_region_refl.
    + rewrite grow_heap_grow in H by (try assumption; lia).
      destruct Hprov as [Hbrk _].
      replace (mem_brk st + DSIZE =? NULL) with false in H
        by (symmetry; apply Z.eqb_neq; unfold DSIZE, NULL; lia).
      cbn [negb] in H. injection H as <- <-.
      pose proof (same_region_place (grown st (block_size_of size))
                    (mem_brk st + DSIZE) (block_size_of size))
        as (R1 & R2 & R3 & R4 & R5).
      rewrite R1, R2, R3, R4, R5. unfold grown. cbv zeta.
      cbn. repeat split. right. repeat split.
  - destruct (MIN_BLOCK_SIZE <=? wrap64 (GET_SIZE st (GET_HEADER fit)
                                          - block_size_of size)).
    + unfold malloc_split in H.
      destruct (seg_list_remove fuel st fit) as [st1|] eqn:E1; [|discriminate].
      injection H as <- _. apply Hsame.
      eapply same_region_trans;
        [apply (same_region_seg_list_remove _ _ _ _ E1)|].
      unfold split_write. cbv zeta.
      eapply same_region_trans; [apply same_region_place|].
      eapply same_region_trans; [|apply same_region_seg_list_add].
      repeat split.
    + unfold malloc_absorb in H.
      destruct (seg_list_remove fuel (malloc_absorb_placed st fit) fit)
        as [st1|] eqn:E1; [|discriminate].
      injection H as <- _. apply Hsame.
      eapply same_region_trans;
        [|apply (same_region_seg_list_remove _ _ _ _ E1)].
      apply same_region_place.
Qed.

(** ** What a release and an allocation leave to the others *)

Lemma index_short_brk st bs idx fuel :
  heap_wf st bs idx ->
  mem_brk st - seg_lists st < 16 * Z.of_nat fuel ->
  forall c, 0 <= c < SEG_LIST_COUNT -> (length (idx c) < fuel)%nat.
Proof.
  intros WF Hfuel c Hc.
  assert (Hlen : (length (idx c) <= length (map bptr bs))%nat).
  { apply NoDup_incl_length; [apply (wf_nodup _ _ _ WF c Hc)|].
    intros q Hq. destruct (wf_node _ _ _ WF c q Hc Hq) as (b & Hb & <- & _).
    apply in_map. exact Hb. }
  rewrite length_map in Hlen.
  pose proof (tiles_length _ _ _ (wf_tiles _ _ _ WF)) as Ht.
  pose proof (wf_hp _ _ _ WF). lia.
Qed.

(** [mm_free] of a live block leaves every other allocated block
    allocated, with the payload bytes it had, and the freed pointer names
    no allocated block any more. *)
Theorem release_keeps_others st bs idx p :
  heap_ok st bs idx -> live_in bs p ->
  exists fuel0, forall fuel, (fuel0 <= fuel)%nat ->
  exists st' bs' idx',
    mm_free fuel st p = Some st'
    /\ heap_ok st' bs' idx'
    /\ (forall b, balloc b = true -> (In b bs' <-> In b bs /\ bptr b <> p))
    /\ (forall b x, In b bs -> balloc b = true -> bptr b <> p -> payload b x ->
          byte_at (heap st') x = byte_at (heap st) x).
Proof.
  intros OK Hlive. pose proof (ok_wf _ _ _ OK) as WF.
  destruct (live_split _ _ _ _ WF Hlive) as (pre & Pv & s & post & E).
  exists (S (length (flat_map idx (classes_from 0)))). intros fuel Hfuel.
  destruct (mm_free_full st bs idx pre Pv p s post fuel OK E
              (fuel_for_index idx fuel Hfuel))
    as (m' & idx' & Hfree & OK' & _ & Hblocks & Hfr & _).
  cbv zeta in OK', Hblocks, Hfr.
  eexists. eexists. exists idx'.
  split; [exact Hfree|]. split; [exact OK'|]. split; [exact Hblocks|].
  intros b x Hb Hal Hne Hx. cbn [heap set_heap].
  apply (Hfr b x); [|exact Hal | exact Hx].
  apply (Hblocks b Hal). split; assumption.
Qed.

Lemma span_free_nbr_nonneg st bs idx o :
  heap_wf st bs idx -> (forall b, o = Some b -> In b bs) ->
  0 <= span (free_nbr o).
Proof.
  intros WF H. destruct o as [b|]; [|simpl; lia].
  unfold free_nbr. destruct (balloc b); [simpl; lia|].
  destruct (wf_block _ _ _ WF b (H b eq_refl)) as (_ & _ & S & _).
  cbn [span fold_right]. lia.
Qed.

(** Memory is reused: after [mm_free] of a live block of [s] bytes, an
    [mm_malloc] whose block size is at most [s] succeeds without moving
    the break, also when the region provider is exhausted. *)
Theorem release_then_allocate_reuses st bs idx p s size :
  heap_ok st bs idx -> provider_ok st ->
  In (mkBlock p s true) bs -> p <> mem_hp st ->
  0 < size < 2 ^ 64 -> block_size_of size <= s ->
  exists fuel0, forall fuel, (fuel0 <= fuel)%nat ->
  exists st1 st2 r,
    mm_free fuel st p = Some st1
    /\ mm_malloc fuel st1 size = Some (st2, r)
    /\ r <> NULL
    /\ mem_brk st2 = mem_brk st.
Proof.
  intros OK Hprov HB Hhp Hsize Hfit. pose proof (ok_wf _ _ _ OK) as WF.
  assert (Hlive : live_in bs p).
  { apply (live_in_iff _ _ _ _ WF). exists s. split; assumption. }
  destruct (live_split _ _ _ _ WF Hlive) as (pre & Pv & s0 & post & E).
  assert (Hs0 : s0 = s).
  { assert (Hin : In (mkBlock p s0 true) bs)
      by (rewrite E; apply in_or_app; right; right; left; reflexivity).
    pose proof (tiles_ptr_inj _ _ _ _ _ (wf_tiles _ _ _ WF) Hin HB eq_refl) as Heq.
    injection Heq as ->. reflexivity. }
  subst s0.
  exists (S (Z.to_nat (mem_brk st - seg_lists st))). intros fuel Hfuel.
  assert (Hf16 : mem_brk st - seg_lists st < 16 * Z.of_nat fuel) by lia.
  destruct (mm_free_full st bs idx pre Pv p s post fuel OK E
              (index_short_brk st bs idx fuel WF Hf16))
    as (m1 & idx1 & Hfree & OK1 & _ & _ & _).
  cbv zeta in OK1.
  set (M := mkBlock (p - span (free_nbr (Some Pv)))
              (span (free_nbr (Some Pv)) + s + span (free_nbr (hd_error post)))
              false) in *.
  set (bs1 := (if balloc Pv then pre ++ [Pv] else pre)
              ++ M :: skipn (length (free_nbr (hd_error post))) post) in *.
  assert (HM : In M bs1) by (apply in_or_app; right; left; reflexivity).
  assert (HMs : s <= bsize M).
  { cbn [bsize M].
    assert (0 <= span (free_nbr (Some Pv))).
    { apply (span_free_nbr_nonneg st bs idx _ WF). intros b Hb. injection Hb as <-.
      rewrite E. apply in_or_app. right. left. reflexivity. }
    assert (0 <= span (free_nbr (hd_error post))).
    { apply (span_free_nbr_nonneg st bs idx _ WF). intros b Hb.
      destruct post as [|Nx post']; [discriminate|]. injection Hb as <-.
      rewrite E. apply in_or_app. right. right. right. left. reflexivity. }
    lia. }
  pose proof (ok_wf _ _ _ OK1) as WF1.
  destruct (mm_malloc_spec (set_heap st m1) bs1 idx1 size fuel OK1 Hprov Hsize
              (index_short_brk _ bs1 idx1 fuel WF1 Hf16))
    as [(l1 & j & sj & l2 & m' & idx' & E' & Hle & Hm & _)
       | [(Hno & _) | (Hno & _)]].
  - exists (set_heap st m1), (set_heap (set_heap st m1) m'), j.
    split; [exact Hfree|]. split; [exact Hm|]. split; [|reflexivity].
    assert (Hin : In (mkBlock j sj false) bs1)
      by (rewrite E'; apply in_or_app; right; left; reflexivity).
    destruct (wf_inside _ _ _ WF1 _ Hin) as [_ Hj]. exact Hj.
  - specialize (Hno M HM eq_refl). lia.
  - specialize (Hno M HM eq_refl). lia.
Qed.

(** When some free block is large enough, [mm_malloc] serves the request
    from a free block without moving the break: a remainder of at least
    16 bytes is split off as a free block right behind an allocated block
    of exactly the computed size; a smaller remainder stays inside the
    allocated block. *)
Theorem allocate_from_fit st bs idx size :
  heap_ok st bs idx -> provider_ok st -> 0 < size < 2 ^ 64 ->
  (exists b, In b bs /\ balloc b = false /\ block_size_of size <= bsize b) ->
  exists fuel0, forall fuel, (fuel0 <= fuel)%nat ->
  exists l1 j sj l2 st' idx',
    bs = l1 ++ mkBlock j sj false :: l2
    /\ block_size_of size <= sj
    /\ mm_malloc fuel st size = Some (st', j)
    /\ mem_brk st' = mem_brk st
    /\ heap_ok st'
         (l1 ++ (if MIN_BLOCK_SIZE <=? sj - block_size_of size
                 then [mkBlock j (block_size_of size) true;
                       mkBlock (j + block_size_of size)
                               (sj - block_size_of size) false]
                 else [mkBlock j sj true]) ++ l2) idx'.
Proof.
  intros OK Hprov Hsize (b & Hb & Hfree & Hfit).
  exists (S (length (flat_map idx (classes_from 0)))). intros fuel Hfuel.
  destruct (mm_malloc_spec st bs idx size fuel OK Hprov Hsize
              (fuel_for_index idx fuel Hfuel))
    as [(l1 & j & sj & l2 & m' & idx' & E & Hle & Hm & OK' & _)
       | [(Hno & _) | (Hno & _)]].
  - exists l1, j, sj, l2, (set_heap st m'), idx'.
    split; [exact E|]. split; [exact Hle|]. split; [exact Hm|].
    split; [reflexivity | exact OK'].
  - specialize (Hno b Hb Hfree). lia.
  - specialize (Hno b Hb Hfree). lia.
Qed.

Lemma find_ext_in {A} (f g : A -> bool) (l : list A) :
  (forall x, In x l -> f x = g x) -> find f l = find g l.
Proof.
  induction l as [|a l IH]; intros H; [reflexivity|]. cbn [find].
  rewrite (H a (or_introl eq_refl)), IH; [reflexivity|].
  intros x Hx. apply H. right. exact Hx.
Qed.

(** Two well-formed heaps with the same blocks and class lists give the
    fit finder the same answer. *)
Lemma spec_fit_same st st1 bs idx size :
  heap_ok st bs idx -> heap_ok st1 bs idx -> 0 <= size ->
  spec_fit st1 idx size = spec_fit st idx size.
Proof.
  intros OK OK1 Hsize. unfold spec_fit.
  rewrite (find_ext_in (fits st1 size) (fits st size)); [reflexivity|].
  intros q Hq. apply in_flat_map in Hq. destruct Hq as (c & Hc & Hq).
  apply classes_from_In in Hc; [|apply spec_start_class_range; exact Hsize].
  assert (Hc' : 0 <= c < SEG_LIST_COUNT)
    by (pose proof (spec_start_class_range size Hsize); lia).
  apply (ok_index _ _ _ OK c q Hc') in Hq. destruct Hq as (sq & Hb & _).
  pose proof (fits_block _ _ _ (mkBlock q sq false) size (ok_wf _ _ _ OK1) Hb) as F1.
  pose proof (fits_block _ _ _ (mkBlock q sq false) size (ok_wf _ _ _ OK) Hb) as F.
  cbn [bptr] in F1, F. rewrite F1, F. reflexivity.
Qed.

(** The pointer [mm_malloc] returns, from what [get_fit] found. *)
Lemma mm_malloc_pointer fuel st size st' r f :
  size <> 0 -> mm_malloc fuel st size = Some (st', r) ->
  get_fit fuel st (block_size_of size) = Some f ->
  r = if negb (f =? NULL) then f else snd (grow_heap st (block_size_of size)).
Proof.
  intros Hsize H Hfit. unfold mm_malloc in H.
  replace (size =? 0) with false in H by (symmetry; apply Z.eqb_neq; exact Hsize).
  cbv zeta in H. rewrite Hfit in H. destruct (negb (f =? NULL)).
  - destruct (if MIN_BLOCK_SIZE <=? _ then _ else _); [|discriminate].
    injection H as _ H. symmetry. exact H.
  - destruct (grow_heap st (block_size_of size)) as [st1 fp]. cbn [snd].
    destruct (fp =? NULL) eqn:E; cbn [negb] in H; injection H as _ H.
    + apply Z.eqb_eq in E. congruence.
    + symmetry. exact H.
Qed.

Lemma grow_heap_pointer st m' size :
  snd (grow_heap (set_heap st m') size) = snd (grow_heap st size).
Proof.
  unfold grow_heap, mem_sbrk. cbn [set_heap mem_max_addr mem_brk].
  destruct (size =? 0); [reflexivity|].
  destruct (mem_max_addr st <? mem_brk st + size); cbn [fst snd].
  - destruct (SBRK_FAIL =? SBRK_FAIL); reflexivity.
  - destruct (mem_brk st =? SBRK_FAIL); reflexivity.
Qed.

(** The allocator keeps nothing of its own inside an allocated payload.
    Whatever is written between the pointer of an allocated block and its
    footer, the heap stays well formed with the same blocks and the same
    class lists, and the operations decide as they would have without the
    writes: [get_fit] finds the same block for every request,
    [mm_malloc] returns the same pointer, and [mm_free] of any live
    pointer returns and leaves the same layout of blocks, well formed. *)
Theorem payload_writes_are_safe st bs idx p s m' :
  heap_ok st bs idx -> provider_ok st -> In (mkBlock p s true) bs ->
  (forall x, x < p \/ p + s - DSIZE <= x -> byte_at m' x = byte_at (heap st) x) ->
  let st1 := set_heap st m' in
  heap_ok st1 bs idx
  /\ exists fuel0, forall fuel, (fuel0 <= fuel)%nat ->
       (forall size, 0 <= size < 2 ^ 64 ->
          get_fit fuel st1 size = get_fit fuel st size
          /\ exists r stA stB,
               mm_malloc fuel st size = Some (stA, r)
               /\ mm_malloc fuel st1 size = Some (stB, r))
       /\ (forall q, live_in bs q ->
             exists bs' stA idxA stB idxB,
               mm_free fuel st q = Some stA /\ heap_ok stA bs' idxA
               /\ mm_free fuel st1 q = Some stB /\ heap_ok stB bs' idxB).
Proof.
  intros OK Hprov Hb Hm st1.
  assert (OK1 : heap_ok st1 bs idx).
  { apply heap_ok_payload_write; [exact OK|].
    intros x Hx. apply Hm.
    destruct (Z.lt_ge_cases x p) as [Hlt | Hge]; [left; exact Hlt|].
    destruct (Z.lt_ge_cases x (p + s - DSIZE)) as [Hlt | Hge']; [|right; exact Hge'].
    exfalso. apply Hx. exists (mkBlock p s true).
    split; [exact Hb|]. split; [reflexivity|].
    unfold payload. cbn [bptr bsize]. lia. }
  assert (Hprov1 : provider_ok st1) by exact Hprov.
  split; [exact OK1|].
  exists (S (length (flat_map idx (classes_from 0)))). intros fuel Hfuel.
  pose proof (fuel_for_index idx fuel Hfuel) as Hlen.
  assert (Hfit : forall size, 0 <= size < 2 ^ 64 ->
            get_fit fuel st size = Some (spec_fit st idx size)
            /\ get_fit fuel st1 size = Some (spec_fit st idx size)).
  { intros size Hsize. split.
    - apply get_fit_walks; [exact Hsize|]. intros c Hc.
      split; [apply (wf_walk _ _ _ (ok_wf _ _ _ OK) c Hc) | apply (Hlen c Hc)].
    - rewrite <- (spec_fit_same st st1 bs idx size OK OK1 ltac:(lia)).
      apply get_fit_walks; [exact Hsize|]. intros c Hc.
      split; [apply (wf_walk _ _ _ (ok_wf _ _ _ OK1) c Hc) | apply (Hlen c Hc)]. }
  split.
  - intros size Hsize. destruct (Hfit size Hsize) as [F F1].
    split; [rewrite F, F1; reflexivity|].
    destruct (Z.eq_dec size 0) as [-> | Hnz].
    { exists NULL, st, st1. split; reflexivity. }
    assert (HA : exists stA rA, mm_malloc fuel st size = Some (stA, rA)).
    { destruct (mm_malloc_spec st bs idx size fuel OK Hprov ltac:(lia) Hlen)
        as [(l1 & j & sj & l2 & mA & idxA & _ & _ & H & _)
           | [(_ & _ & H) | (_ & _ & H)]]; eexists _, _; exact H. }
    assert (HB : exists stB rB, mm_malloc fuel st1 size = Some (stB, rB)).
    { destruct (mm_malloc_spec st1 bs idx size fuel OK1 Hprov1 ltac:(lia) Hlen)
        as [(l1 & j & sj & l2 & mB & idxB & _ & _ & H & _)
           | [(_ & _ & H) | (_ & _ & H)]]; eexists _, _; exact H. }
    destruct HA as (stA & rA & HA). destruct HB as (stB & rB & HB).
    assert (Hbs : 0 <= block_size_of size < 2 ^ 64).
    { pose proof (block_size_of_range size ltac:(lia)) as [Hb16 _].
      unfold MIN_BLOCK_SIZE, DSIZE in Hb16. lia. }
    destruct (Hfit _ Hbs) as [G G1].
    pose proof (mm_malloc_pointer _ _ _ _ _ _ Hnz HA G) as EA.
    pose proof (mm_malloc_pointer _ _ _ _ _ _ Hnz HB G1) as EB.
    unfold st1 in EB. rewrite grow_heap_pointer in EB. rewrite <- EA in EB.
    subst rB. exists rA, stA, stB. split; [exact HA | exact HB].
  - intros q Hq.
    destruct (live_split _ _ _ _ (ok_wf _ _ _ OK) Hq) as (pre & Pv & sq & post & E).
    destruct (mm_free_full st bs idx pre Pv q sq post fuel OK E Hlen)
      as (mA & idxA & HfA & OKA & _).
    destruct (mm_free_full st1 bs idx pre Pv q sq post fuel OK1 E Hlen)
      as (mB & idxB & HfB & OKB & _).
    eexists _, _, idxA, _, idxB.
    split; [exact HfA|]. split; [exact OKA|]. split; [exact HfB | exact OKB].
Qed.

(** ** Where the operations write *)

(** In a well-formed heap, in a region of less than 4 GiB, [mm_malloc]
    and [mm_free] of a live pointer write nowhere below the class slots
    and nowhere from four bytes past the break on (the break as the call
    leaves it).  The four bytes at the break itself hold the footer of
    the last block. *)
Theorem writes_stay_in_heap st bs idx :
  heap_ok st bs idx -> provider_ok st ->
  mem_max_addr st - seg_lists st < 2 ^ 32 ->
  (forall size, 0 < size < 2 ^ 64 ->
     exists fuel0, forall fuel, (fuel0 <= fuel)%nat ->
     exists st' r,
       mm_malloc fuel st size = Some (st', r)
       /\ (forall x, outside_heap st' x ->
             byte_at (heap st') x = byte_at (heap st) x))
  /\ (forall p, live_in bs p ->
        exists fuel0, forall fuel, (fuel0 <= fuel)%nat ->
        exists st',
          mm_free fuel st p = Some st'
          /\ (forall x, outside_heap st' x ->
                byte_at (heap st') x = byte_at (heap st) x)).
Proof.
  intros OK Hprov Hcap. pose proof (ok_wf _ _ _ OK) as WF. split.
  - intros size Hsize.
    exists (S (length (flat_map idx (classes_from 0)))). intros fuel Hfuel.
    destruct (block_size_of_range size ltac:(lia)) as [Hb Hb8].
    unfold MIN_BLOCK_SIZE, DSIZE in Hb.
    destruct (mm_malloc_spec st bs idx size fuel OK Hprov Hsize
                (fuel_for_index idx fuel Hfuel))
      as [(l1 & j & sj & l2 & m' & idx' & E & Hle & Hm & OK' & _ & Hout)
         | [(Hno & Hroom & Hm) | (Hno & Hfull & Hm)]].
    + exists (set_heap st m'), j. split; [exact Hm|].
      intros x Hx. apply Hout. exact Hx.
    + set (bsz := block_size_of size) in *.
      assert (Hbsz : 0 < bsz < 2 ^ 32).
      { pose proof (wf_hp _ _ _ WF).
        pose proof (tiles_le _ _ _ (wf_tiles _ _ _ WF)). lia. }
      destruct Hprov as [Hbrk Hmax].
      eexists. eexists. split; [exact Hm|].
      rewrite grown_tags by (try assumption; lia).
      rewrite place_tags by (try assumption; unfold DSIZE, NULL; lia).
      unfold outside_heap. cbn [heap set_heap mem_brk seg_lists].
      intros x Hx. pose proof (wf_hp _ _ _ WF).
      pose proof (tiles_le _ _ _ (wf_tiles _ _ _ WF)).
      rewrite !byte_at_write_tags_other by (unfold DSIZE; lia). reflexivity.
    + exists st, NULL. split; [exact Hm|]. reflexivity.
  - intros p Hlive.
    destruct (live_split _ _ _ _ WF Hlive) as (pre & Pv & s & post & E).
    exists (S (length (flat_map idx (classes_from 0)))). intros fuel Hfuel.
    destruct (mm_free_full st bs idx pre Pv p s post fuel OK E
                (fuel_for_index idx fuel Hfuel))
      as (m' & idx' & Hfree & _ & _ & _ & _ & Hout).
    exists (set_heap st m'). split; [exact Hfree|].
    intros x Hx. apply Hout. exact Hx.
Qed.

(** ** The example states are well formed *)

Lemma init_state_ok :
  heap_ok init_state [mkBlock 4168 MIN_BLOCK_SIZE true] (fun _ => []).
Proof.
  destruct (mm_init_spec (fresh_region 4096 8192)) as (st & Hinit & OK & _).
  - split; vm_compute; reflexivity.
  - reflexivity.
  - vm_compute. discriminate.
  - intros y _. reflexivity.
  - unfold init_state. rewrite Hinit. exact OK.
Qed.

Lemma init_state_provider : provider_ok init_state.
Proof. split; vm_compute; reflexivity. Qed.

Lemma one_block_state_ok :
  heap_ok one_block_state
    [mkBlock 4168 MIN_BLOCK_SIZE true; mkBlock 4184 16 true] (fun _ => []).
Proof.
  apply (malloc_grow_spec init_state [mkBlock 4168 MIN_BLOCK_SIZE true]
           (fun _ => []) 16).
  - exact init_state_ok.
  - exact init_state_provider.
  - vm_compute. reflexivity.
  - lia.
  - reflexivity.
  - vm_compute. discriminate.
Qed.

Lemma freed_state_walks c :
  0 <= c < SEG_LIST_COUNT ->
  walk freed_state (class_head freed_state c) (freed_lists c).
Proof.
  intros Hc. unfold SEG_LIST_COUNT in Hc.
  assert (H : c = 0 \/ c = 1 \/ c = 2 \/ c = 3 \/ c = 4 \/ c = 5 \/ c = 6 \/ c = 7)
    by lia.
  destruct H as [-> | [-> | [-> | [-> | [-> | [-> | [-> | ->]]]]]]];
    try (apply walk_end; vm_compute; reflexivity).
  replace (class_head freed_state 0) with 4184 by (vm_compute; reflexivity).
  apply walk_step; [vm_compute; reflexivity|].
  apply walk_end. vm_compute. reflexivity.
Qed.

Ltac by_class c Hc :=
  unfold SEG_LIST_COUNT in Hc;
  let H := fresh "H" in
  assert (H : c = 0 \/ c = 1 \/ c = 2 \/ c = 3 \/ c = 4 \/ c = 5 \/ c = 6 \/ c = 7)
    by lia;
  destruct H as [-> | [-> | [-> | [-> | [-> | [-> | [-> | ->]]]]]]].

(** The layout of a state with the blocks [freed_blocks]: everything of
    [heap_wf] but the class lists. *)
Ltac freed_layout st :=
  constructor;
  [ split; vm_compute; reflexivity
   | vm_compute; reflexivity
   | vm_compute; reflexivity
   | vm_compute; reflexivity
   | vm_compute; reflexivity
   | exists [mkBlock 4184 16 false; mkBlock 4200 16 true]; vm_compute; reflexivity
   | unfold freed_blocks; cbn [tiles bptr bsize];
     replace (mem_hp st) with 4168 by (vm_compute; reflexivity);
     replace (mem_brk st) with 4208 by (vm_compute; reflexivity);
     unfold MIN_BLOCK_SIZE, DSIZE; repeat split; try reflexivity; lia
   | apply Forall_forall; intros b Hb; unfold freed_blocks in Hb;
     cbn [In] in Hb; destruct Hb as [<- | [<- | [<- | []]]];
     split; vm_compute; reflexivity
   | | | ].

Lemma freed_state_wf : heap_wf freed_state freed_blocks freed_lists.
Proof.
  freed_layout freed_state.
  - intros c Hc. by_class c Hc; vm_compute; repeat split.
  - intros c Hc. by_class c Hc; unfold freed_lists; cbn;
      repeat constructor. intros [].
  - intros c p Hc Hin. by_class c Hc; unfold freed_lists in Hin; cbn in Hin;
      try contradiction.
    destruct Hin as [<- | []]. exists 16, false.
    split; [right; left; reflexivity | vm_compute; reflexivity].
Qed.

Lemma freed_state_ok : heap_ok freed_state freed_blocks freed_lists.
Proof.
  constructor; [exact freed_state_wf | cbn; intuition |].
  intros c p Hc. split.
  - intros Hin. by_class c Hc; unfold freed_lists in Hin; cbn in Hin;
      try contradiction.
    destruct Hin as [<- | []]. exists 16.
    split; [right; left; reflexivity | vm_compute; reflexivity].
  - intros (s & Hin & Hk). unfold freed_blocks in Hin. cbn [In] in Hin.
    destruct Hin as [H | [H | [H | []]]]; try discriminate H.
    injection H as <- <-. vm_compute in Hk. subst c. left. reflexivity.
Qed.

Lemma freed_state_provider : provider_ok freed_state.
Proof. split; vm_compute; reflexivity. Qed.


Lemma hole_state_wf : heap_wf hole_state hole_blocks hole_lists.
Proof.
  constructor.
  - split; vm_compute; reflexivity.
  - vm_compute. reflexivity.
  - vm_compute. reflexivity.
  - vm_compute. reflexivity.
  - vm_compute. reflexivity.
  - exists [mkBlock 4184 48 false; mkBlock 4232 16 true]. vm_compute. reflexivity.
  - unfold hole_blocks. cbn [tiles bptr bsize].
    replace (mem_hp hole_state) with 4168 by (vm_compute; reflexivity).
    replace (mem_brk hole_state) with 4240 by (vm_compute; reflexivity).
    unfold MIN_BLOCK_SIZE, DSIZE. repeat split; try reflexivity; lia.
  - apply Forall_forall. intros b Hb. unfold hole_blocks in Hb. cbn [In] in Hb.
    destruct Hb as [<- | [<- | [<- | []]]]; split; vm_compute; reflexivity.
  - intros c Hc. by_class c Hc; vm_compute; repeat split.
  - intros c Hc. by_class c Hc; unfold hole_lists; cbn;
      repeat constructor. intros [].
  - intros c p Hc Hin. by_class c Hc; unfold hole_lists in Hin; cbn in Hin;
      try contradiction.
    destruct Hin as [<- | []]. exists 48, false.
    split; [right; left; reflexivity | vm_compute; reflexivity].
Qed.

Lemma hole_state_ok : heap_ok hole_state hole_blocks hole_lists.
Proof.
  constructor; [exact hole_state_wf | cbn; intuition |].
  intros c p Hc. split.
  - intros Hin. by_class c Hc; unfold hole_lists in Hin; cbn in Hin;
      try contradiction.
    destruct Hin as [<- | []]. exists 48.
    split; [right; left; reflexivity | vm_compute; reflexivity].
  - intros (s & Hin & Hk). unfold hole_blocks in Hin. cbn [In] in Hin.
    destruct Hin as [H | [H | [H | []]]]; try discriminate H.
    injection H as <- <-. vm_compute in Hk. subst c. left. reflexivity.
Qed.

Lemma hole_state_provider : provider_ok hole_state.
Proof. split; vm_compute; reflexivity. Qed.

Lemma full_state_ok :
  heap_ok full_state
    [mkBlock 4168 MIN_BLOCK_SIZE true; mkBlock 4184 16 true] (fun _ => []).
Proof.
  destruct (mm_init_spec (fresh_region 4096 4192)) as (st & Hinit & OK & _).
  - split; vm_compute; reflexivity.
  - reflexivity.
  - vm_compute. discriminate.
  - intros y _. reflexivity.
  - assert (Hst : st = fst (mm_init (fresh_region 4096 4192)))
      by (rewrite Hinit; reflexivity).
    unfold full_state. cbv zeta. rewrite <- Hst.
    replace (mem_brk st + DSIZE) with 4184
      by (rewrite Hst; vm_compute; reflexivity).
    replace 4184 with (mem_brk st + DSIZE)
      by (rewrite Hst; vm_compute; reflexivity).
    apply (malloc_grow_spec st [mkBlock 4168 MIN_BLOCK_SIZE true]
             (fun _ => []) 16).
    + exact OK.
    + rewrite Hst. split; vm_compute; reflexivity.
    + rewrite Hst. vm_compute. reflexivity.
    + lia.
    + reflexivity.
    + rewrite Hst. vm_compute. discriminate.
Qed.

Lemma full_state_provider : provider_ok full_state.
Proof. split; vm_compute; reflexivity. Qed.

(** ** Instances of the theorems *)


Lemma mm_malloc_exhausted fuel st size :
  size <> 0 ->
  get_fit fuel st (block_size_of size) = Some NULL ->
  mem_max_addr st < mem_brk st + block_size_of size ->
  mm_malloc fuel st size = Some (st, NULL).
Proof.
  intros Hsize Hfit Hroom. unfold mm_malloc.
  replace (size =? 0) with false by (symmetry; apply Z.eqb_neq; exact Hsize).
  cbv zeta. rewrite Hfit, (grow_heap_fail st _ Hroom). reflexivity.
Qed.

Lemma resize_failure_atomic_witness :
  provider_ok full_state
  /\ mm_malloc 1 full_state 100 = Some (full_state, NULL)
  /\ mm_realloc 1 full_state 4184 100 = Some (full_state, NULL)
  /\ full_state = full_state.
Proof.
  assert (Hp : provider_ok full_state) by (split; vm_compute; reflexivity).
  assert (Hm : mm_malloc 1 full_state 100 = Some (full_state, NULL)).
  { apply mm_malloc_exhausted; [discriminate | | ]; vm_compute; reflexivity. }
  split; [exact Hp|]. split; [exact Hm|].
  apply (resize_failure_atomic 1 full_state 4184 100 full_state);
    [exact Hp | discriminate | lia | exact Hm].
Defined.

Lemma malloc_grows_exactly_witness :
  get_fit 1 init_state (block_size_of 100) = Some NULL
  /\ mem_brk init_state + block_size_of 100 <= mem_max_addr init_state
  /\ block_size_of 100 < 2 ^ 32
  /\ exists st',
       mm_malloc 1 init_state 100 = Some (st', 4184)
       /\ mem_brk st' = mem_brk init_state + 112
       /\ GET st' (GET_HEADER 4184) = PACK 112 1
       /\ GET st' (GET_FOOTER st' 4184) = PACK 112 1
       /\ GET_SIZE st' (GET_HEADER 4184) = 112
       /\ GET_ALLOC st' (GET_HEADER 4184) = 1
       /\ GET_FOOTER st' 4184 = mem_brk st'.
Proof.
  assert (Hf : get_fit 1 init_state (block_size_of 100) = Some NULL)
    by (vm_compute; reflexivity).
  assert (Hroom : mem_brk init_state + block_size_of 100 <= mem_max_addr init_state)
    by (vm_compute; discriminate).
  assert (Hlt : block_size_of 100 < 2 ^ 32) by (vm_compute; reflexivity).
  split; [exact Hf|]. split; [exact Hroom|]. split; [exact Hlt|].
  destruct (malloc_grows_exactly 1 init_state 100) as [Hgrow _].
  - exact init_state_provider.
  - lia.
  - exact Hf.
  - destruct (Hgrow Hroom)
      as (st' & Hm & _ & Hbrk & _ & _ & _ & Hal & Hexact).
    destruct (Hexact Hlt) as (Hh & Hft & Hsz & Hfoot).
    exists st'. split; [exact Hm|]. split; [exact Hbrk|].
    split; [exact Hh|]. split; [exact Hft|]. split; [exact Hsz|].
    split; [exact Hal | exact Hfoot].
Defined.

Lemma allocate_null_iff_witness :
  heap_ok full_state
    [mkBlock 4168 MIN_BLOCK_SIZE true; mkBlock 4184 16 true] (fun _ => [])
  /\ mm_malloc 1 full_state 100 = Some (full_state, NULL)
  /\ mem_max_addr full_state < mem_brk full_state + block_size_of 100
  /\ exists fuel0, forall fuel, (fuel0 <= fuel)%nat ->
     exists st' r,
       mm_malloc fuel full_state 100 = Some (st', r)
       /\ (r = NULL <->
           100 = 0
           \/ ((forall c q, 0 <= c < SEG_LIST_COUNT -> In q [] ->
                  GET_SIZE full_state (GET_HEADER q) < block_size_of 100)
               /\ mem_max_addr full_state
                  < mem_brk full_state + block_size_of 100)).
Proof.
  split; [exact full_state_ok|].
  split; [apply mm_malloc_exhausted; [discriminate | | ]; vm_compute; reflexivity|].
  split; [vm_compute; reflexivity|].
  apply (allocate_null_iff full_state
           [mkBlock 4168 MIN_BLOCK_SIZE true; mkBlock 4184 16 true]
           (fun _ => []) 100).
  - exact full_state_ok.
  - exact full_state_provider.
  - lia.
Defined.

Lemma release_coalesces_witness :
  live_in hole_blocks 4232
  /\ exists fuel0, forall fuel, (fuel0 <= fuel)%nat ->
     exists st' idx',
       mm_free fuel hole_state 4232 = Some st'
       /\ heap_ok st' [mkBlock 4168 MIN_BLOCK_SIZE true; mkBlock 4184 64 false] idx'
       /\ no_adj_free [mkBlock 4168 MIN_BLOCK_SIZE true; mkBlock 4184 64 false]
       /\ tags_ok (heap st') (mkBlock 4184 64 false)
       /\ In 4184 (idx' 1).
Proof.
  assert (Hl : live_in hole_blocks 4232)
    by (exists 16; right; left; reflexivity).
  split; [exact Hl|].
  destruct (release_coalesces hole_state hole_blocks hole_lists 4232
              hole_state_ok Hl) as (pre & Pv & s & post & E & H).
  assert (Epre : pre = [mkBlock 4168 MIN_BLOCK_SIZE true]
                 /\ Pv = mkBlock 4184 48 false /\ s = 16 /\ post = []).
  { unfold hole_blocks in E.
    destruct pre as [|b0 [|b1 [|b2 pre]]]; cbn [app] in E.
    - exfalso. congruence.
    - inversion E. subst. repeat split; reflexivity.
    - exfalso. congruence.
    - exfalso. destruct pre; cbn [app] in E; congruence. }
  destruct Epre as (-> & -> & -> & ->). exact H.
Defined.


Lemma one_block_state_provider : provider_ok one_block_state.
Proof. split; vm_compute; reflexivity. Qed.

Lemma init_establishes_heap_witness :
  provider_ok (fresh_region 4096 8192)
  /\ exists st,
       mm_init (fresh_region 4096 8192) = (st, 0)
       /\ heap_ok st [mkBlock 4168 MIN_BLOCK_SIZE true] (fun _ => [])
       /\ seg_lists st = 4096
       /\ mem_brk st = 4176.
Proof.
  assert (Hp : provider_ok (fresh_region 4096 8192))
    by (split; vm_compute; reflexivity).
  split; [exact Hp|].
  destruct (init_establishes_heap (fresh_region 4096 8192)) as [Hinit _].
  - exact Hp.
  - reflexivity.
  - intros y _. reflexivity.
  - apply Hinit. vm_compute. discriminate.
Defined.

Lemma allocate_keeps_heap_witness :
  exists fuel0, forall fuel, (fuel0 <= fuel)%nat ->
  exists st' r bs' idx',
    mm_malloc fuel one_block_state 100 = Some (st', r)
    /\ heap_ok st' bs' idx'
    /\ frame [mkBlock 4168 MIN_BLOCK_SIZE true; mkBlock 4184 16 true]
         (heap one_block_state) (heap st')
    /\ (r = NULL -> st' = one_block_state)
    /\ (r <> NULL ->
        r mod 8 = 0
        /\ exists s, block_size_of 100 <= s
           /\ In (mkBlock r s true) bs'
           /\ (forall s', ~ In (mkBlock r s' true)
                            [mkBlock 4168 MIN_BLOCK_SIZE true; mkBlock 4184 16 true])
           /\ (forall b, In b [mkBlock 4168 MIN_BLOCK_SIZE true; mkBlock 4184 16 true] ->
                         balloc b = true -> In b bs')).
Proof.
  apply (allocate_keeps_heap one_block_state
           [mkBlock 4168 MIN_BLOCK_SIZE true; mkBlock 4184 16 true]
           (fun _ => []) 100).
  - exact one_block_state_ok.
  - exact one_block_state_provider.
  - vm_compute. reflexivity.
  - lia.
Defined.

Lemma resize_preserves_content_witness :
  exists fuel0, forall fuel, (fuel0 <= fuel)%nat ->
  exists st' r bs' idx',
    mm_realloc fuel one_block_state 4184 100 = Some (st', r)
    /\ heap_ok st' bs' idx'
    /\ (r = NULL -> st' = one_block_state)
    /\ (r <> NULL ->
        r mod 8 = 0
        /\ (exists s, 100 + DSIZE <= s /\ In (mkBlock r s true) bs')
        /\ (forall s', ~ In (mkBlock r s' true)
                         [mkBlock 4168 MIN_BLOCK_SIZE true; mkBlock 4184 16 true])
        /\ (forall s', ~ In (mkBlock 4184 s' true) bs')
        /\ (forall k, 0 <= k < Z.min 100 (16 - DSIZE) ->
              byte_at (heap st') (r + k) = byte_at (heap one_block_state) (4184 + k))
        /\ (forall b x,
              In b [mkBlock 4168 MIN_BLOCK_SIZE true; mkBlock 4184 16 true] ->
              balloc b = true -> bptr b <> 4184 -> payload b x ->
              In b bs'
              /\ byte_at (heap st') x = byte_at (heap one_block_state) x)).
Proof.
  apply (resize_preserves_content one_block_state
           [mkBlock 4168 MIN_BLOCK_SIZE true; mkBlock 4184 16 true]
           (fun _ => []) 4184 16 100).
  - exact one_block_state_ok.
  - exact one_block_state_provider.
  - vm_compute. discriminate.
  - vm_compute. reflexivity.
  - right. left. reflexivity.
  - vm_compute. discriminate.
  - lia.
Defined.

Lemma sane_sessions_are_safe_witness :
  option_map (fun c => (results c, live c)) (session 512 4096 8192 sane_calls)
  = Some ([4184; 4208; 4224; 0; 0; 4240; 0; 4184; 0; 4352],
          [(4352, 24); (4184, 40); (4240, 100)])
  /\ match session 512 4096 8192 sane_calls with
     | Some c =>
         (exists bs idx, client_ok 512 c bs idx)
         /\ pairwise_disjoint (live_ranges c) = true
         /\ forallb (tags_agree (cstate c)) (map fst (live c)) = true
         /\ Forall (fun r => r mod 8 = 0) (results c)
     | None =>
         breaks 512 (mkClient (fst (mm_init (fresh_region 4096 8192))) [] [])
           sane_calls
     end.
Proof.
  split; [vm_compute; reflexivity|].
  apply (sane_sessions_are_safe 512 4096 8192 sane_calls); try lia.
  - reflexivity.
  - unfold sane_calls.
    repeat (constructor; [cbn [sane_call]; try exact I; lia|]). constructor.
Defined.

Lemma released_state_eq : mm_free 2 one_block_state 4184 = Some released_state.
Proof.
  assert (H : option_map (fun _ => tt) (mm_free 2 one_block_state 4184) = Some tt)
    by (vm_compute; reflexivity).
  unfold released_state. destruct (mm_free 2 one_block_state 4184);
    [reflexivity | discriminate H].
Qed.

Lemma grown_state_eq :
  mm_malloc 1 one_block_state 100 = Some (grown_state, 4200).
Proof.
  assert (H : option_map snd (mm_malloc 1 one_block_state 100) = Some 4200)
    by (vm_compute; reflexivity).
  unfold grown_state. destruct (mm_malloc 1 one_block_state 100) as [[st r]|];
    [|discriminate H].
  cbn in H. injection H as ->. reflexivity.
Qed.

Lemma tag_round_trip_witness :
  GET_SIZE (PUT init_state 4180 (PACK (2 ^ 32 + 24) 1)) 4180 = 24
  /\ GET_ALLOC (PUT init_state 4180 (PACK (2 ^ 32 + 24) 1)) 4180 = 1.
Proof.
  destruct (tag_round_trip init_state 4180 (2 ^ 32 + 24) 1) as (H1 & H2 & _).
  - lia.
  - reflexivity.
  - right. reflexivity.
  - split; [exact H1 | exact H2].
Defined.

Lemma ALIGN_rounds_up_witness :
  ALIGN 13 mod 8 = 0 /\ 13 <= ALIGN 13 < 13 + 8.
Proof.
  destruct (ALIGN_rounds_up 13) as (H1 & H2 & _); [lia|].
  split; [exact H1 | apply H2; lia].
Defined.

Lemma block_size_cases_witness :
  block_size_of 100 mod 8 = 0
  /\ MIN_BLOCK_SIZE <= block_size_of 100
  /\ 100 + DSIZE <= block_size_of 100 < 100 + 2 * DSIZE.
Proof.
  destruct (block_size_cases 100) as [H _]; [lia|]. apply H. lia.
Defined.

Lemma size_class_cases_witness :
  0 <= get_size_class 100 < SEG_LIST_COUNT
  /\ get_size_class 100 = Z.min (100 / 64) 7.
Proof.
  destruct (size_class_cases 100) as (H1 & H2 & _); [lia|].
  split; [exact H1 | apply H2; lia].
Defined.

Lemma fit_finder_exact_witness :
  exists fuel0, forall fuel, (fuel0 <= fuel)%nat ->
  exists r,
    get_fit fuel freed_state 16 = Some r
    /\ (r <> NULL -> exists s, In (mkBlock r s false) freed_blocks /\ 16 <= s)
    /\ (r = NULL ->
        forall b, In b freed_blocks -> balloc b = false -> bsize b < 16).
Proof.
  apply (fit_finder_exact freed_state freed_blocks freed_lists 16);
    [exact freed_state_ok | lia].
Defined.

Lemma seg_list_remove_absent_witness :
  seg_list_remove 2 freed_state 4200 = Some freed_state.
Proof.
  apply (seg_list_remove_absent 2 freed_state 4200 [4184]).
  - replace (get_size_class (GET_SIZE freed_state (GET_HEADER 4200))) with 0
      by (vm_compute; reflexivity).
    apply (freed_state_walks 0). unfold SEG_LIST_COUNT. lia.
  - intros [H | []]. discriminate H.
  - cbn. lia.
Defined.





Lemma grow_heap_cases_witness :
  (exists st',
     grow_heap init_state 16 = (st', 4184)
     /\ mem_brk st' = mem_brk init_state + 16
     /\ mem_bp st' = mem_brk st' - 1
     /\ GET st' (GET_HEADER 4184) = 16
     /\ GET st' (GET_FOOTER st' 4184) = 16
     /\ GET_SIZE st' (GET_HEADER 4184) = 16
     /\ GET_ALLOC st' (GET_HEADER 4184) = 0
     /\ GET_FOOTER st' 4184 = mem_brk st')
  /\ (exists st',
        grow_heap init_state 20 = (st', 4184)
        /\ mem_brk st' = mem_brk init_state + 20
        /\ GET st' (GET_HEADER 4184) = 20
        /\ GET_FOOTER st' 4184 = 4192
        /\ GET st' (GET_FOOTER st' 4184) = 20)
  /\ grow_heap init_state 0 = (init_state, NULL).
Proof.
  split; [|split].
  - destruct (grow_heap_cases init_state 16 init_state_provider ltac:(lia))
      as [_ H].
    destruct H as (st' & Hg & Hbrk & Hbp & _ & _ & _ & Hh & _ & Hft & _ & Hex).
    + lia.
    + vm_compute. discriminate.
    + destruct Hex as (Hsz & Hal & Hfoot); [lia | reflexivity|].
      exists st'. split; [exact Hg|]. split; [exact Hbrk|]. split; [exact Hbp|].
      split; [exact Hh|]. split; [exact Hft|]. split; [exact Hsz|].
      split; [exact Hal | exact Hfoot].
  - destruct (grow_heap_cases init_state 20 init_state_provider ltac:(lia))
      as [_ H].
    destruct H as (st' & Hg & Hbrk & _ & _ & _ & _ & Hh & Hfoot & Hft & _).
    + lia.
    + vm_compute. discriminate.
    + exists st'. split; [exact Hg|]. split; [exact Hbrk|].
      split; [exact Hh|]. split; [exact Hfoot | exact Hft].
  - destruct (grow_heap_cases init_state 0 init_state_provider ltac:(lia))
      as [H _].
    apply H. left. reflexivity.
Defined.

Lemma place_writes_both_tags_witness :
  GET_SIZE (place init_state 4184 16) (GET_HEADER 4184) = 16
  /\ GET_ALLOC (place init_state 4184 16) (GET_HEADER 4184) = 1
  /\ GET_FOOTER (place init_state 4184 16) 4184 = 4184 + 16 - DSIZE
  /\ GET (place init_state 4184 16) (GET_FOOTER (place init_state 4184 16) 4184)
     = GET (place init_state 4184 16) (GET_HEADER 4184).
Proof.
  destruct (place_writes_both_tags init_state 4184 16) as (_ & _ & H).
  destruct H as (H1 & H2 & H3 & H4 & _); [discriminate | lia | reflexivity|].
  split; [exact H1|]. split; [exact H2|]. split; [exact H3 | exact H4].
Defined.

Lemma release_keeps_region_witness :
  mm_free 2 one_block_state 4184 = Some released_state
  /\ same_region one_block_state released_state.
Proof.
  split; [exact released_state_eq|].
  apply (release_keeps_region 2 one_block_state 4184 released_state).
  exact released_state_eq.
Defined.

Lemma allocate_never_shrinks_witness :
  mm_malloc 1 one_block_state 100 = Some (grown_state, 4200)
  /\ mem_max_addr grown_state = mem_max_addr one_block_state
  /\ seg_lists grown_state = seg_lists one_block_state
  /\ mem_hp grown_state = mem_hp one_block_state
  /\ (same_region one_block_state grown_state
      \/ (mem_brk grown_state = mem_brk one_block_state + block_size_of 100
          /\ 4200 = mem_brk one_block_state + DSIZE
          /\ mem_bp grown_state = mem_brk grown_state - 1)).
Proof.
  split; [exact grown_state_eq|].
  apply (allocate_never_shrinks 1 one_block_state 100 grown_state 4200).
  - exact one_block_state_provider.
  - lia.
  - exact grown_state_eq.
Defined.

Lemma release_keeps_others_witness :
  exists fuel0, forall fuel, (fuel0 <= fuel)%nat ->
  exists st' bs' idx',
    mm_free fuel freed_state 4200 = Some st'
    /\ heap_ok st' bs' idx'
    /\ (forall b, balloc b = true ->
          (In b bs' <-> In b freed_blocks /\ bptr b <> 4200))
    /\ (forall b x, In b freed_blocks -> balloc b = true -> bptr b <> 4200 ->
          payload b x -> byte_at (heap st') x = byte_at (heap freed_state) x).
Proof.
  apply (release_keeps_others freed_state freed_blocks freed_lists 4200).
  - exact freed_state_ok.
  - exists 16. right. left. reflexivity.
Defined.

Lemma release_then_allocate_reuses_witness :
  exists fuel0, forall fuel, (fuel0 <= fuel)%nat ->
  exists st1 st2 r,
    mm_free fuel full_state 4184 = Some st1
    /\ mm_malloc fuel st1 8 = Some (st2, r)
    /\ r <> NULL
    /\ mem_brk st2 = mem_brk full_state.
Proof.
  assert (OK : heap_ok full_state
                 [mkBlock 4168 MIN_BLOCK_SIZE true; mkBlock 4184 16 true]
                 (fun _ => [])).
  { destruct (mm_init_spec (fresh_region 4096 4192)) as (st & Hinit & OK & _).
    - split; vm_compute; reflexivity.
    - reflexivity.
    - vm_compute. discriminate.
    - intros y _. reflexivity.
    - assert (Hst : st = fst (mm_init (fresh_region 4096 4192)))
        by (rewrite Hinit; reflexivity).
      unfold full_state. cbv zeta. rewrite <- Hst.
      replace (mem_brk st + DSIZE) with 4184
        by (rewrite Hst; vm_compute; reflexivity).
      replace 4184 with (mem_brk st + DSIZE)
        by (rewrite Hst; vm_compute; reflexivity).
      apply (malloc_grow_spec st [mkBlock 4168 MIN_BLOCK_SIZE true]
               (fun _ => []) 16).
      + exact OK.
      + rewrite Hst. split; vm_compute; reflexivity.
      + rewrite Hst. vm_compute. reflexivity.
      + lia.
      + reflexivity.
      + rewrite Hst. vm_compute. discriminate. }
  apply (release_then_allocate_reuses full_state _ _ 4184 16 8 OK).
  - split; vm_compute; reflexivity.
  - right. left. reflexivity.
  - vm_compute. discriminate.
  - lia.
  - vm_compute. discriminate.
Defined.

Lemma allocate_from_fit_witness :
  exists fuel0, forall fuel, (fuel0 <= fuel)%nat ->
  exists l1 j sj l2 st' idx',
    freed_blocks = l1 ++ mkBlock j sj false :: l2
    /\ block_size_of 8 <= sj
    /\ mm_malloc fuel freed_state 8 = Some (st', j)
    /\ mem_brk st' = mem_brk freed_state
    /\ heap_ok st'
         (l1 ++ (if MIN_BLOCK_SIZE <=? sj - block_size_of 8
                 then [mkBlock j (block_size_of 8) true;
                       mkBlock (j + block_size_of 8) (sj - block_size_of 8) false]
                 else [mkBlock j sj true]) ++ l2) idx'.
Proof.
  apply (allocate_from_fit freed_state freed_blocks freed_lists 8).
  - exact freed_state_ok.
  - exact freed_state_provider.
  - lia.
  - exists (mkBlock 4184 16 false).
    split; [right; left; reflexivity|]. split; [reflexivity|].
    vm_compute. discriminate.
Defined.

Lemma payload_writes_are_safe_witness :
  let st1 := set_heap hole_state (store_le 1 (heap hole_state) 4238 255) in
  heap_ok st1 hole_blocks hole_lists
  /\ exists fuel0, forall fuel, (fuel0 <= fuel)%nat ->
       (forall size, 0 <= size < 2 ^ 64 ->
          get_fit fuel st1 size = get_fit fuel hole_state size
          /\ exists r stA stB,
               mm_malloc fuel hole_state size = Some (stA, r)
               /\ mm_malloc fuel st1 size = Some (stB, r))
       /\ (forall q, live_in hole_blocks q ->
             exists bs' stA idxA stB idxB,
               mm_free fuel hole_state q = Some stA /\ heap_ok stA bs' idxA
               /\ mm_free fuel st1 q = Some stB /\ heap_ok stB bs' idxB).
Proof.
  apply (payload_writes_are_safe hole_state hole_blocks hole_lists 4232 16).
  - exact hole_state_ok.
  - exact hole_state_provider.
  - right. right. left. reflexivity.
  - intros x Hx. apply byte_at_store_out. unfold DSIZE in Hx. lia.
Defined.

Lemma writes_stay_in_heap_witness :
  (exists fuel0, forall fuel, (fuel0 <= fuel)%nat ->
   exists st' r,
     mm_malloc fuel freed_state 100 = Some (st', r)
     /\ (forall x, outside_heap st' x ->
           byte_at (heap st') x = byte_at (heap freed_state) x))
  /\ (exists fuel0, forall fuel, (fuel0 <= fuel)%nat ->
      exists st',
        mm_free fuel freed_state 4200 = Some st'
        /\ (forall x, outside_heap st' x ->
              byte_at (heap st') x = byte_at (heap freed_state) x)).
Proof.
  destruct (writes_stay_in_heap freed_state freed_blocks freed_lists)
    as [Hm Hf].
  - exact freed_state_ok.
  - exact freed_state_provider.
  - vm_compute. reflexivity.
  - split; [apply Hm; lia|]. apply Hf. exists 16. right. left. reflexivity.
Defined.

(** ** The absorb branch rewrites a header that is still indexed *)


(** ** A block of 4 GiB or more *)

(** C7, counterexample: in a region of 16 GiB, [mm_malloc(2^32)] finds no
    candidate, asks the provider for the computed block size, [2^32 + 8]
    bytes, and returns the block at the old break; the header of that
    block holds 9, so that its size field reads 8, not [2^32 + 8], and its
    footer is looked up at the payload pointer itself. *)
Lemma large_block_tag_truncated :
  provider_ok big_state
  /\ get_fit 1 big_state (block_size_of (2 ^ 32)) = Some NULL
  /\ mem_brk big_state + block_size_of (2 ^ 32) <= mem_max_addr big_state
  /\ block_size_of (2 ^ 32) = 2 ^ 32 + 8
  /\ option_map
       (fun r => (snd r, mem_brk (fst r) - mem_brk big_state,
                  GET (fst r) (GET_HEADER (snd r)),
                  GET_SIZE (fst r) (GET_HEADER (snd r)),
                  GET_FOOTER (fst r) (snd r)))
       (mm_malloc 1 big_state (2 ^ 32))
     = Some (4184, 2 ^ 32 + 8, 9, 8, 4184).
Proof.
  split; [split; vm_compute; reflexivity|].
  split; [vm_compute; reflexivity|].
  split; [vm_compute; discriminate|].
  split; vm_compute; reflexivity.
Qed.

(** ** Requests of nearly [SIZE_MAX] bytes *)

(** The block size computed for [SIZE_MAX] wraps around to the minimum. *)
Lemma block_size_of_SIZE_MAX : block_size_of SIZE_MAX = 16.
Proof. reflexivity. Qed.

(** C5, at the failing input [init(); p = allocate(16); q = resize(p,
    SIZE_MAX)]: the block returned by [resize] has header 17 (16 bytes,
    allocated) and footer 0. *)
Theorem overflowing_resize_breaks_tags :
  option_map
    (fun c => let q := nth 1 (results c) 0 in
              (results c, GET (cstate c) (GET_HEADER q),
               GET (cstate c) (GET_FOOTER (cstate c) q),
               tags_agree (cstate c) q))
    (session 4 4096 8192 tag_calls)
  = Some ([4184; 4208], 17, 0, false).
Proof. vm_compute. reflexivity. Qed.

(** C1, at the failing input [overlap_calls]: the session ends with the
    live allocations 4224, 4208 and 4240, and the blocks of 4224 and 4240
    share the bytes [4236, 4252). *)
Theorem overflowing_resize_overlaps :
  option_map
    (fun c => (results c, map fst (live c), live_ranges c,
               pairwise_disjoint (live_ranges c)))
    (session 4 4096 8192 overlap_calls)
  = Some ([4184; 4208; 4224; 4240; 0; 0; 4208; 0; 4224],
          [4224; 4208; 4240],
          [(4220, 4268); (4204, 4220); (4236, 4252)], false).
Proof. vm_compute. reflexivity. Qed.

(** C8, at the failing input [align_calls]: the last call, [allocate(48)],
    returns 4205, which is not a multiple of 8. *)
Theorem overflowing_resize_misaligns :
  option_map (fun c => (results c, last (results c) 0 mod 8))
             (session 4 4096 8192 align_calls)
  = Some ([4184; 4232; 4248; 4264; 0; 0; 0; 0; 0; 4232; 4205], 5).
Proof. vm_compute. reflexivity. Qed.

(** C3, at the failing input [copy_calls]: 104 bytes are allocated and
    filled with [pattern], and the pointer is resized to [SIZE_MAX]; byte
    100 at the returned pointer is 112 where the pattern has 113. *)
Theorem overflowing_resize_loses_content :
  option_map
    (fun c => let q := nth 5 (results c) 0 in
              (results c, nth 100 (bytes_at (cstate c) q 104) 0,
               nth 100 pattern 0))
    (session 4 4096 8192 copy_calls)
  = Some ([4184; 4200; 4288; 0; 0; 4184], 112, 113).
Proof. vm_compute. reflexivity. Qed.

(** C4, at the failing input [adj_calls]: the resize to [SIZE_MAX] is
    served from the 16-byte block at 4240 and copies 48 bytes, over the
    footer of the free block at 4272 (it read 16 and now reads 0).  The
    release of the live block 4288 that follows looks for its predecessor
    through that footer, finds itself, and merges nothing: when it
    returns, the blocks 4272 and 4288 are adjacent ([GET_NEXT] of the
    first is the second), both tagged free with 16 bytes, and both in the
    list of class 0. *)
Theorem overflowing_resize_leaves_adjacent_free :
  option_map
    (fun c => let st := cstate c in
              (results c, map fst (live c))) (session 4 4096 8192 (removelast adj_calls))
  = Some ([4184; 4240; 4256; 4272; 4288; 0; 0; 0; 0; 0; 4240],
          [4240; 4288; 4256])
  /\ option_map
       (fun c => let st := cstate c in
                 ((GET_SIZE st (GET_HEADER 4272), GET_ALLOC st (GET_HEADER 4272)),
                  GET_NEXT st 4272,
                  (GET_SIZE st (GET_HEADER 4288), GET_ALLOC st (GET_HEADER 4288)),
                  [class_head st 0; GET_NEXT_FREE st 4288; GET_NEXT_FREE st 4184;
                   GET_NEXT_FREE st 4272]))
       (session 4 4096 8192 adj_calls)
     = Some ((16, 0), 4288, (16, 0), [4288; 4184; 4272; 0]).
Proof. split; vm_compute; reflexivity. Qed.

(** The walk of [get_fit] through a list that ends in a block linked to
    itself and too small for the request does not finish. *)
Lemma fit_in_list_self_loop st size j :
  INSIDE_HEAP st j && negb (j =? 0) = true ->
  (GET_ALLOC st (GET_HEADER j) =? 0) && (size <=? GET_SIZE st (GET_HEADER j))
  = false ->
  GET_NEXT_FREE st j = j ->
  forall fuel, fit_in_list fuel st size j = None.
Proof.
  intros Hin Hfit Hnext fuel. induction fuel as [|fuel IH]; [reflexivity|].
  cbn [fit_in_list]. rewrite Hin, Hfit, Hnext. exact IH.
Qed.

(** C2, at the failing input [loop_calls]: the resize to [SIZE_MAX] is
    served from the 16-byte block at 4232 and copies 40 bytes, over the
    link of the free block at 4264, which then points to 4264 itself.
    In the state the session ends in, [allocate(48)] is a request of
    non-zero size for which the provider has room (56 bytes below the
    capacity), and [mm_malloc] does not return: the walk through class 0
    (4184, 48 bytes, then 4264, 16 bytes, then 4264 again) never ends, for
    any amount of fuel. *)
Theorem overflowing_resize_hangs_allocate :
  option_map (fun c => (results c, map fst (live c)))
             (session 4 4096 8192 loop_calls)
  = Some ([4184; 4232; 4248; 4264; 0; 0; 0; 0; 4232], [4232; 4248])
  /\ [class_head loop_state 0; GET_NEXT_FREE loop_state 4184;
      GET_NEXT_FREE loop_state 4264] = [4184; 4264; 4264]
  /\ mem_brk loop_state + block_size_of 48 <= mem_max_addr loop_state
  /\ forall fuel, mm_malloc fuel loop_state 48 = None.
Proof.
  split; [vm_compute; reflexivity|]. split; [vm_compute; reflexivity|].
  split; [vm_compute; discriminate|].
  assert (Hloop : forall fuel, fit_in_list fuel loop_state 56 4264 = None).
  { apply fit_in_list_self_loop; vm_compute; reflexivity. }
  assert (Hhead : forall fuel, fit_in_list fuel loop_state 56 4184 = None).
  { intros [|fuel]; [reflexivity|]. cbn [fit_in_list].
    replace (INSIDE_HEAP loop_state 4184 && negb (4184 =? 0)) with true
      by (vm_compute; reflexivity).
    replace ((GET_ALLOC loop_state (GET_HEADER 4184) =? 0)
             && (56 <=? GET_SIZE loop_state (GET_HEADER 4184))) with false
      by (vm_compute; reflexivity).
    replace (GET_NEXT_FREE loop_state 4184) with 4264 by (vm_compute; reflexivity).
    apply Hloop. }
  intros fuel. unfold mm_malloc. change (48 =? 0) with false. cbv iota zeta.
  change (block_size_of 48) with 56. unfold get_fit.
  change (get_size_class 56) with 0.
  change (Z.to_nat (SEG_LIST_COUNT - 0)) with 8%nat. cbn [fit_from].
  replace (GET_PTR_ADDR loop_state (seg_lists loop_state + 8 * 0)) with 4184
    by (vm_compute; reflexivity).
  rewrite Hhead. reflexivity.
Qed.
